(** * Astrologix backend: appointment lifecycle

    A shallow embedding of the appointment routes of the booking backend
    (routes/appointments.js, routes/payments.js, routes/videoCall.js,
    routes/admin.js), of the Appointment schema they persist through, and
    of the video-room service they call, followed by the properties of the
    lifecycle that the specification states.

    Conventions.
    - A JavaScript [Date] is its time value, a number of milliseconds since
      the epoch, as a [Z]; [new Date()] is an explicit clock argument [now].
    - The record store is a finite map from the document id to the
      document.  Ids are ObjectIds that were already cast: a request whose
      id is not a well-formed ObjectId is outside the model.
    - A route handler is a function from the request and the store to the
      JSON response and the new store.  An exception thrown inside the
      handler's [try] is the [Throw] outcome of a small state and error
      monad and is turned into the response of the handler's [catch]. *)

From Stdlib Require Import ZArith Ascii String List Bool Lia.
From Stdlib Require OrderedTypeEx.
From stdpp Require Import base option list gmap strings pretty sorting.

Local Open Scope string_scope.
Local Open Scope Z_scope.

(** ** JavaScript values that reach the handlers *)

(** ** Numbers *)

Module Double.

(** The Number value of an integer: the nearest double, a tie going to
    the even significand.  [None] is an infinity. *)
Definition nearest (n : Z) : option Z :=
  let m := Z.abs n in
  if m <? 2 ^ 53 then Some n
  else
    let e := Z.log2 m - 52 in
    let q := m / 2 ^ e in
    let r := m mod 2 ^ e in
    let half := 2 ^ (e - 1) in
    let q' := if (half <? r) || ((r =? half) && Z.odd q) then q + 1 else q in
    let v := q' * 2 ^ e in
    if 2 ^ 1024 <=? v then None else Some (Z.sgn n * v).

(** The number of decimal digits of a positive integer. *)
Definition digits (v : Z) : Z := Z.of_nat (String.length (pretty v)).

(** The decimal with the fewest significant digits that reads back as
    the double [v] (positive): with [k] digits the candidates are the
    two multiples of [10^(D-k)] around [v]; of two that read back as [v]
    the closer one is taken, the one with the even last digit on a tie. *)
Fixpoint shortest (fuel : nat) (k D v : Z) : Z :=
  match fuel with
  | O => v
  | S fuel =>
      if D <=? k then v
      else
        let unit := 10 ^ (D - k) in
        let lo := v / unit * unit in
        let hi := lo + unit in
        let okLo := bool_decide (nearest lo = Some v) in
        let okHi := bool_decide (nearest hi = Some v) in
        if okLo && okHi
        then if (v - lo <? hi - v)
                || ((v - lo =? hi - v) && Z.even (v / unit))
             then lo else hi
        else if okLo then lo
        else if okHi then hi
        else shortest fuel (k + 1) D v
  end.

(** The digits of [s] without its trailing zeros. *)
Fixpoint significand (fuel : nat) (s : Z) : Z :=
  match fuel with
  | O => s
  | S fuel => if s mod 10 =? 0 then significand fuel (s / 10) else s
  end.

(** [Number::toString] of a positive double with an integer value: the
    decimal digits when there are at most 21 of them, the exponent form
    beyond. *)
Definition positiveToString (v : Z) : string :=
  let s := shortest 17 1 (digits v) v in
  let n := digits s in
  if n <=? 21 then pretty s
  else
    match pretty (significand 400 s) with
    | String d EmptyString => String d ("e+" ++ pretty (n - 1))
    | String d rest => String d ("." ++ rest ++ "e+" ++ pretty (n - 1))
    | EmptyString => EmptyString
    end.

(** [Number::toString] of the Number value of the integer [n].  Below
    2^53 every integer is a double and its own shortest decimal. *)
Definition toString (n : Z) : string :=
  if Z.abs n <? 2 ^ 53 then pretty n
  else
    match nearest n with
    | None => if n <? 0 then "-Infinity" else "Infinity"
    | Some v =>
        if v <? 0 then "-" ++ positiveToString (- v) else positiveToString v
    end.

(** A Number whose value, when it is finite, is an integer. *)
Inductive Number :=
| NaN
| Infinity (negative : bool)
| Finite (n : Z).

(** [x * y] for two doubles with integer values: the product rounded to
    the nearest double. *)
Definition times (x y : Z) : Number :=
  match nearest (x * y) with
  | Some v => Finite v
  | None => Infinity (x * y <? 0)
  end.

End Double.

(** A value of a JSON request body.  [JUndefined] is an absent field;
    [JNum n] is the Number value of the integer literal [n], the double
    nearest to it; [JObject] is an object that inherits its conversion
    to a primitive from [Object.prototype].  Numbers with a fraction,
    arrays, and objects with a [toString] or [valueOf] of their own are
    not among these values. *)
Inductive JsVal :=
| JUndefined
| JNull
| JBool (b : bool)
| JNum (n : Z)
| JStr (s : string)
| JObject.

#[global] Instance JsVal_eq_dec : EqDecision JsVal.
Proof. solve_decision. Defined.

(** [ToBoolean] on the values above. *)
Definition truthy (v : JsVal) : bool :=
  match v with
  | JUndefined | JNull => false
  | JBool b => b
  | JNum n => negb (n =? 0)
  | JStr s => negb (String.eqb s "")
  | JObject => true
  end.

(** [Array.prototype.includes] on an array of string literals: strict
    equality, so only a string can be found. *)
Definition includes (l : list string) (v : JsVal) : bool :=
  match v with
  | JStr s => bool_decide (s ∈ l)
  | _ => false
  end.

(** [ToString], as a template literal applies it. *)
Definition ToString (v : JsVal) : string :=
  match v with
  | JUndefined => "undefined"
  | JNull => "null"
  | JBool true => "true"
  | JBool false => "false"
  | JNum n => Double.toString n
  | JStr s => s
  | JObject => "[object Object]"
  end.

(** [String.prototype.toLowerCase] on the ASCII range.  Bytes above 127
    are kept: no character outside ASCII lowercases to a letter of
    basic, premium or advanced. *)
Definition lower_ascii (c : ascii) : ascii :=
  let n := nat_of_ascii c in
  if ((65 <=? n) && (n <=? 90))%nat then ascii_of_nat (n + 32) else c.

Fixpoint toLowerCase (s : string) : string :=
  match s with
  | EmptyString => EmptyString
  | String c r => String (lower_ascii c) (toLowerCase r)
  end.

(** ** Outcomes of a handler body *)

Inductive JsError :=
| ReferenceError
| TypeError
| ModuleNotFound
| ValidationError
| BridgeError.

#[global] Instance JsError_eq_dec : EqDecision JsError.
Proof. solve_decision. Defined.

Inductive Result (A : Type) :=
| Ret (a : A)
| Throw (e : JsError).
Arguments Ret {A} a.
Arguments Throw {A} e.

(** Reading a [const] binding: [None] is a binding that is still in its
    temporal dead zone (declared further down the block), and reading it
    throws a ReferenceError. *)
Definition readConst {A} (binding : option A) : Result A :=
  match binding with
  | Some a => Ret a
  | None => Throw ReferenceError
  end.

(** The JSON body of a response, as far as the lifecycle depends on it. *)
Record Response := mkResponse {
  httpStatus : Z;
  success : bool;
  message : string
}.

#[global] Instance Response_eq_dec : EqDecision Response.
Proof. solve_decision. Defined.

(** ** models/Appointment: the schema *)

Module AppointmentModel.

(** The nested [videoCall] paths. *)
Record VideoCall := mkVideoCall {
  roomName : option string;
  roomUrl : option string;
  isActive : bool;
  startedAt : option Z;
  endedAt : option Z;
  recordingUrl : option string
}.

(** A document of the schema.  A path that may be undefined is an
    option; [status], [paymentStatus] and [videoCall.isActive] have
    defaults. *)
Record Appointment := mkAppointment {
  user : string;
  appointmentDate : option Z;
  appointmentTime : option string;
  consultationType : option string;
  package : option string;
  amount : option Z;
  duration : option Z;
  clientQuestions : list (string * string);
  status : string;
  paymentStatus : string;
  videoCall : VideoCall;
  paymentId : option string;
  orderId : option string;
  videoRoomUrl : option string;
  videoRoomName : option string;
  notes : option string;
  rating : option Z;
  review : option string
}.

(** Every path the schema declares. *)
Definition schemaPaths : list string :=
  [ "user"; "appointmentDate"; "appointmentTime"; "consultationType";
    "package"; "amount"; "duration"; "clientQuestions"; "status";
    "paymentStatus"; "videoCall.roomName"; "videoCall.roomUrl";
    "videoCall.isActive"; "videoCall.startedAt"; "videoCall.endedAt";
    "videoCall.recordingUrl"; "paymentId"; "orderId"; "videoRoomUrl";
    "videoRoomName"; "notes"; "rating"; "review" ].

Definition packageEnum : list string := [ "basic"; "premium"; "advanced" ].
Definition statusEnum : list string :=
  [ "pending"; "confirmed"; "completed"; "cancelled" ].
Definition paymentStatusEnum : list string :=
  [ "pending"; "completed"; "failed"; "refunded" ].

Definition emptyVideoCall : VideoCall :=
  mkVideoCall None None false None None None.

(** Assignments to the paths the routes write. *)
Definition set_status (s : string) (a : Appointment) : Appointment :=
  mkAppointment (user a) (appointmentDate a) (appointmentTime a)
    (consultationType a) (package a) (amount a) (duration a)
    (clientQuestions a) s (paymentStatus a) (videoCall a) (paymentId a)
    (orderId a) (videoRoomUrl a) (videoRoomName a) (notes a) (rating a)
    (review a).

Definition set_paymentStatus (s : string) (a : Appointment) : Appointment :=
  mkAppointment (user a) (appointmentDate a) (appointmentTime a)
    (consultationType a) (package a) (amount a) (duration a)
    (clientQuestions a) (status a) s (videoCall a) (paymentId a)
    (orderId a) (videoRoomUrl a) (videoRoomName a) (notes a) (rating a)
    (review a).

Definition set_videoCall (v : VideoCall) (a : Appointment) : Appointment :=
  mkAppointment (user a) (appointmentDate a) (appointmentTime a)
    (consultationType a) (package a) (amount a) (duration a)
    (clientQuestions a) (status a) (paymentStatus a) v (paymentId a)
    (orderId a) (videoRoomUrl a) (videoRoomName a) (notes a) (rating a)
    (review a).

Definition set_isActive (b : bool) (v : VideoCall) : VideoCall :=
  mkVideoCall (roomName v) (roomUrl v) b (startedAt v) (endedAt v)
    (recordingUrl v).

Definition set_startedAt (t : Z) (v : VideoCall) : VideoCall :=
  mkVideoCall (roomName v) (roomUrl v) (isActive v) (Some t) (endedAt v)
    (recordingUrl v).

Definition set_endedAt (t : Z) (v : VideoCall) : VideoCall :=
  mkVideoCall (roomName v) (roomUrl v) (isActive v) (startedAt v) (Some t)
    (recordingUrl v).

(** The validators of the schema, run by [save]: [required] (a required
    string must also be non-empty), [enum], and [min]/[max]. *)
Definition required {A} (o : option A) : bool :=
  match o with Some _ => true | None => false end.

Definition requiredString (o : option string) : bool :=
  match o with Some s => negb (String.eqb s "") | None => false end.

Definition inEnum (l : list string) (s : string) : bool :=
  bool_decide (s ∈ l).

Definition optInEnum (l : list string) (o : option string) : bool :=
  match o with Some s => inEnum l s | None => true end.

Definition ratingInRange (o : option Z) : bool :=
  match o with Some r => (1 <=? r) && (r <=? 5) | None => true end.

Definition validateSync (a : Appointment) : bool :=
  required (appointmentDate a)
  && requiredString (appointmentTime a)
  && requiredString (consultationType a)
  && requiredString (package a) && optInEnum packageEnum (package a)
  && required (amount a)
  && required (duration a)
  && inEnum statusEnum (status a)
  && inEnum paymentStatusEnum (paymentStatus a)
  && ratingInRange (rating a).

End AppointmentModel.
Export AppointmentModel.

(** ** The record store, as the model's static and instance methods *)

Module Store.

Abbreviation Db := (gmap string Appointment).

(** [Appointment.findById(id)]: the document or [null]. *)
Definition findById (id : string) (db : Db) : option Appointment :=
  db !! id.

(** [doc.save()]: validates the document and writes it under its id; a
    document that fails a validator is not written and the call rejects
    with a ValidationError. *)
Definition save (id : string) (a : Appointment) (db : Db) : Result Db :=
  if validateSync a then Ret (<[id := a]> db) else Throw ValidationError.

(** A value of an update document: a value of the request body or a
    Date. *)
Inductive UpdateValue :=
| Json (v : JsVal)
| DateValue (t : Z).

(** The cast of an update document.  The schema is strict (the default):
    a key that is not a path of the schema is dropped from the update. *)
Definition castUpdate (upd : list (string * UpdateValue))
  : list (string * UpdateValue) :=
  filter (fun kv => kv.1 ∈ schemaPaths) upd.

(** The assignments the routes make through an update document: a
    string to [status] and to [paymentStatus].  No other path is
    assigned this way, and [setPath] covers no other. *)
Definition setPath (kv : string * UpdateValue) (a : Appointment)
  : Appointment :=
  match kv with
  | ("status", Json (JStr s)) => set_status s a
  | ("paymentStatus", Json (JStr s)) => set_paymentStatus s a
  | _ => a
  end.

Definition applyUpdate (upd : list (string * UpdateValue)) (a : Appointment)
  : Appointment :=
  fold_left (fun d kv => setPath kv d) (castUpdate upd) a.

(** [Appointment.findByIdAndUpdate(id, update)]: no validators run
    ([runValidators] is off by default); nothing is written when the id
    matches no document, and the call still resolves (with [null]). *)
Definition findByIdAndUpdate (id : string)
    (upd : list (string * UpdateValue)) (db : Db) : Db :=
  match db !! id with
  | Some a => <[id := applyUpdate upd a]> db
  | None => db
  end.

End Store.
Export Store.

(** The authenticated caller, as the auth middleware leaves it in
    [req.user]. *)
Record ReqUser := mkReqUser {
  id : string;
  role : string
}.

(** ** ECMAScript dates *)

Module JsDate.

Definition msPerDay : Z := 86400000.
Definition msPerHour : Z := 1000 * 60 * 60.
Definition msPerMinute : Z := 1000 * 60.

(** [Day(t)] and [WeekDay(t)] of the language specification: day 0 is
    Thursday 1 January 1970, and 0 is Sunday. *)
Definition Day (t : Z) : Z := t / msPerDay.
Definition WeekDay (t : Z) : Z := (Day t + 4) mod 7.

Section Host.
(** The offset of local time at a UTC time value, in milliseconds. *)
Variable LocalTZA : Z -> Z.

Definition LocalTime (t : Z) : Z := t + LocalTZA t.

(** [Date.prototype.getDay]: [None] is NaN, the answer of an invalid
    date. *)
Definition getDay (d : option Z) : option Z :=
  match d with
  | Some t => Some (WeekDay (LocalTime t))
  | None => None
  end.
End Host.

(** The calendar of the language specification: the day number of the
    first day of a year, leap years, and [MakeDay] for a year, a month
    index from 0 and a day of the month. *)
Definition DayFromYear (y : Z) : Z :=
  365 * (y - 1970) + (y - 1969) / 4 - (y - 1901) / 100 + (y - 1601) / 400.

Definition InLeapYear (y : Z) : bool :=
  (y mod 4 =? 0) && (negb (y mod 100 =? 0) || (y mod 400 =? 0)).

Definition monthStart (leap : bool) (m : Z) : Z :=
  nth (Z.to_nat m) [0; 31; 59; 90; 120; 151; 181; 212; 243; 273; 304; 334] 0
  + (if leap && (2 <=? m) then 1 else 0).

Definition MakeDay (y m d : Z) : Z :=
  DayFromYear y + monthStart (InLeapYear y) m + d - 1.

(** The time value of the date-only form YYYY-MM-DD, which is read as
    UTC: midnight at the start of that day. *)
Definition dateOnly (y m d : Z) : Z := MakeDay y (m - 1) d * msPerDay.

(** [Date.prototype.setHours(h, m, 0, 0)] on a host whose local time is
    UTC plus the constant [tz]: the local day of [t], with the time of
    day [h]:[m]. *)
Definition setHours (tz t h m : Z) : Z :=
  Day (t + tz) * msPerDay + (h * msPerHour + m * msPerMinute) - tz.

End JsDate.
Export JsDate.

(** ** Handlers: store, timers and exceptions *)

(** A pending [setTimeout]: the delay and the room the callback deletes. *)
Record Timer := mkTimer {
  delay : Z;
  deleteRoomName : option string
}.

Record World := mkWorld {
  appointments : gmap string Appointment;
  timers : list Timer
}.

(** A handler body runs on the world and either returns or throws; what
    it wrote before a throw stays written. *)
Definition Handler (A : Type) : Type := World -> Result A * World.

Definition ret {A} (a : A) : Handler A := fun w => (Ret a, w).

Definition throw {A} (e : JsError) : Handler A := fun w => (Throw e, w).

Definition bind {A B} (m : Handler A) (k : A -> Handler B) : Handler B :=
  fun w =>
    match m w with
    | (Ret a, w') => k a w'
    | (Throw e, w') => (Throw e, w')
    end.

Notation "'let*' x ':=' m 'in' k" := (bind m (fun x => k))
  (at level 10, x name, m at level 100, k at level 200).

Notation "m ';;' k" := (bind m (fun _ => k))
  (at level 100, k at level 200, right associativity).

(** [try { body } catch (error) { handler }] around a whole route. *)
Definition tryCatch {A} (body : Handler A) (handler : JsError -> A)
  : World -> A * World :=
  fun w =>
    match body w with
    | (Ret a, w') => (a, w')
    | (Throw e, w') => (handler e, w')
    end.

Definition liftResult {A} (r : Result A) : Handler A := fun w => (r, w).

Module Model.

(** [await Appointment.findById(id)]. *)
Definition findById (id : string) : Handler (option Appointment) :=
  fun w => (Ret (Store.findById id (appointments w)), w).

(** [await appointment.save()]. *)
Definition save (id : string) (a : Appointment) : Handler unit :=
  fun w =>
    match Store.save id a (appointments w) with
    | Ret db => (Ret tt, mkWorld db (timers w))
    | Throw e => (Throw e, w)
    end.

(** [await Appointment.findByIdAndUpdate(id, update)]. *)
Definition findByIdAndUpdate (id : string)
    (upd : list (string * UpdateValue)) : Handler unit :=
  fun w =>
    (Ret tt,
     mkWorld (Store.findByIdAndUpdate id upd (appointments w)) (timers w)).

(** [setTimeout(callback, delay)]. *)
Definition setTimeout (t : Timer) : Handler unit :=
  fun w => (Ret tt, mkWorld (appointments w) (timers w ++ [t])).

End Model.

(** ** routes/appointments.js *)

Module AppointmentsRoutes.

Record Slot := mkSlot {
  time : string;
  label : string
}.

Definition slots : list Slot :=
  [ mkSlot "17:00" "5:00 PM - 5:30 PM";
    mkSlot "17:30" "5:30 PM - 6:00 PM";
    mkSlot "18:00" "6:00 PM - 6:30 PM";
    mkSlot "18:30" "6:30 PM - 7:00 PM";
    mkSlot "19:00" "7:00 PM - 7:30 PM";
    mkSlot "19:30" "7:30 PM - 8:00 PM" ].

(** [req.body.package]. *)
Record PackageInfo := mkPackageInfo {
  name : JsVal;
  price : option Z;
  packageDuration : option Z
}.

(** [req.body] of the create route; a field that is absent is [None]. *)
Record CreateBody := mkCreateBody {
  bodyDate : option string;
  bodyTime : option string;
  bodyConsultationType : option string;
  bodyPackage : option PackageInfo;
  bodyClientQuestions : option (list (string * string))
}.

(** Truthiness of a body field: present and not the empty string. *)
Definition given (o : option string) : bool :=
  match o with Some s => negb (String.eqb s "") | None => false end.

Definition packageMapping : list (string * string) :=
  [ ("Basic Consultation", "basic");
    ("Premium Consultation", "premium");
    ("Advanced Consultation", "advanced");
    ("basic", "basic");
    ("premium", "premium");
    ("advanced", "advanced") ].

(** The properties every object literal inherits from
    [Object.prototype]; their values are functions or objects. *)
Definition objectPrototypeKeys : list string :=
  [ "constructor"; "hasOwnProperty"; "isPrototypeOf";
    "propertyIsEnumerable"; "toLocaleString"; "toString"; "valueOf";
    "__defineGetter__"; "__defineSetter__"; "__lookupGetter__";
    "__lookupSetter__"; "__proto__" ].

Fixpoint ownProperty (key : string) (o : list (string * string))
  : option string :=
  match o with
  | [] => None
  | (k, v) :: rest => if String.eqb k key then Some v else ownProperty key rest
  end.

(** [packageMapping[key]].  A key that is not a string is converted to
    one that is neither an own nor an inherited property. *)
Definition getPackageMapping (key : JsVal) : JsVal :=
  match key with
  | JStr k =>
      match ownProperty k packageMapping with
      | Some v => JStr v
      | None => if bool_decide (k ∈ objectPrototypeKeys) then JObject
                else JUndefined
      end
  | _ => JUndefined
  end.

(** [packageInfo.name?.toLowerCase()]. *)
Definition nameToLowerCase (name : JsVal) : Result JsVal :=
  match name with
  | JStr s => Ret (JStr (toLowerCase s))
  | JUndefined | JNull => Ret JUndefined
  | _ => Throw TypeError
  end.

(** [packageMapping[packageInfo.name] || packageInfo.name?.toLowerCase()]. *)
Definition mappedPackage (name : JsVal) : Result JsVal :=
  let m := getPackageMapping name in
  if truthy m then Ret m else nameToLowerCase name.

(** The test that guards the "Invalid package type" response. *)
Definition invalidPackage (mapped : JsVal) : bool :=
  negb (truthy mapped) || negb (includes [ "basic"; "premium"; "advanced" ] mapped).

Definition castPackage (mapped : JsVal) : option string :=
  match mapped with JStr s => Some s | _ => None end.

Section Routes.
(** The host: the Date constructor on a string ([None] is an invalid
    date) and the local time zone. *)
Variable newDate : string -> option Z.
Variable LocalTZA : Z -> Z.

(** GET /available-slots/:date *)
Definition availableSlots (date : string) : Response * list Slot :=
  let dayOfWeek := getDay LocalTZA (newDate date) in
  if bool_decide (dayOfWeek = Some 0)
  then (mkResponse 200 true "", [])
  else (mkResponse 200 true "", slots).

(** POST /.  [emailService] tells whether
    [require('../services/emailService')] resolves; [newId] is the id
    a new document would get.  The two statements copied in above the
    declaration of [appointment] read that binding inside its
    temporal dead zone, and the identifier [User] is not declared in
    the file. *)
Definition appointment_before_declaration : option Appointment := None.
Definition User_undeclared : option unit := None.

Definition createBody (emailService : bool) (newId : string)
    (reqUser : string) (body : CreateBody) : Handler Response :=
  if negb (given (bodyDate body)) || negb (given (bodyTime body))
     || negb (given (bodyConsultationType body))
     || negb (bool_decide (is_Some (bodyPackage body)))
  then ret (mkResponse 400 false "Missing required fields")
  else
    match bodyPackage body with
    | None => throw TypeError
    | Some packageInfo =>
        let* mappedPackage := liftResult (mappedPackage (name packageInfo)) in
        if invalidPackage mappedPackage
        then ret (mkResponse 400 false "Invalid package type")
        else
          (if emailService then ret tt else throw ModuleNotFound);;
          let* appointment := liftResult (readConst appointment_before_declaration) in
          Model.save newId appointment;;
          liftResult (readConst User_undeclared);;
          let appointment :=
            mkAppointment reqUser
              (from_option newDate None (bodyDate body))
              (bodyTime body) (bodyConsultationType body)
              (castPackage mappedPackage)
              (price packageInfo) (packageDuration packageInfo)
              (default [] (bodyClientQuestions body))
              "pending" "pending" emptyVideoCall
              None None None None None None None in
          Model.save newId appointment;;
          ret (mkResponse 201 true "Appointment created successfully")
    end.

Definition create (emailService : bool) (newId : string)
    (reqUser : string) (body : CreateBody) : World -> Response * World :=
  tryCatch (createBody emailService newId reqUser body)
    (fun error =>
       if bool_decide (error = ValidationError)
       then mkResponse 400 false "Validation failed"
       else mkResponse 500 false "Error creating appointment").

End Routes.

(** PUT /:id/cancel.  [hoursUntil < 2] is taken on the milliseconds:
    the quotient by 3600000 is below 2 exactly when the difference is
    below 7200000; the difference of an undefined date is NaN, which is
    not below 2. *)
Definition hoursUntilBelow2 (now : Z) (appointmentDate : option Z) : bool :=
  match appointmentDate with
  | Some appointmentDateTime =>
      let timeDiff := appointmentDateTime - now in
      timeDiff <? 2 * msPerHour
  | None => false
  end.

Definition cancelBody (now : Z) (reqUser : string) (id : string)
  : Handler Response :=
  let* found := Model.findById id in
  match found with
  | None => ret (mkResponse 404 false "Appointment not found")
  | Some appointment =>
      if negb (String.eqb (user appointment) reqUser)
      then ret (mkResponse 403 false "Not authorized to cancel this appointment")
      else if hoursUntilBelow2 now (appointmentDate appointment)
              && negb (String.eqb (status appointment) "pending")
      then ret (mkResponse 400 false
                  "Appointments can only be cancelled 2 hours before the scheduled time")
      else
        let appointment := set_status "cancelled" appointment in
        let appointment := set_paymentStatus "refunded" appointment in
        Model.save id appointment;;
        ret (mkResponse 200 true "Appointment cancelled successfully")
  end.

Definition cancel (now : Z) (reqUser : string) (id : string)
  : World -> Response * World :=
  tryCatch (cancelBody now reqUser id)
    (fun _ => mkResponse 500 false "Server error while cancelling appointment").

End AppointmentsRoutes.

(** ** routes/payments.js *)

Module PaymentsRoutes.

Record VerifyBody := mkVerifyBody {
  razorpayOrderId : JsVal;
  razorpayPaymentId : JsVal;
  razorpaySignature : JsVal;
  verifyAppointmentId : string
}.

(** POST /verify.  The caller is authenticated, and [reqUser] is not
    read; neither are the order id and the signature. *)
Definition verifyBody (now : Z) (reqUser : string) (body : VerifyBody)
  : Handler Response :=
  Model.findByIdAndUpdate (verifyAppointmentId body)
    [ ("paymentStatus", Json (JStr "completed"));
      ("status", Json (JStr "confirmed"));
      ("razorpayPaymentId", Json (razorpayPaymentId body));
      ("paidAt", DateValue now) ];;
  ret (mkResponse 200 true "Payment verified successfully").

Definition verify (now : Z) (reqUser : string) (body : VerifyBody)
  : World -> Response * World :=
  tryCatch (verifyBody now reqUser body)
    (fun _ => mkResponse 500 false "Error verifying payment").

(** POST /failed *)
Definition failedBody (reqUser : string) (appointmentId : string)
  : Handler Response :=
  Model.findByIdAndUpdate appointmentId
    [ ("paymentStatus", Json (JStr "failed"));
      ("status", Json (JStr "cancelled")) ];;
  ret (mkResponse 200 true "Payment failure recorded").

Definition failed (reqUser : string) (appointmentId : string)
  : World -> Response * World :=
  tryCatch (failedBody reqUser appointmentId)
    (fun _ => mkResponse 500 false "Error handling payment failure").

End PaymentsRoutes.

(** ** services/dailyService.js *)

Module DailyService.

(** The body of POST /rooms. *)
Record RoomConfig := mkRoomConfig {
  configName : string;
  start_video_off : bool;
  start_audio_off : bool;
  exp : option Z;
  enable_chat : bool;
  enable_screenshare : bool;
  enable_recording : string;
  max_participants : Z;
  lang : string
}.

Record RoomData := mkRoomData {
  dataRoomName : string;
  dataRoomUrl : string
}.

(** The provider's answer to POST /rooms: the [name] and [url] of
    [response.data], or [None] when the request is rejected. *)
Definition RoomsEndpoint : Type := RoomConfig -> option (string * string).

(** [createRoom(appointmentId, expiryTime = null)].  The expiry is a
    Date object when given (truthy even if invalid: its time value is
    then NaN, here [None]). *)
Definition createRoom (post : RoomsEndpoint) (now : Z)
    (appointmentId : string) (expiryTime : option (option Z))
  : Result RoomData :=
  let roomName := "consultation-" ++ appointmentId in
  let expiresAt := default (Some (now + 2 * 60 * 60 * 1000)) expiryTime in
  let roomConfig :=
    mkRoomConfig roomName false false
      ((fun t => t / 1000) <$> expiresAt)
      true true "cloud" 2 "en" in
  match post roomConfig with
  | Some (name, url) => Ret (mkRoomData name url)
  | None => Throw BridgeError
  end.

End DailyService.

(** ** routes/videoCall.js *)

Module VideoCallRoutes.

(** POST /create-room/:appointmentId *)
Definition createRoomBody (post : DailyService.RoomsEndpoint) (now : Z)
    (reqUser : ReqUser) (appointmentId : string) : Handler Response :=
  let* found := Model.findById appointmentId in
  match found with
  | None => ret (mkResponse 404 false "Appointment not found")
  | Some appointment =>
      let isAuthorized :=
        String.eqb (user appointment) (id reqUser)
        || String.eqb (role reqUser) "admin" in
      if negb isAuthorized
      then ret (mkResponse 403 false "Not authorized to access this appointment")
      else
        let roomExpiry :=
          (fun t => t + 3 * 60 * 60 * 1000) <$> appointmentDate appointment in
        let* roomData :=
          liftResult (DailyService.createRoom post now appointmentId
                        (Some roomExpiry)) in
        let appointment :=
          set_videoCall
            (mkVideoCall (Some (DailyService.dataRoomName roomData))
               (Some (DailyService.dataRoomUrl roomData))
               false None None None)
            appointment in
        Model.save appointmentId appointment;;
        ret (mkResponse 200 true "")
  end.

Definition createRoom (post : DailyService.RoomsEndpoint) (now : Z)
    (reqUser : ReqUser) (appointmentId : string)
  : World -> Response * World :=
  tryCatch (createRoomBody post now reqUser appointmentId)
    (fun _ => mkResponse 500 false "Failed to create video call room").

(** PUT /call-status/:appointmentId.  [status] is [req.body.status],
    any JSON value; the template of the success message prints it. *)
Definition callMessage (status : JsVal) : string :=
  "Call " ++ ToString status ++ " successfully".

Definition callStatusBody (now : Z) (appointmentId : string)
    (status : JsVal) : Handler Response :=
  let* found := Model.findById appointmentId in
  match found with
  | None => ret (mkResponse 404 false "Appointment not found")
  | Some appointment =>
      let* appointment :=
        if bool_decide (status = JStr "started") then
          let v := set_isActive true (videoCall appointment) in
          let v := set_startedAt now v in
          ret (set_status "in-progress" (set_videoCall v appointment))
        else if bool_decide (status = JStr "ended") then
          let v := set_isActive false (videoCall appointment) in
          let v := set_endedAt now v in
          let appointment :=
            set_status "completed" (set_videoCall v appointment) in
          Model.setTimeout
            (mkTimer (60 * 60 * 1000) (roomName (videoCall appointment)));;
          ret appointment
        else ret appointment in
      Model.save appointmentId appointment;;
      ret (mkResponse 200 true (callMessage status))
  end.

Definition callStatus (now : Z) (appointmentId : string) (status : JsVal)
  : World -> Response * World :=
  tryCatch (callStatusBody now appointmentId status)
    (fun _ => mkResponse 500 false "Failed to update call status").

End VideoCallRoutes.

(** ** routes/admin.js *)

Module AdminRoutes.

(** PUT /appointments/:id/status, behind the admin-only middleware. *)
Definition updateStatusBody (id : string) (status : JsVal)
  : Handler Response :=
  if negb (includes [ "pending"; "confirmed"; "completed"; "cancelled" ] status)
  then ret (mkResponse 400 false "Invalid status")
  else
    let* found := Model.findById id in
    match found, status with
    | None, _ => ret (mkResponse 404 false "Appointment not found")
    | Some appointment, JStr s =>
        let appointment := set_status s appointment in
        let appointment :=
          if String.eqb s "confirmed"
             && String.eqb (paymentStatus appointment) "pending"
          then set_paymentStatus "completed" appointment
          else appointment in
        Model.save id appointment;;
        ret (mkResponse 200 true ("Appointment " ++ s ++ " successfully"))
    | Some _, _ => throw TypeError (* not reached: [includes] finds strings only *)
    end.

Definition updateStatus (id : string) (status : JsVal)
  : World -> Response * World :=
  tryCatch (updateStatusBody id status)
    (fun _ => mkResponse 500 false "Error updating appointment status").

End AdminRoutes.

(** ** The operations on one appointment *)

Import AppointmentsRoutes PaymentsRoutes VideoCallRoutes AdminRoutes.

(** A request against the appointment with a given id, with what the
    host supplies to the handler (the clock, the provider's endpoint). *)
Inductive Operation :=
| OwnerCancel (now : Z) (reqUser : string)
| PaymentVerify (now : Z) (reqUser : string)
    (orderId paymentId signature : JsVal)
| PaymentFailed (reqUser : string)
| AdminOverride (status : JsVal)
| SetCallStatus (now : Z) (status : JsVal)
| CreateRoom (post : DailyService.RoomsEndpoint) (now : Z) (reqUser : ReqUser).

Definition run (op : Operation) (appointmentId : string)
  : World -> Response * World :=
  match op with
  | OwnerCancel now reqUser => cancel now reqUser appointmentId
  | PaymentVerify now reqUser orderId paymentId signature =>
      verify now reqUser
        (mkVerifyBody orderId paymentId signature appointmentId)
  | PaymentFailed reqUser => failed reqUser appointmentId
  | AdminOverride status => updateStatus appointmentId status
  | SetCallStatus now status => callStatus now appointmentId status
  | CreateRoom post now reqUser => createRoom post now reqUser appointmentId
  end.

(** A history of requests, each against the appointment it names. *)
Fixpoint runAll (history : list (Operation * string)) (w : World) : World :=
  match history with
  | [] => w
  | (op, appointmentId) :: rest => runAll rest (run op appointmentId w).2
  end.

(** ** The start of an appointment, as the notifications route has it *)

Module Notifications.

Definition isDigit (c : ascii) : bool :=
  ((48 <=? nat_of_ascii c) && (nat_of_ascii c <=? 57))%nat.

Definition digitOf (c : ascii) : Z := Z.of_nat (nat_of_ascii c) - 48.

(** [appointment.appointmentTime.split(':').map(Number)], for a slot
    of the shape HH:MM; other shapes are outside the model. *)
Definition hoursMinutes (slot : string) : option (Z * Z) :=
  match slot with
  | String a (String b (String ":" (String c (String d EmptyString)))) =>
      if isDigit a && isDigit b && isDigit c && isDigit d
      then Some (10 * digitOf a + digitOf b, 10 * digitOf c + digitOf d)
      else None
  | _ => None
  end.

(** [const appointmentTime = new Date(appointment.appointmentDate);
    appointmentTime.setHours(hours, minutes, 0, 0)]: the instant the
    consultation starts, the slot on the local day of the date. *)
Definition appointmentStart (tz : Z) (a : Appointment) : option Z :=
  d ← appointmentDate a;
  slot ← appointmentTime a;
  hm ← hoursMinutes slot;
  Some (setHours tz d hm.1 hm.2).

End Notifications.

(** ** Vocabulary of the specification *)

(** The failure kinds, as the responses that carry them. *)
Definition TooLate : Response :=
  mkResponse 400 false
    "Appointments can only be cancelled 2 hours before the scheduled time".
Definition InvalidPackage : Response :=
  mkResponse 400 false "Invalid package type".
Definition InvalidStatus : Response :=
  mkResponse 400 false "Invalid status".

(** The document stored under an id, and its fields. *)
Definition stored (id : string) (w : World) : option Appointment :=
  appointments w !! id.

Definition statusOf (id : string) (w : World) : option string :=
  status <$> stored id w.

Definition roomNameOf (id : string) (w : World) : option string :=
  stored id w ≫= fun a => roomName (videoCall a).

(** The world in which the document under [id] is replaced by [a]. *)
Definition write (id : string) (a : Appointment) (w : World) : World :=
  mkWorld (<[id := a]> (appointments w)) (timers w).

Definition terminal (s : string) : Prop :=
  s = "completed" ∨ s = "cancelled".

(** Every stored document passes the validators of the schema. *)
Definition validStore (w : World) : Prop :=
  ∀ id a, stored id w = Some a → validateSync a = true.

(** The package tier a name resolves to in the create route, [None] when
    the route answers "Invalid package type" or throws. *)
Definition resolvePackage (name : JsVal) : option string :=
  match mappedPackage name with
  | Ret mapped => if invalidPackage mapped then None else castPackage mapped
  | Throw _ => None
  end.

(** The resolution in the words of the specification: the synonym table,
    looked up without regard to case. *)
Definition resolveCaseInsensitive (name : string) : option string :=
  ownProperty (toLowerCase name)
    (map (fun kv => (toLowerCase kv.1, kv.2)) packageMapping).

(** The weekday of a calendar date, 0 for Sunday, by Sakamoto's
    method. *)
Definition weekdayOfDate (y m d : Z) : Z :=
  let y' := if m <? 3 then y - 1 else y in
  (y' + y' / 4 - y' / 100 + y' / 400
   + nth (Z.to_nat (m - 1)) [0; 3; 2; 5; 0; 3; 5; 1; 4; 6; 2; 4] 0 + d) mod 7.

(** The provider names the room as it was asked to. *)
Definition echoesName (post : DailyService.RoomsEndpoint) : Prop :=
  ∀ config name url,
    post config = Some (name, url) → name = DailyService.configName config.

(** ** The records the routes save, and their answers *)

(** The document the cancel route saves. *)
Definition cancelled (a : Appointment) : Appointment :=
  set_paymentStatus "refunded" (set_status "cancelled" a).

Definition Cancelled : Response :=
  mkResponse 200 true "Appointment cancelled successfully".

(** The document the override route saves. *)
Definition overridden (s : string) (a : Appointment) : Appointment :=
  if String.eqb s "confirmed" && String.eqb (paymentStatus a) "pending"
  then set_paymentStatus "completed" (set_status s a)
  else set_status s a.

Definition Overridden (s : string) : Response :=
  mkResponse 200 true ("Appointment " ++ s ++ " successfully").

Definition CallFailed : Response :=
  mkResponse 500 false "Failed to update call status".

(** The documents the call-status route hands to [save]. *)
Definition started (now : Z) (a : Appointment) : Appointment :=
  set_status "in-progress"
    (set_videoCall (set_startedAt now (set_isActive true (videoCall a))) a).

Definition ended (now : Z) (a : Appointment) : Appointment :=
  set_status "completed"
    (set_videoCall (set_endedAt now (set_isActive false (videoCall a))) a).

Definition teardown (a : Appointment) : Timer :=
  mkTimer (60 * 60 * 1000) (roomName (videoCall a)).

Definition Verified : Response :=
  mkResponse 200 true "Payment verified successfully".

Definition FailureRecorded : Response :=
  mkResponse 200 true "Payment failure recorded".

(** The documents the two payment routes leave in the store. *)
Definition paid (a : Appointment) : Appointment :=
  set_status "confirmed" (set_paymentStatus "completed" a).

Definition unpaid (a : Appointment) : Appointment :=
  set_status "cancelled" (set_paymentStatus "failed" a).

Definition RoomCreated : Response := mkResponse 200 true "".

Definition RoomFailed : Response :=
  mkResponse 500 false "Failed to create video call room".

(** The request the route sends for an appointment, and the document it
    saves for the provider's answer. *)
Definition roomConfigFor (appointmentId : string) (a : Appointment)
  : DailyService.RoomConfig :=
  DailyService.mkRoomConfig ("consultation-" ++ appointmentId) false false
    ((fun t => t / 1000)
       <$> ((fun t => t + 3 * 60 * 60 * 1000) <$> appointmentDate a))
    true true "cloud" 2 "en".

Definition withRoom (name url : string) (a : Appointment) : Appointment :=
  set_videoCall (mkVideoCall (Some name) (Some url) false None None None) a.

Definition mayAccess (reqUser : ReqUser) (a : Appointment) : bool :=
  String.eqb (user a) (id reqUser) || String.eqb (role reqUser) "admin".



(** The claim C2 as it is stated: no operation moves an appointment out
    of completed or cancelled. *)
Definition terminal_never_left : Prop :=
  ∀ (op : Operation) (w : World) (appointmentId : string) (A : Appointment),
    stored appointmentId w = Some A →
    terminal (status A) →
    statusOf appointmentId (run op appointmentId w).2 = Some (status A).

(** The status an operation leaves on a stored, schema-valid appointment.
    No case reads whether the current status is terminal.  The table has
    no entry ([None]) for SetCallStatus('started'). *)
Definition statusAfter (op : Operation) (a : Appointment) : option string :=
  match op with
  | OwnerCancel now reqUser =>
      if String.eqb (user a) reqUser
         && negb (hoursUntilBelow2 now (appointmentDate a)
                  && negb (String.eqb (status a) "pending"))
      then Some "cancelled" else Some (status a)
  | PaymentVerify _ _ _ _ _ => Some "confirmed"
  | PaymentFailed _ => Some "cancelled"
  | AdminOverride v =>
      match v with
      | JStr s => if bool_decide (s ∈ statusEnum) then Some s
                  else Some (status a)
      | _ => Some (status a)
      end
  | SetCallStatus _ v =>
      if bool_decide (v = JStr "started") then None
      else if bool_decide (v = JStr "ended") then Some "completed"
      else Some (status a)
  | CreateRoom _ _ _ => Some (status a)
  end.

Definition CreateFailed : Response :=
  mkResponse 500 false "Error creating appointment".

Definition MissingField : Response :=
  mkResponse 400 false "Missing required fields".

(** The fields the route requires are in the body. *)
Definition complete (body : CreateBody) : bool :=
  given (bodyDate body) && given (bodyTime body)
  && given (bodyConsultationType body)
  && bool_decide (is_Some (bodyPackage body)).

(** The minute of the day of an [HH:MM] slot time. *)
Definition digit (c : ascii) : Z := Z.of_nat (nat_of_ascii c) - 48.

Definition minuteOfDay (hhmm : string) : option Z :=
  match hhmm with
  | String a (String b (String ":" (String c (String d EmptyString)))) =>
      Some ((10 * digit a + digit b) * 60 + (10 * digit c + digit d))
  | _ => None
  end.

(** ** Sample data *)

Module Samples.

Definition booking (owner : string) (date : Z) (st pay : string)
  : Appointment :=
  mkAppointment owner (Some date) (Some "17:00") (Some "career")
    (Some "basic") (Some 500) (Some 30) [] st pay emptyVideoCall
    None None None None None None None.

Definition world (a : Appointment) : World :=
  mkWorld {[ "a1" := a ]} [].

(** Noon UTC on Monday 8 January 2024. *)
Definition noon : Z := 1704715200000.

Definition hours (n : Z) : Z := n * msPerHour.

Definition request : CreateBody :=
  mkCreateBody (Some "2024-01-08") (Some "17:00") (Some "career")
    (Some (mkPackageInfo (JStr "Premium Consultation") (Some 999) (Some 45)))
    None.

Definition parseDate (s : string) : option Z :=
  if String.eqb s "2024-01-07" then Some 1704585600000
  else if String.eqb s "2024-01-08" then Some 1704672000000
  else None.

Definition utc (t : Z) : Z := 0.

Definition echo (base : string) : DailyService.RoomsEndpoint :=
  fun config =>
    Some (DailyService.configName config,
          base ++ DailyService.configName config).

End Samples.

(** * The rest of the routes and their middleware *)

(** ** routes/appointments.js: the review route *)

Module ReviewRoute.

Definition set_rating (r : Z) (a : Appointment) : Appointment :=
  mkAppointment (user a) (appointmentDate a) (appointmentTime a)
    (consultationType a) (package a) (amount a) (duration a)
    (clientQuestions a) (status a) (paymentStatus a) (videoCall a)
    (paymentId a) (orderId a) (videoRoomUrl a) (videoRoomName a) (notes a)
    (Some r) (review a).

Definition set_review (s : string) (a : Appointment) : Appointment :=
  mkAppointment (user a) (appointmentDate a) (appointmentTime a)
    (consultationType a) (package a) (amount a) (duration a)
    (clientQuestions a) (status a) (paymentStatus a) (videoCall a)
    (paymentId a) (orderId a) (videoRoomUrl a) (videoRoomName a) (notes a)
    (rating a) (Some s).

(** [!rating || rating < 1 || rating > 5], for a rating that is absent
    ([None]) or an integer number. *)
Definition invalidRating (rating : option Z) : bool :=
  match rating with
  | None => true
  | Some r => (r =? 0) || (r <? 1) || (5 <? r)
  end.

(** POST /:id/review.  [rating] and [review] are the fields of the body;
    [review || ''] is the empty string for an absent review. *)
Definition reviewBody (reqUser : string) (appointmentId : string)
    (rating : option Z) (review : option string) : Handler Response :=
  match rating with
  | Some r =>
      if invalidRating rating
      then ret (mkResponse 400 false "Rating must be between 1 and 5")
      else
        let* found := Model.findById appointmentId in
        match found with
        | None => ret (mkResponse 404 false "Appointment not found")
        | Some appointment =>
            if negb (String.eqb (user appointment) reqUser)
            then ret (mkResponse 403 false
                        "Not authorized to review this appointment")
            else if negb (String.eqb (status appointment) "completed")
            then ret (mkResponse 400 false
                        "Can only review completed appointments")
            else
              let appointment := set_rating r appointment in
              let appointment := set_review (default "" review) appointment in
              Model.save appointmentId appointment;;
              ret (mkResponse 200 true "Review submitted successfully")
        end
  | None => ret (mkResponse 400 false "Rating must be between 1 and 5")
  end.

Definition review (reqUser : string) (appointmentId : string)
    (rating : option Z) (review : option string)
  : World -> Response * World :=
  tryCatch (reviewBody reqUser appointmentId rating review)
    (fun _ => mkResponse 500 false "Server error while submitting review").

End ReviewRoute.

(** ** services/dailyService.js and routes/videoCall.js: meeting tokens *)

Module MeetingToken.

(** The [properties] of the body of POST /meeting-tokens. *)
Record TokenConfig := mkTokenConfig {
  room_name : string;
  user_name : string;
  is_owner : bool;
  token_start_video_off : bool;
  token_start_audio_off : bool;
  token_enable_recording : bool
}.

(** The provider's answer to POST /meeting-tokens: the token, or [None]
    when the request is rejected. *)
Definition TokensEndpoint : Type := TokenConfig -> option string.

(** [createMeetingToken(roomName, userId, userRole = 'participant')]. *)
Definition createMeetingToken (post : TokensEndpoint) (roomName userId : string)
    (userRole : string) : Result string :=
  let tokenConfig :=
    mkTokenConfig roomName userId (String.eqb userRole "admin") false false
      (String.eqb userRole "admin") in
  match post tokenConfig with
  | Some token => Ret token
  | None => Throw BridgeError
  end.

(** [req.user] as the token route reads it. *)
Record Caller := mkCaller {
  account : ReqUser;
  firstName : string;
  lastName : string
}.

(** The [data] of the token route's answer. *)
Record TokenData := mkTokenData {
  token : string;
  tokenRoomUrl : option string;
  tokenRoomName : string;
  userRole : string
}.

Definition RoomNotFound : Response :=
  mkResponse 404 false "Video call room not found".

(** GET /meeting-token/:appointmentId.  [ownerFound] tells whether
    [populate('user')] finds the owner's document; when it does not,
    [appointment.user] is null and reading [_id] of it throws. *)
Definition meetingTokenBody (post : TokensEndpoint) (ownerFound : bool)
    (caller : Caller) (appointmentId : string)
  : Handler (Response * option TokenData) :=
  let* found := Model.findById appointmentId in
  match found with
  | None => ret (RoomNotFound, None)
  | Some appointment =>
      match roomName (videoCall appointment) with
      | None => ret (RoomNotFound, None)
      | Some name =>
          if String.eqb name "" then ret (RoomNotFound, None)
          else if negb ownerFound then throw TypeError
          else
            let isAuthorized :=
              String.eqb (user appointment) (id (account caller))
              || String.eqb (role (account caller)) "admin" in
            if negb isAuthorized
            then ret (mkResponse 403 false "Not authorized", None)
            else
              let userRole :=
                if String.eqb (role (account caller)) "admin"
                then "admin" else "participant" in
              let userName := firstName caller ++ " " ++ lastName caller in
              let* meetingToken :=
                liftResult (createMeetingToken post name userName userRole) in
              ret (mkResponse 200 true "",
                   Some (mkTokenData meetingToken
                           (roomUrl (videoCall appointment)) name userRole))
      end
  end.

Definition meetingToken (post : TokensEndpoint) (ownerFound : bool)
    (caller : Caller) (appointmentId : string)
  : World -> (Response * option TokenData) * World :=
  tryCatch (meetingTokenBody post ownerFound caller appointmentId)
    (fun _ => (mkResponse 500 false "Failed to generate meeting token", None)).

End MeetingToken.

(** ** routes/payments.js: the order route *)

Module PaymentOrder.

Record Order := mkOrder {
  orderIdOf : string;
  orderAmount : Double.Number;
  currency : string;
  receipt : string
}.

(** The document with the string [value] at the String path [name] of
    its top level, for the eleven such paths of the schema; for any
    other [name] the fields are as they were. *)
Definition setString (name value : string) (a : Appointment) : Appointment :=
  let opt (path : string) (old : option string) :=
    if String.eqb name path then Some value else old in
  let str (path : string) (old : string) :=
    if String.eqb name path then value else old in
  mkAppointment (user a) (appointmentDate a)
    (opt "appointmentTime" (appointmentTime a))
    (opt "consultationType" (consultationType a))
    (opt "package" (package a)) (amount a) (duration a) (clientQuestions a)
    (str "status" (status a)) (str "paymentStatus" (paymentStatus a))
    (videoCall a) (opt "paymentId" (paymentId a)) (opt "orderId" (orderId a))
    (opt "videoRoomUrl" (videoRoomUrl a))
    (opt "videoRoomName" (videoRoomName a)) (opt "notes" (notes a))
    (rating a) (opt "review" (review a)).

(** [appointment.<name> = value] on a loaded document, for a string
    value.  A path of the schema has a setter, which stores the value in
    the document; any other name only becomes a property of the
    JavaScript object, which is no part of the document that [save]
    writes.  (A string assigned to a path of another type would be cast
    to that type; no route does so, and such paths are left as they
    were.) *)
Definition assign (name value : string) (a : Appointment) : Appointment :=
  if bool_decide (name ∈ schemaPaths) then setString name value a else a.

(** POST /create-order.  [appointment.amount * 100] is the product of
    two Numbers, NaN for a record without amount. *)
Definition createOrderBody (now : Z) (reqUser : string)
    (appointmentId : string) : Handler (Response * option Order) :=
  let* found := Model.findById appointmentId in
  match found with
  | None => ret (mkResponse 404 false "Appointment not found", None)
  | Some appointment =>
      if negb (String.eqb (user appointment) reqUser)
      then ret (mkResponse 403 false "Not authorized", None)
      else
        let mockOrder :=
          mkOrder ("order_" ++ Double.toString now)
            match amount appointment with
            | Some a => Double.times a 100
            | None => Double.NaN
            end
            "INR" ("appointment_" ++ appointmentId) in
        let appointment :=
          assign "razorpayOrderId" (orderIdOf mockOrder) appointment in
        Model.save appointmentId appointment;;
        ret (mkResponse 200 true "", Some mockOrder)
  end.

Definition createOrder (now : Z) (reqUser : string) (appointmentId : string)
  : World -> (Response * option Order) * World :=
  tryCatch (createOrderBody now reqUser appointmentId)
    (fun _ => (mkResponse 500 false "Error creating payment order", None)).

End PaymentOrder.

(** ** middleware/auth.js, and the inline [authenticate] of the
    appointment and payment routes *)

Module AuthMiddleware.

(** [s.split(sep)] for a separator of one character. *)
Fixpoint split (sep : ascii) (s : string) : list string :=
  match s with
  | EmptyString => [EmptyString]
  | String c r =>
      if Ascii.eqb c sep then EmptyString :: split sep r
      else match split sep r with
           | h :: t => String c h :: t
           | [] => [String c EmptyString]
           end
  end.

(** What follows [p] in [s] when [s] starts with [p]. *)
Fixpoint dropPrefix (p s : string) : option string :=
  match p, s with
  | EmptyString, _ => Some s
  | String a p', String b s' =>
      if Ascii.eqb a b then dropPrefix p' s' else None
  | String _ _, EmptyString => None
  end.

(** [s.replace(p, '')] for a string pattern: the first occurrence of [p]
    is removed. *)
Fixpoint replaceFirst (p s : string) : string :=
  match dropPrefix p s with
  | Some rest => rest
  | None =>
      match s with
      | EmptyString => EmptyString
      | String c r => String c (replaceFirst p r)
      end
  end.

(** The user document [auth] loads, as far as the middleware and the
    routes read it. *)
Record Account := mkAccount {
  reqUser : ReqUser;
  isActive : bool
}.

(** The token [auth] and [optionalAuth] take from the Authorization
    header: [header.split(' ')[1]] when the header starts with "Bearer". *)
Definition bearerToken (authorization : option string) : option string :=
  match authorization with
  | Some header =>
      if negb (String.eqb header "") && String.prefix "Bearer" header
      then split " " header !! 1%nat
      else None
  | None => None
  end.

(** The token the inline [authenticate] takes:
    [req.header('Authorization')?.replace('Bearer ', '')]. *)
Definition headerToken (authorization : option string) : option string :=
  replaceFirst "Bearer " <$> authorization.

Definition NoToken : Response :=
  mkResponse 401 false "Access denied. No token provided.".
Definition InvalidToken : Response := mkResponse 401 false "Invalid token".
Definition AdminRequired : Response :=
  mkResponse 403 false "Access denied. Admin privileges required.".
Definition ClientRequired : Response :=
  mkResponse 403 false "Access denied. Client privileges required.".

Section Middleware.
(** [jwt.verify(token, secret)]: the [id] of the decoded payload, [None]
    when it throws; and [User.findById]. *)
Variable jwtVerify : string -> option string.
Variable findUser : string -> option Account.

(** [auth]: the response it sends, or the user it leaves in [req.user]. *)
Definition auth (authorization : option string) : Response + Account :=
  match bearerToken authorization with
  | None => inl NoToken
  | Some token =>
      if String.eqb token "" then inl NoToken
      else match jwtVerify token with
           | None => inl InvalidToken
           | Some decodedId =>
               match findUser decodedId with
               | None =>
                   inl (mkResponse 401 false "Token is valid but user not found")
               | Some user =>
                   if negb (isActive user)
                   then inl (mkResponse 401 false "User account is deactivated")
                   else inr user
               end
           end
  end.

(** The inline [authenticate]: the response it sends, or the id it
    leaves in [req.user]. *)
Definition authenticate (authorization : option string) : Response + string :=
  match headerToken authorization with
  | None => inl (mkResponse 401 false "No token provided")
  | Some token =>
      if String.eqb token "" then inl (mkResponse 401 false "No token provided")
      else match jwtVerify token with
           | None => inl InvalidToken
           | Some decodedId => inr decodedId
           end
  end.

(** [adminOnly] and [clientOnly]: the response they send, [None] when
    they call [next]. *)
Definition adminOnly (user : option ReqUser) : option Response :=
  match user with
  | Some u => if String.eqb (role u) "admin" then None else Some AdminRequired
  | None => Some AdminRequired
  end.

Definition clientOnly (user : option ReqUser) : option Response :=
  match user with
  | Some u => if String.eqb (role u) "client" then None else Some ClientRequired
  | None => Some ClientRequired
  end.

(** PUT /api/admin/appointments/:id/status as the server mounts it:
    [auth] on the mount, [auth] and [adminOnly] on the router, then the
    route. *)
Definition adminStatusRoute (authorization : option string)
    (appointmentId : string) (status : JsVal) : World -> Response * World :=
  fun w =>
    match auth authorization with
    | inl r => (r, w)
    | inr _ =>
        match auth authorization with
        | inl r => (r, w)
        | inr user =>
            match adminOnly (Some (reqUser user)) with
            | Some r => (r, w)
            | None => updateStatus appointmentId status w
            end
        end
    end.

(** PUT /api/appointments/:id/cancel as the server mounts it: the inline
    [authenticate], then the route. *)
Definition cancelRoute (authorization : option string) (now : Z)
    (appointmentId : string) : World -> Response * World :=
  fun w =>
    match authenticate authorization with
    | inl r => (r, w)
    | inr decodedId => cancel now decodedId appointmentId w
    end.

(** POST /api/payments/verify as the server mounts it: [auth] on the
    mount, the inline [authenticate] on the route, then the route. *)
Definition verifyRoute (authorization : option string) (now : Z)
    (body : VerifyBody) : World -> Response * World :=
  fun w =>
    match auth authorization with
    | inl r => (r, w)
    | inr _ =>
        match authenticate authorization with
        | inl r => (r, w)
        | inr decodedId => verify now decodedId body w
        end
    end.

End Middleware.

End AuthMiddleware.

(** ** middleware/errorHandler.js *)

Module ErrorHandler.

(** The error object, as far as the handler reads it: [keyValue] holds
    the keys of [err.keyValue], [errors] the messages of the values of
    [err.errors], [gatewayCode] the value of [err.error && err.error.code]
    ([JUndefined] without [err.error]); [statusCode] is an own property
    of the error, which the spread copies. *)
Record Err := mkErr {
  errName : string;
  errCode : JsVal;
  keyValue : option (list string);
  errors : option (list string);
  gatewayCode : JsVal;
  statusCode : option Z;
  errMessage : option string
}.

(** The local [error]: its [statusCode] and [message]. *)
Definition Answer : Type := option Z * option string.

Definition andThen {A B} (r : Result A) (k : A -> Result B) : Result B :=
  match r with
  | Ret a => k a
  | Throw e => Throw e
  end.

Definition duplicateKey (err : Err) (error : Answer) : Result Answer :=
  if bool_decide (errCode err = JNum 11000) then
    match keyValue err with
    | None => Throw TypeError
    | Some keys =>
        let field := head keys in
        let message :=
          if bool_decide (field = Some "email")
          then "Email address already registered"
          else if bool_decide (field = Some "phone")
          then "Phone number already registered"
          else "Duplicate field value entered" in
        Ret (Some 400, Some message)
    end
  else Ret error.

Definition validationError (err : Err) (error : Answer) : Result Answer :=
  if String.eqb (errName err) "ValidationError" then
    match errors err with
    | None => Throw TypeError
    | Some messages => Ret (Some 400, Some (String.concat ", " messages))
    end
  else Ret error.

Definition gatewayMessage (code : JsVal) : string :=
  if bool_decide (code = JStr "BAD_REQUEST_ERROR") then "Invalid payment request"
  else if bool_decide (code = JStr "GATEWAY_ERROR") then "Payment gateway error"
  else if bool_decide (code = JStr "SERVER_ERROR") then "Payment server error"
  else "Payment processing error".

(** [errorHandler(err, req, res, next)]: the rules run in the order of
    the file, each overwriting [error]; reading the keys of an absent
    [keyValue], or the values of absent [errors], throws.  The [stack]
    that the development answer adds is left out of the response. *)
Definition errorHandler (err : Err) : Result Response :=
  let error : Answer := (statusCode err, errMessage err) in
  let error :=
    if String.eqb (errName err) "CastError"
    then (Some 400, Some "Invalid ID format") else error in
  andThen (duplicateKey err error) (fun error =>
  andThen (validationError err error) (fun error =>
  let error :=
    if String.eqb (errName err) "JsonWebTokenError"
    then (Some 401, Some "Invalid token") else error in
  let error :=
    if String.eqb (errName err) "TokenExpiredError"
    then (Some 401, Some "Token expired") else error in
  let error :=
    if bool_decide (errCode err = JStr "LIMIT_FILE_SIZE")
    then (Some 400, Some "File too large") else error in
  let error :=
    if truthy (gatewayCode err)
    then (Some 400, Some (gatewayMessage (gatewayCode err))) else error in
  let status :=
    match error.1 with
    | Some c => if c =? 0 then 500 else c
    | None => 500
    end in
  let message :=
    match error.2 with
    | Some m => if String.eqb m "" then "Server Error" else m
    | None => "Server Error"
    end in
  Ret (mkResponse status false message))).

End ErrorHandler.

(** ** The appointment listings of routes/admin.js and of the user
    routes *)

Module Listings.

(** A document with its [_id]. *)
Definition Doc : Type := string * Appointment.

(** [parseInt(q, 10) || d], on what [parseInt] returns for the query
    parameter: [None] is NaN (also for an absent parameter).  A negative
    number is outside the model. *)
Definition orDefault (parsed : option nat) (d : nat) : nat :=
  match parsed with
  | Some O => d
  | Some n => n
  | None => d
  end.

(** [parseInt(q, 10) || d] on the integers, [None] being NaN.  Zero is
    falsy and gives the default; a negative number is truthy and is
    taken as it is. *)
Definition parameter (parsed : option Z) (d : Z) : Z :=
  match parsed with
  | Some n => if n =? 0 then d else n
  | None => d
  end.

(** A parameter that is absent, not a number, or not negative, as
    [orDefault] takes it. *)
Definition natural (parsed : option Z) : option nat := Z.to_nat <$> parsed.

Record Query := mkQuery {
  queryUser : option string;
  queryStatus : option string
}.

(** The query object: the owner, when the route fixes one, and the
    status, [if (status && status !== 'all')]. *)
Definition buildQuery (owner : option string) (status : option string)
  : Query :=
  mkQuery owner
    match status with
    | Some s => if String.eqb s "" || String.eqb s "all" then None else Some s
    | None => None
    end.

Definition matches (q : Query) (d : Doc) : bool :=
  match queryUser q with
  | Some u => String.eqb (user d.2) u
  | None => true
  end
  && match queryStatus q with
     | Some s => String.eqb (status d.2) s
     | None => true
     end.

(** The order of the sort keys: an absent value sorts below every
    value; times are compared as strings. *)
Definition dateLe (x y : option Z) : bool :=
  match x, y with
  | None, _ => true
  | Some _, None => false
  | Some a, Some b => a <=? b
  end.

Definition timeLe (x y : option string) : bool :=
  match x, y with
  | None, _ => true
  | Some _, None => false
  | Some a, Some b => String.leb a b
  end.

Definition keyLe (a b : Doc) : bool :=
  if bool_decide (appointmentDate a.2 = appointmentDate b.2)
  then timeLe (appointmentTime a.2) (appointmentTime b.2)
  else dateLe (appointmentDate a.2) (appointmentDate b.2).

(** [sort({ appointmentDate: -1, appointmentTime: -1 })]: [a] may stand
    before [b]. *)
Definition newerFirst (a b : Doc) : Prop := keyLe b a = true.

#[global] Instance newerFirst_dec (a b : Doc) : Decision (newerFirst a b).
Proof. unfold newerFirst. apply _. Defined.

(** [Appointment.countDocuments(query)]. *)
Definition countDocuments (q : Query) (db : gmap string Appointment) : nat :=
  length (filter (fun d => matches q d = true) (map_to_list db)).

(** [Appointment.find(query).sort(...)]: the matching documents in the
    order of the sort.  The database fixes no order among documents with
    equal keys; here it is the one the merge sort leaves. *)
Definition find (q : Query) (db : gmap string Appointment) : list Doc :=
  merge_sort newerFirst
    (filter (fun d => matches q d = true) (map_to_list db)).

(** What the database may answer to [find(query).sort(...)]: the
    matching documents in an order of the sort.  Which of two documents
    with the same date and the same time comes first is the database's
    choice, and it may differ from one query to the next. *)
Definition mayReturn (q : Query) (db : gmap string Appointment)
    (l : list Doc) : Prop :=
  Sorted newerFirst l
  ∧ l ≡ₚ filter (fun d => matches q d = true) (map_to_list db).

(** [.skip((page - 1) * limit).limit(limit)]. *)
Definition pageOf (limit page : nat) (l : list Doc) : list Doc :=
  take limit (drop ((page - 1) * limit) l).

(** No two of the matching documents have the same date and the same
    time. *)
Definition distinctKeys (q : Query) (db : gmap string Appointment) : Prop :=
  ∀ a b : Doc,
    a ∈ filter (fun d => matches q d = true) (map_to_list db) →
    b ∈ filter (fun d => matches q d = true) (map_to_list db) →
    appointmentDate a.2 = appointmentDate b.2 →
    appointmentTime a.2 = appointmentTime b.2 →
    a = b.

(** [Math.ceil(total / limit)], for a limit that is not 0. *)
Definition ceilDiv (total limit : nat) : nat :=
  ((total + limit - 1) / limit)%nat.

Record Listing := mkListing {
  count : nat;
  page : nat;
  limit : nat;
  total : nat;
  pages : nat;
  docs : list Doc
}.

(** The body the two listing routes share: [owner] is the user the query
    is fixed to, [defaultLimit] the limit of a request without one. *)
Definition listing (owner : option string) (defaultLimit : nat)
    (queryPage queryLimit : option nat) (status : option string)
    (db : gmap string Appointment) : Listing :=
  let page := orDefault queryPage 1 in
  let limit := orDefault queryLimit defaultLimit in
  let startIndex := ((page - 1) * limit)%nat in
  let query := buildQuery owner status in
  let total := countDocuments query db in
  let appointments := take limit (drop startIndex (find query db)) in
  mkListing (length appointments) page limit total (ceilDiv total limit)
    appointments.

(** GET /api/admin/appointments *)
Definition adminAppointments (queryPage queryLimit : option nat)
    (status : option string) (w : World) : Response * Listing :=
  (mkResponse 200 true "",
   listing None 50 queryPage queryLimit status (appointments w)).

(** GET /api/user/appointments *)
Definition userAppointments (reqUser : string)
    (queryPage queryLimit : option nat) (status : option string) (w : World)
  : Response * Listing :=
  (mkResponse 200 true "",
   listing (Some reqUser) 10 queryPage queryLimit status (appointments w)).

End Listings.

(** ** The account deletion of the user routes *)

Module AccountDeletion.

Definition set_notes (s : string) (a : Appointment) : Appointment :=
  mkAppointment (user a) (appointmentDate a) (appointmentTime a)
    (consultationType a) (package a) (amount a) (duration a)
    (clientQuestions a) (status a) (paymentStatus a) (videoCall a)
    (paymentId a) (orderId a) (videoRoomUrl a) (videoRoomName a) (Some s)
    (rating a) (review a).

(** What the route does with the request: it sends a response, or hands
    an error to the error handler with [next(error)]. *)
Inductive Outcome :=
| Sent (r : Response)
| Next.

(** The filter [{ user, appointmentDate: { $gte: now }, status:
    'confirmed' }]. *)
Definition upcomingConfirmed (now : Z) (userId : string) (a : Appointment)
  : bool :=
  String.eqb (user a) userId
  && match appointmentDate a with Some t => now <=? t | None => false end
  && String.eqb (status a) "confirmed".

(** The filter [{ user, status: 'pending' }]. *)
Definition pendingOf (userId : string) (a : Appointment) : bool :=
  String.eqb (user a) userId && String.eqb (status a) "pending".

(** The update [{ status: 'cancelled', notes: 'Cancelled due to account
    deletion' }]; both keys are paths of the schema. *)
Definition cancelForDeletion (a : Appointment) : Appointment :=
  set_notes "Cancelled due to account deletion" (set_status "cancelled" a).

(** [Appointment.countDocuments(filter)] and
    [Appointment.updateMany(filter, update)]. *)
Definition countDocuments (p : Appointment -> bool)
    (db : gmap string Appointment) : nat :=
  length (filter (fun d => p d.2 = true) (map_to_list db)).

Definition updateMany (p : Appointment -> bool)
    (update : Appointment -> Appointment) (db : gmap string Appointment)
  : gmap string Appointment :=
  (fun a => if p a then update a else a) <$> db.

Definition blockedMessage (n : nat) : string :=
  "Cannot delete account with " ++ pretty n
  ++ " upcoming confirmed appointment" ++ (if (1 <? n)%nat then "s" else "")
  ++ ". Please cancel them first.".

(** DELETE /api/user/account, after [clientOnly].  [password] is the
    field of the body; [userFound] tells whether the caller's document is
    found, [passwordCorrect] what [comparePassword] answers and
    [userSaved] whether the final [user.save()] succeeds. *)
Definition deleteAccount (password : option string)
    (userFound passwordCorrect userSaved : bool) (now : Z) (reqUser : string)
    (w : World) : Outcome * World :=
  if negb (given password)
  then (Sent (mkResponse 400 false "Password is required to delete account"), w)
  else if negb userFound
  then (Sent (mkResponse 404 false "User not found"), w)
  else if negb passwordCorrect
  then (Sent (mkResponse 401 false "Incorrect password"), w)
  else
    let upcomingAppointments :=
      countDocuments (upcomingConfirmed now reqUser) (appointments w) in
    if (0 <? upcomingAppointments)%nat
    then (Sent (mkResponse 400 false (blockedMessage upcomingAppointments)), w)
    else
      let w' :=
        mkWorld (updateMany (pendingOf reqUser) cancelForDeletion
                   (appointments w)) (timers w) in
      if userSaved
      then (Sent (mkResponse 200 true "Account deleted successfully"), w')
      else (Next, w').

End AccountDeletion.

(** ** Vocabulary for the middleware *)

(** The character occurs in the string. *)
Fixpoint contains (c : ascii) (s : string) : bool :=
  match s with
  | EmptyString => false
  | String d r => Ascii.eqb d c || contains c r
  end.

(** The error carries what the rule that matches it reads. *)
Definition wellFormed (err : ErrorHandler.Err) : Prop :=
  (ErrorHandler.errCode err = JNum 11000 →
   is_Some (ErrorHandler.keyValue err))
  ∧ (ErrorHandler.errName err = "ValidationError" →
     is_Some (ErrorHandler.errors err)).

(** The message for a duplicate key, by the first key of [keyValue]. *)
Definition duplicateMessage (keys : list string) : string :=
  if bool_decide (head keys = Some "email")
  then "Email address already registered"
  else if bool_decide (head keys = Some "phone")
  then "Phone number already registered"
  else "Duplicate field value entered".

(** The rules of the error handler in order of precedence, the last of
    the file first; [None] when no rule matches. *)
Definition ruleAnswer (err : ErrorHandler.Err) : option (Z * string) :=
  if truthy (ErrorHandler.gatewayCode err)
  then Some (400, ErrorHandler.gatewayMessage (ErrorHandler.gatewayCode err))
  else if bool_decide (ErrorHandler.errCode err = JStr "LIMIT_FILE_SIZE")
  then Some (400, "File too large")
  else if String.eqb (ErrorHandler.errName err) "TokenExpiredError"
  then Some (401, "Token expired")
  else if String.eqb (ErrorHandler.errName err) "JsonWebTokenError"
  then Some (401, "Invalid token")
  else if String.eqb (ErrorHandler.errName err) "ValidationError"
  then Some (400, String.concat ", " (default [] (ErrorHandler.errors err)))
  else if bool_decide (ErrorHandler.errCode err = JNum 11000)
  then Some (400, duplicateMessage (default [] (ErrorHandler.keyValue err)))
  else if String.eqb (ErrorHandler.errName err) "CastError"
  then Some (400, "Invalid ID format")
  else None.

(** [statusCode || 500] and [message || 'Server Error']. *)
Definition statusOr500 (c : option Z) : Z :=
  match c with
  | Some c => if c =? 0 then 500 else c
  | None => 500
  end.

Definition messageOrDefault (m : option string) : string :=
  match m with
  | Some m => if String.eqb m "" then "Server Error" else m
  | None => "Server Error"
  end.

(** * Properties *)

(** Membership of a literal in a literal list, by evaluation. *)
Ltac in_enum := apply (bool_decide_unpack _); vm_compute; exact I.

(** ** The schema validators *)

Lemma validateSync_fields (a b : Appointment) :
  appointmentDate b = appointmentDate a →
  appointmentTime b = appointmentTime a →
  consultationType b = consultationType a →
  package b = package a →
  amount b = amount a →
  duration b = duration a →
  rating b = rating a →
  inEnum statusEnum (status b) = true →
  inEnum paymentStatusEnum (paymentStatus b) = true →
  validateSync a = true →
  validateSync b = true.
Proof.
  unfold validateSync.
  intros -> -> -> -> -> -> -> Hs Hp Ha.
  rewrite !andb_true_iff in *. tauto.
Qed.

Lemma validateSync_status (a : Appointment) :
  validateSync a = true → inEnum statusEnum (status a) = true.
Proof. unfold validateSync. rewrite !andb_true_iff. tauto. Qed.

Lemma validateSync_paymentStatus (a : Appointment) :
  validateSync a = true → inEnum paymentStatusEnum (paymentStatus a) = true.
Proof. unfold validateSync. rewrite !andb_true_iff. tauto. Qed.

(** A status outside the enum fails the schema whatever else the
    document holds. *)
Lemma validateSync_bad_status (a : Appointment) (s : string) :
  inEnum statusEnum s = false → validateSync (set_status s a) = false.
Proof.
  intros H. unfold validateSync. simpl. rewrite H.
  rewrite !andb_false_r. simpl. now rewrite ?andb_false_r.
Qed.

Lemma write_same (id : string) (a : Appointment) (w : World) :
  stored id w = Some a → write id a w = w.
Proof.
  unfold stored, write. intros H. destruct w as [db ts]. simpl in *.
  f_equal. by apply insert_id.
Qed.

Lemma stored_write (id : string) (a : Appointment) (w : World) :
  stored id (write id a w) = Some a.
Proof. unfold stored, write. simpl. apply lookup_insert_eq. Qed.

(** ** Saving *)

Lemma save_valid (id : string) (a : Appointment) (w : World) :
  validateSync a = true → Model.save id a w = (Ret tt, write id a w).
Proof. intros H. unfold Model.save, Store.save. by rewrite H. Qed.

Lemma save_invalid (id : string) (a : Appointment) (w : World) :
  validateSync a = false → Model.save id a w = (Throw ValidationError, w).
Proof. intros H. unfold Model.save, Store.save. by rewrite H. Qed.

(** ** Cancel *)

Lemma cancelled_valid (a : Appointment) :
  validateSync a = true → validateSync (cancelled a) = true.
Proof. apply validateSync_fields; reflexivity. Qed.

(** What the cancel route does for the owner of a stored appointment. *)
Lemma cancel_owner (w : World) (appointmentId U : string) (A : Appointment) (now : Z) :
  stored appointmentId w = Some A →
  user A = U →
  cancel now U appointmentId w =
    if hoursUntilBelow2 now (appointmentDate A)
       && negb (String.eqb (status A) "pending")
    then (TooLate, w)
    else if validateSync (cancelled A)
    then (Cancelled, write appointmentId (cancelled A) w)
    else (mkResponse 500 false "Server error while cancelling appointment", w).
Proof.
  intros Hst HU.
  unfold cancel, tryCatch, cancelBody, bind, Model.findById, Store.findById.
  unfold stored in Hst. rewrite Hst, HU, String.eqb_refl. simpl.
  destruct (hoursUntilBelow2 now (appointmentDate A) && _); [reflexivity|].
  fold (cancelled A).
  destruct (validateSync (cancelled A)) eqn:Hv.
  - by rewrite (save_valid _ _ _ Hv).
  - by rewrite (save_invalid _ _ _ Hv).
Qed.

(** C1.  The cancel route measures the two hours from [appointmentDate]
    alone and never reads the slot in [appointmentTime].  For the owner
    of a stored appointment it answers TooLate exactly when
    [appointmentDate] is less than two hours after now and the status is
    not pending, and then writes nothing; otherwise it stores status
    cancelled and paymentStatus refunded.  With the start of the
    consultation taken as the notifications route takes it, the slot on
    the day of the date, a booking that is not pending is refused
    although two hours or more remain before its start whenever the
    date itself is less than two hours away, and is cancelled although
    fewer than two hours remain whenever the date itself is two hours or
    more away.  The two agree when the date carries the time of the
    slot. *)
Theorem cancel_too_late_by_date_alone
    (tz : Z) (w : World) (appointmentId U : string) (A : Appointment)
    (now d start : Z) :
  stored appointmentId w = Some A →
  user A = U →
  appointmentDate A = Some d →
  Notifications.appointmentStart tz A = Some start →
  let r := cancel now U appointmentId w in
  (r.1 = TooLate ↔ d - now < 2 * msPerHour ∧ status A ≠ "pending")
  ∧ (r.1 = TooLate → r.2 = w)
  ∧ (status A ≠ "pending" →
     d - now < 2 * msPerHour → 2 * msPerHour ≤ start - now →
     r = (TooLate, w))
  ∧ (start - now < 2 * msPerHour → 2 * msPerHour ≤ d - now →
     r.1 ≠ TooLate)
  ∧ (start = d →
     (r.1 = TooLate ↔ start - now < 2 * msPerHour ∧ status A ≠ "pending"))
  ∧ (validateSync A = true → r.1 ≠ TooLate →
     r = (Cancelled, write appointmentId (cancelled A) w)
     ∧ statusOf appointmentId r.2 = Some "cancelled"
     ∧ paymentStatus <$> stored appointmentId r.2 = Some "refunded")
  ∧ (status A = "pending" → r.1 ≠ TooLate).
Proof.
  intros Hst HU Hd _ r.
  pose proof (cancel_owner w appointmentId U A now Hst HU) as Hr.
  fold r in Hr. clearbody r.
  unfold hoursUntilBelow2 in Hr. rewrite Hd in Hr.
  assert (Hb : hoursUntilBelow2 now (Some d)
               && negb (String.eqb (status A) "pending") = true
               ↔ d - now < 2 * msPerHour ∧ status A ≠ "pending").
  { unfold hoursUntilBelow2.
    rewrite andb_true_iff, negb_true_iff, Z.ltb_lt.
    destruct (String.eqb_spec (status A) "pending"); intuition congruence. }
  unfold hoursUntilBelow2 in Hb.
  assert (Hiff : r.1 = TooLate ↔ d - now < 2 * msPerHour ∧ status A ≠ "pending").
  { rewrite <- Hb.
    destruct (_ && _) in Hr |- *.
    - subst r. simpl. split; reflexivity.
    - destruct (validateSync (cancelled A)); subst r; simpl;
        (split; [intros H; discriminate H | intros H; discriminate H]). }
  assert (Hsame : r.1 = TooLate → r = (TooLate, w)).
  { intros HT.
    destruct (_ && _) in Hr; [by subst r|].
    destruct (validateSync (cancelled A)); subst r; simpl in *;
      discriminate HT. }
  clear Hb.
  split; [exact Hiff|].
  split; [intros HT; by rewrite (Hsame HT)|].
  split; [intros Hn Hlt _; apply Hsame, Hiff; by split|].
  split; [intros _ Hge HT; apply Hiff in HT as [Hlt _]; lia|].
  split; [intros ->; exact Hiff|].
  split.
  { intros Hv HT.
    destruct (_ && _) in Hr; [subst r; by destruct HT|].
    rewrite (cancelled_valid A Hv) in Hr. subst r.
    split; [reflexivity|]. simpl.
    unfold statusOf. by rewrite stored_write. }
  intros Hp HT. apply Hiff in HT as [_ Hn]. by apply Hn.
Qed.

Lemma cancel_too_late_by_date_alone_witness :
  let a := Samples.booking "u1" (Samples.noon - Samples.hours 12)
             "confirmed" "completed" in
  let now := Samples.noon + Samples.hours 2 in
  Notifications.appointmentStart 0 a = Some (now + Samples.hours 3)
  ∧ cancel now "u1" "a1" (Samples.world a) = (TooLate, Samples.world a).
Proof.
  intros a now.
  split; [reflexivity|].
  destruct (cancel_too_late_by_date_alone 0 (Samples.world a) "a1" "u1" a
              now (Samples.noon - Samples.hours 12)
              (now + Samples.hours 3) eq_refl eq_refl eq_refl eq_refl)
    as (_ & _ & Hrefused & _).
  apply Hrefused; [discriminate | vm_compute; reflexivity
                  | vm_compute; discriminate].
Defined.

(** ** Admin override *)

Lemma includes_statusEnum (v : JsVal) :
  includes statusEnum v = true ↔ ∃ s, v = JStr s ∧ s ∈ statusEnum.
Proof.
  destruct v; simpl; try (split; [discriminate | intros (s & ? & _); discriminate]).
  rewrite bool_decide_eq_true. split.
  - intros H. eauto.
  - intros (s' & [= ->] & H). exact H.
Qed.

Lemma overridden_valid (s : string) (a : Appointment) :
  s ∈ statusEnum → validateSync a = true → validateSync (overridden s a) = true.
Proof.
  intros Hs Ha. unfold overridden.
  assert (Hin : inEnum statusEnum s = true) by by apply bool_decide_eq_true.
  destruct (_ && _).
  - apply (validateSync_fields a); try reflexivity; try exact Ha.
    exact Hin.
  - apply (validateSync_fields a); try reflexivity; try exact Ha.
    + exact Hin.
    + simpl. by apply validateSync_paymentStatus.
Qed.

Lemma updateStatus_invalid (w : World) (appointmentId : string) (v : JsVal) :
  includes statusEnum v = false →
  updateStatus appointmentId v w = (InvalidStatus, w).
Proof.
  intros H. unfold updateStatus, tryCatch, updateStatusBody.
  fold statusEnum. by rewrite H.
Qed.

Lemma updateStatus_missing (w : World) (appointmentId s : string) :
  s ∈ statusEnum →
  stored appointmentId w = None →
  updateStatus appointmentId (JStr s) w
  = (mkResponse 404 false "Appointment not found", w).
Proof.
  intros Hs Hst. unfold updateStatus, tryCatch, updateStatusBody.
  fold statusEnum. simpl. rewrite bool_decide_eq_true_2 by done. simpl.
  unfold bind, Model.findById, Store.findById. unfold stored in Hst.
  by rewrite Hst.
Qed.

Lemma updateStatus_found (w : World) (appointmentId s : string) (A : Appointment) :
  s ∈ statusEnum →
  stored appointmentId w = Some A →
  updateStatus appointmentId (JStr s) w
  = if validateSync (overridden s A)
    then (Overridden s, write appointmentId (overridden s A) w)
    else (mkResponse 500 false "Error updating appointment status", w).
Proof.
  intros Hs Hst. unfold updateStatus, tryCatch, updateStatusBody.
  fold statusEnum. simpl. rewrite bool_decide_eq_true_2 by done. simpl.
  unfold bind at 1. unfold Model.findById, Store.findById.
  unfold stored in Hst. rewrite Hst. simpl.
  fold (overridden s A).
  destruct (validateSync (overridden s A)) eqn:Hv; unfold bind.
  - by rewrite (save_valid _ _ _ Hv).
  - by rewrite (save_invalid _ _ _ Hv).
Qed.

(** C7.  The admin override accepts exactly the four values pending,
    confirmed, completed and cancelled: any other status is answered
    "Invalid status" and nothing is written.  An accepted status is
    stored on a record that exists; the stored paymentStatus is
    completed when the target is confirmed and the payment was pending,
    and is the one it was for every other target and every other payment
    status; no other field changes. *)
Theorem admin_override_accepts_four
    (w : World) (appointmentId : string) (v : JsVal) :
  let r := updateStatus appointmentId v w in
  (r.1 = InvalidStatus ↔ ∀ s, s ∈ statusEnum → v ≠ JStr s)
  ∧ (r.1 = InvalidStatus → r.2 = w)
  ∧ (∀ s A, v = JStr s → s ∈ statusEnum →
       stored appointmentId w = Some A → validateSync A = true →
       r = (Overridden s, write appointmentId (overridden s A) w)
       ∧ status (overridden s A) = s
       ∧ (s = "confirmed" → paymentStatus A = "pending" →
          overridden s A = set_paymentStatus "completed" (set_status s A))
       ∧ (s ≠ "confirmed" ∨ paymentStatus A ≠ "pending" →
          overridden s A = set_status s A
          ∧ paymentStatus (overridden s A) = paymentStatus A)
       ∧ statusOf appointmentId r.2 = Some s
       ∧ (s = "confirmed" → paymentStatus A = "pending" →
          paymentStatus <$> stored appointmentId r.2 = Some "completed")
       ∧ (s ≠ "confirmed" ∨ paymentStatus A ≠ "pending" →
          paymentStatus <$> stored appointmentId r.2
          = Some (paymentStatus A))
       ∧ (∃ A', stored appointmentId r.2 = Some A'
            ∧ user A' = user A
            ∧ appointmentDate A' = appointmentDate A
            ∧ appointmentTime A' = appointmentTime A
            ∧ consultationType A' = consultationType A
            ∧ package A' = package A
            ∧ amount A' = amount A ∧ duration A' = duration A
            ∧ clientQuestions A' = clientQuestions A
            ∧ videoCall A' = videoCall A
            ∧ paymentId A' = paymentId A ∧ orderId A' = orderId A
            ∧ videoRoomUrl A' = videoRoomUrl A
            ∧ videoRoomName A' = videoRoomName A
            ∧ notes A' = notes A
            ∧ rating A' = rating A ∧ review A' = review A)).
Proof.
  intros r.
  assert (Hr : r = updateStatus appointmentId v w) by reflexivity.
  clearbody r.
  assert (Hinv : includes statusEnum v = false → r = (InvalidStatus, w)).
  { intros H. rewrite Hr. by apply updateStatus_invalid. }
  assert (Hacc : ∀ s, v = JStr s → s ∈ statusEnum → r.1 ≠ InvalidStatus).
  { intros s -> Hs. rewrite Hr.
    destruct (stored appointmentId w) as [A|] eqn:Hst.
    - rewrite (updateStatus_found _ _ _ _ Hs Hst).
      destruct (validateSync _); simpl; discriminate.
    - rewrite (updateStatus_missing _ _ _ Hs Hst). simpl. discriminate. }
  split; [|split].
  - destruct (includes statusEnum v) eqn:Hi.
    + apply includes_statusEnum in Hi as (s & Hv & Hs). split.
      * intros HI. by destruct (Hacc s Hv Hs).
      * intros Hno. by destruct (Hno s Hs).
    + rewrite (Hinv eq_refl). split; [|reflexivity].
      intros _ s Hs ->.
      assert (includes statusEnum (JStr s) = true) as Ht
        by (apply includes_statusEnum; eauto).
      congruence.
  - destruct (includes statusEnum v) eqn:Hi.
    + apply includes_statusEnum in Hi as (s & Hv & Hs).
      intros HI. by destruct (Hacc s Hv Hs).
    + by rewrite (Hinv eq_refl).
  - intros s A -> Hs Hst Hv. clear Hinv Hacc.
    rewrite (updateStatus_found _ _ _ _ Hs Hst) in Hr.
    rewrite (overridden_valid s A Hs Hv) in Hr.
    assert (Hstored : stored appointmentId r.2 = Some (overridden s A))
      by (rewrite Hr; apply stored_write).
    assert (Hforced : s = "confirmed" → paymentStatus A = "pending" →
              overridden s A = set_paymentStatus "completed" (set_status s A))
      by (intros -> Hp; unfold overridden; by rewrite Hp).
    assert (Hkept : s ≠ "confirmed" ∨ paymentStatus A ≠ "pending" →
              overridden s A = set_status s A).
    { intros Hor. unfold overridden.
      destruct (String.eqb_spec s "confirmed") as [Hc|Hc];
        destruct (String.eqb_spec (paymentStatus A) "pending") as [Hp|Hp];
        simpl; try reflexivity.
      destruct Hor; contradiction. }
    assert (Hstatus : status (overridden s A) = s)
      by (unfold overridden; by destruct (_ && _)).
    split; [exact Hr|]. split; [exact Hstatus|].
    split; [exact Hforced|].
    split; [intros Hor; by rewrite (Hkept Hor)|].
    split; [unfold statusOf; rewrite Hstored; simpl; by rewrite Hstatus|].
    split; [intros Hc Hp; by rewrite Hstored, (Hforced Hc Hp)|].
    split; [intros Hor; by rewrite Hstored, (Hkept Hor)|].
    exists (overridden s A). split; [exact Hstored|].
    unfold overridden. by destruct (_ && _).
Qed.

(** Numbers in a template literal: the decimal digits of the double,
    the shortest that read back as it, in exponent form from 10^21. *)
Example ToString_numbers :
  ToString (JNum 42) = "42"
  ∧ ToString (JNum (-7)) = "-7"
  ∧ ToString (JNum (2 ^ 53 + 1)) = "9007199254740992"
  ∧ ToString (JNum (2 ^ 64)) = "18446744073709552000"
  ∧ ToString (JNum (10 ^ 21)) = "1e+21"
  ∧ ToString (JNum 123456789012345678901234567890) = "1.2345678901234568e+29"
  ∧ ToString (JNum (2 ^ 1024)) = "Infinity".
Proof. repeat split; vm_compute; reflexivity. Qed.

(** The override on sample records: confirming an unpaid booking marks
    it paid, any other target leaves the payment status. *)
Example admin_override_sample :
  let a := Samples.booking "u1" Samples.noon "pending" "pending" in
  updateStatus "a1" (JStr "confirmed") (Samples.world a)
  = (Overridden "confirmed",
     Samples.world (Samples.booking "u1" Samples.noon "confirmed" "completed"))
  ∧ updateStatus "a1" (JStr "completed") (Samples.world a)
    = (Overridden "completed",
       Samples.world (Samples.booking "u1" Samples.noon "completed" "pending"))
  ∧ updateStatus "a1" (JStr "in-progress") (Samples.world a)
    = (InvalidStatus, Samples.world a)
  ∧ updateStatus "a1" JUndefined (Samples.world a)
    = (InvalidStatus, Samples.world a).
Proof. repeat split; vm_compute; reflexivity. Qed.

(** ** Call status *)

Lemma started_invalid (now : Z) (a : Appointment) :
  validateSync (started now a) = false.
Proof. unfold started. by apply validateSync_bad_status. Qed.

Lemma ended_valid (now : Z) (a : Appointment) :
  validateSync a = true → validateSync (ended now a) = true.
Proof.
  intros Ha. apply (validateSync_fields a); try reflexivity; try exact Ha.
  simpl. by apply validateSync_paymentStatus.
Qed.

(** 'started': the save is refused by the status enum of the schema, so
    the route answers 500 and the store keeps the old record. *)
Lemma callStatus_started (w : World) (appointmentId : string) (A : Appointment) (now : Z) :
  stored appointmentId w = Some A →
  callStatus now appointmentId (JStr "started") w = (CallFailed, w).
Proof.
  intros Hst.
  unfold callStatus, tryCatch, callStatusBody.
  unfold bind at 1. unfold Model.findById, Store.findById.
  unfold stored in Hst. rewrite Hst.
  rewrite bool_decide_eq_true_2 by reflexivity.
  unfold bind, ret. fold (started now A).
  by rewrite (save_invalid _ _ _ (started_invalid now A)).
Qed.

Lemma callStatus_ended (w : World) (appointmentId : string) (A : Appointment) (now : Z) :
  stored appointmentId w = Some A →
  validateSync A = true →
  callStatus now appointmentId (JStr "ended") w
  = (mkResponse 200 true "Call ended successfully",
     mkWorld (<[appointmentId := ended now A]> (appointments w))
       (timers w ++ [teardown A])).
Proof.
  intros Hst Hv.
  unfold callStatus, tryCatch, callStatusBody.
  unfold bind at 1. unfold Model.findById, Store.findById.
  unfold stored in Hst. rewrite Hst.
  rewrite bool_decide_eq_false_2 by discriminate.
  rewrite bool_decide_eq_true_2 by reflexivity.
  unfold bind, ret, Model.setTimeout. fold (ended now A).
  by rewrite (save_valid _ _ _ (ended_valid now A Hv)).
Qed.

(** Any other status: both branches are skipped, the unchanged document
    is saved, and the route reports success. *)
Lemma callStatus_other (w : World) (appointmentId : string) (A : Appointment)
    (now : Z) (v : JsVal) :
  v ≠ JStr "started" →
  v ≠ JStr "ended" →
  stored appointmentId w = Some A →
  validateSync A = true →
  callStatus now appointmentId v w = (mkResponse 200 true (callMessage v), w).
Proof.
  intros H1 H2 Hst Hv.
  unfold callStatus, tryCatch, callStatusBody.
  unfold bind at 1. unfold Model.findById, Store.findById.
  pose proof Hst as Hst'. unfold stored in Hst'. rewrite Hst'.
  rewrite !bool_decide_eq_false_2 by done.
  unfold bind, ret. rewrite (save_valid _ _ _ Hv).
  by rewrite (write_same _ _ _ Hst).
Qed.

(** C3.  For every stored, schema-valid appointment,
    SetCallStatus('started') answers 500 and persists nothing: the save
    of status 'in-progress' is refused by the status enum of the schema,
    so the record keeps its status, its active flag and its undefined
    start time.  The following SetCallStatus('ended') does succeed and
    stores isActive false, the end time and status completed, next to
    the start time the record had before, which 'started' never set. *)
Theorem callStatus_started_not_persisted
    (w : World) (appointmentId : string) (A : Appointment) (now now' : Z) :
  stored appointmentId w = Some A →
  validateSync A = true →
  let r1 := callStatus now appointmentId (JStr "started") w in
  let r2 := callStatus now' appointmentId (JStr "ended") r1.2 in
  r1 = (CallFailed, w)
  ∧ statusOf appointmentId r1.2 = Some (status A)
  ∧ status A ≠ "in-progress"
  ∧ r2.1 = mkResponse 200 true "Call ended successfully"
  ∧ stored appointmentId r2.2 = Some (ended now' A)
  ∧ status (ended now' A) = "completed"
  ∧ isActive (videoCall (ended now' A)) = false
  ∧ endedAt (videoCall (ended now' A)) = Some now'
  ∧ startedAt (videoCall (ended now' A)) = startedAt (videoCall A).
Proof.
  intros Hst Hv r1 r2.
  assert (H1 : r1 = (CallFailed, w)) by by apply (callStatus_started w _ A).
  split; [exact H1|].
  split; [rewrite H1; simpl; unfold statusOf; by rewrite Hst|].
  split.
  { intros Hs. pose proof (validateSync_status A Hv) as He.
    rewrite Hs in He. discriminate He. }
  subst r2. rewrite H1. simpl.
  rewrite (callStatus_ended w appointmentId A now' Hst Hv). simpl.
  split; [reflexivity|].
  split; [unfold stored; simpl; apply lookup_insert_eq|].
  repeat split.
Qed.

Lemma callStatus_started_not_persisted_witness :
  let a := Samples.booking "u1" Samples.noon "confirmed" "completed" in
  let w := Samples.world a in
  let r1 := callStatus Samples.noon "a1" (JStr "started") w in
  let r2 := callStatus (Samples.noon + 1800000) "a1" (JStr "ended") r1.2 in
  r1 = (CallFailed, w)
  ∧ statusOf "a1" r1.2 = Some "confirmed"
  ∧ statusOf "a1" r2.2 = Some "completed"
  ∧ (startedAt ∘ videoCall) <$> stored "a1" r2.2 = Some None
  ∧ (endedAt ∘ videoCall) <$> stored "a1" r2.2
    = Some (Some (Samples.noon + 1800000)).
Proof.
  intros a w r1 r2.
  destruct (callStatus_started_not_persisted w "a1" a Samples.noon
              (Samples.noon + 1800000) eq_refl eq_refl)
    as (H1 & H2 & _ & _ & H5 & _).
  split; [exact H1|]. split; [exact H2|].
  fold r1 in H5. fold r2 in H5.
  unfold statusOf. rewrite H5. by repeat split.
Defined.

(** C9.  For every stored, schema-valid appointment and every status
    string other than 'started' and 'ended', SetCallStatus answers 200,
    success, with the message "Call <status> successfully", and leaves
    the world, the record with it, as it was; so does a body without a
    status, with the message "Call undefined successfully". *)
Theorem callStatus_unknown_status_succeeds
    (w : World) (appointmentId : string) (A : Appointment) (now : Z)
    (s : string) :
  s ≠ "started" →
  s ≠ "ended" →
  stored appointmentId w = Some A →
  validateSync A = true →
  let r := callStatus now appointmentId (JStr s) w in
  let absent := callStatus now appointmentId JUndefined w in
  r.1 = mkResponse 200 true ("Call " ++ s ++ " successfully")
  ∧ r.2 = w
  ∧ stored appointmentId r.2 = Some A
  ∧ absent.1 = mkResponse 200 true "Call undefined successfully"
  ∧ absent.2 = w.
Proof.
  intros H1 H2 Hst Hv r absent. subst r absent.
  assert (Hs : JStr s ≠ JStr "started") by congruence.
  assert (He : JStr s ≠ JStr "ended") by congruence.
  rewrite (callStatus_other w appointmentId A now (JStr s) Hs He Hst Hv).
  rewrite (callStatus_other w appointmentId A now JUndefined
             ltac:(discriminate) ltac:(discriminate) Hst Hv).
  by repeat split.
Qed.

Lemma callStatus_unknown_status_succeeds_witness :
  let a := Samples.booking "u1" Samples.noon "confirmed" "completed" in
  let w := Samples.world a in
  callStatus Samples.noon "a1" (JStr "paused") w
    = (mkResponse 200 true "Call paused successfully", w)
  ∧ callStatus Samples.noon "a1" JUndefined w
    = (mkResponse 200 true "Call undefined successfully", w).
Proof.
  intros a w.
  destruct (callStatus_unknown_status_succeeds w "a1" a Samples.noon
              "paused" ltac:(discriminate) ltac:(discriminate)
              eq_refl eq_refl)
    as (Hr & Hw & _ & Hr' & Hw').
  split; apply injective_projections; assumption.
Defined.

(** ** Payments *)

(** The keys [razorpayPaymentId] and [paidAt] are not paths of the
    schema, and the cast drops them from the update. *)
Lemma castUpdate_verify (paymentId : JsVal) (now : Z) :
  castUpdate
    [ ("paymentStatus", Json (JStr "completed"));
      ("status", Json (JStr "confirmed"));
      ("razorpayPaymentId", Json paymentId); ("paidAt", DateValue now) ]
  = [ ("paymentStatus", Json (JStr "completed"));
      ("status", Json (JStr "confirmed")) ].
Proof. reflexivity. Qed.

Lemma verify_found (w : World) (now : Z) (reqUser : string)
    (body : VerifyBody) (A : Appointment) :
  stored (verifyAppointmentId body) w = Some A →
  verify now reqUser body w
  = (Verified, write (verifyAppointmentId body) (paid A) w).
Proof.
  intros Hst. unfold stored in Hst.
  unfold verify, tryCatch, verifyBody, bind, ret, Model.findByIdAndUpdate,
    Store.findByIdAndUpdate, applyUpdate.
  by rewrite Hst, castUpdate_verify.
Qed.

Lemma verify_missing (w : World) (now : Z) (reqUser : string)
    (body : VerifyBody) :
  stored (verifyAppointmentId body) w = None →
  verify now reqUser body w = (Verified, w).
Proof.
  intros Hst. unfold stored in Hst.
  unfold verify, tryCatch, verifyBody, bind, ret, Model.findByIdAndUpdate,
    Store.findByIdAndUpdate.
  rewrite Hst. by destruct w.
Qed.

Lemma failed_found (w : World) (reqUser appointmentId : string) (A : Appointment) :
  stored appointmentId w = Some A →
  failed reqUser appointmentId w
  = (FailureRecorded, write appointmentId (unpaid A) w).
Proof.
  intros Hst. unfold stored in Hst.
  unfold failed, tryCatch, failedBody, bind, ret, Model.findByIdAndUpdate,
    Store.findByIdAndUpdate, applyUpdate.
  by rewrite Hst.
Qed.

(** Payment verify answers success for every caller and every body. *)
Lemma verify_always_succeeds (w : World) (now : Z) (reqUser : string)
    (body : VerifyBody) :
  (verify now reqUser body w).1 = Verified.
Proof.
  destruct (stored (verifyAppointmentId body) w) as [A|] eqn:Hst.
  - by rewrite (verify_found _ _ _ _ _ Hst).
  - by rewrite (verify_missing _ _ _ _ Hst).
Qed.

(** C10.  Payment verify answers success for every caller and every
    order id, payment id and signature, without an ownership or an
    existence check: on an id that matches an appointment, whoever owns
    it, it stores paymentStatus completed and status confirmed, and on
    an id that matches none it writes nothing.  The stored record is the
    old one with those two fields replaced: [paidAt] and
    [razorpayPaymentId] are not paths of the schema and are dropped from
    the update, so no paid-at time is persisted. *)
Theorem verify_sets_no_paidAt
    (w : World) (now : Z) (reqUser : string) (body : VerifyBody) :
  let r := verify now reqUser body w in
  r.1 = Verified
  ∧ (∀ A, stored (verifyAppointmentId body) w = Some A →
       r.2 = write (verifyAppointmentId body) (paid A) w
       ∧ paymentStatus (paid A) = "completed"
       ∧ status (paid A) = "confirmed"
       ∧ paid A = set_status "confirmed" (set_paymentStatus "completed" A))
  ∧ (stored (verifyAppointmentId body) w = None → r.2 = w)
  ∧ ("paidAt" ∉ schemaPaths)
  ∧ ("razorpayPaymentId" ∉ schemaPaths)
  ∧ castUpdate
      [ ("paymentStatus", Json (JStr "completed"));
        ("status", Json (JStr "confirmed"));
        ("razorpayPaymentId", Json (razorpayPaymentId body));
        ("paidAt", DateValue now) ]
    = [ ("paymentStatus", Json (JStr "completed"));
        ("status", Json (JStr "confirmed")) ].
Proof.
  intros r. subst r.
  split; [apply verify_always_succeeds|].
  split; [intros A Hst; by rewrite (verify_found _ _ _ _ _ Hst)|].
  split; [intros Hst; by rewrite (verify_missing _ _ _ _ Hst)|].
  split; [in_enum|].
  split; [in_enum|].
  apply castUpdate_verify.
Qed.

(** Payment verify at sample requests: a stranger confirms the unpaid
    booking of another user, and the record then differs from the old
    one in [status] and [paymentStatus] only; an unknown id is answered
    success as well. *)
Example verify_samples :
  let a := Samples.booking "u1" Samples.noon "pending" "pending" in
  let w := Samples.world a in
  let body id := mkVerifyBody JUndefined (JStr "pay_1") (JNum 0) id in
  verify Samples.noon "u2" (body "a1") w
  = (Verified,
     Samples.world (Samples.booking "u1" Samples.noon "confirmed" "completed"))
  ∧ verify Samples.noon "u2" (body "a2") w = (Verified, w).
Proof. split; vm_compute; reflexivity. Qed.

(** ** Room creation *)

Lemma withRoom_valid (name url : string) (a : Appointment) :
  validateSync a = true → validateSync (withRoom name url a) = true.
Proof.
  intros Ha. apply (validateSync_fields a); try reflexivity; try exact Ha.
  - simpl. by apply validateSync_status.
  - simpl. by apply validateSync_paymentStatus.
Qed.

Lemma createRoom_found (w : World) (appointmentId : string) (A : Appointment)
    (post : DailyService.RoomsEndpoint) (now : Z) (reqUser : ReqUser) :
  stored appointmentId w = Some A →
  validateSync A = true →
  createRoom post now reqUser appointmentId w =
    if negb (mayAccess reqUser A)
    then (mkResponse 403 false "Not authorized to access this appointment", w)
    else match post (roomConfigFor appointmentId A) with
         | Some (name, url) =>
             (RoomCreated, write appointmentId (withRoom name url A) w)
         | None => (RoomFailed, w)
         end.
Proof.
  intros Hst Hv. unfold stored in Hst.
  unfold createRoom, tryCatch, createRoomBody.
  unfold bind at 1. unfold Model.findById, Store.findById. rewrite Hst.
  fold (mayAccess reqUser A).
  destruct (negb (mayAccess reqUser A)); [reflexivity|].
  unfold bind at 1. unfold liftResult, DailyService.createRoom. simpl.
  fold (roomConfigFor appointmentId A).
  destruct (post (roomConfigFor appointmentId A)) as [[name url]|];
    [|reflexivity].
  simpl. fold (withRoom name url A). unfold bind, ret.
  by rewrite (save_valid _ _ _ (withRoom_valid name url A Hv)).
Qed.


(** ** Terminal states *)

(** C2, as stated, fails: from completed, the admin override reaches
    pending, payment verify reaches confirmed, payment failure and the
    owner's cancel reach cancelled; from cancelled, SetCallStatus('ended')
    reaches completed. *)
Lemma terminal_left :
  let done := Samples.booking "u1" (Samples.noon + Samples.hours 3)
                "completed" "completed" in
  let gone := Samples.booking "u1" (Samples.noon + Samples.hours 3)
                "cancelled" "refunded" in
  let after op a := statusOf "a1" (run op "a1" (Samples.world a)).2 in
  terminal (status done) ∧ terminal (status gone)
  ∧ after (AdminOverride (JStr "pending")) done = Some "pending"
  ∧ after (PaymentVerify Samples.noon "u2" JNull JNull JNull) done
    = Some "confirmed"
  ∧ after (PaymentFailed "u2") done = Some "cancelled"
  ∧ after (OwnerCancel Samples.noon "u1") done = Some "cancelled"
  ∧ after (SetCallStatus Samples.noon (JStr "ended")) gone = Some "completed"
  ∧ ¬ terminal_never_left.
Proof.
  intros done gone after.
  split; [by left|]. split; [by right|].
  do 5 (split; [vm_compute; reflexivity|]).
  intros H.
  specialize (H (AdminOverride (JStr "pending")) (Samples.world done) "a1"
                done eq_refl (or_introl eq_refl)).
  vm_compute in H. discriminate H.
Qed.

Lemma cancel_stranger (w : World) (appointmentId U : string) (A : Appointment) (now : Z) :
  stored appointmentId w = Some A →
  user A ≠ U →
  cancel now U appointmentId w
  = (mkResponse 403 false "Not authorized to cancel this appointment", w).
Proof.
  intros Hst HU. unfold stored in Hst.
  unfold cancel, tryCatch, cancelBody, bind, Model.findById, Store.findById.
  rewrite Hst. by rewrite (proj2 (String.eqb_neq _ _) HU).
Qed.

(** C2, amended.  Terminal states are not guarded: no operation reads
    whether the current status is completed or cancelled.  On a stored,
    schema-valid appointment, whatever its status, the owner's cancel
    outside the TooLate case leaves cancelled, payment verify confirmed,
    payment failure cancelled, the admin override the accepted target and
    SetCallStatus('ended') completed; a refused cancel or override, room
    creation and SetCallStatus with a status other than 'started' and
    'ended' leave the status as it was.  So a completed or cancelled
    appointment keeps its status under these operations exactly when the
    operation writes that same value or does not write.  Nothing is said
    of SetCallStatus('started'). *)
Theorem status_after_operation
    (op : Operation) (w : World) (appointmentId : string) (A : Appointment)
    (s : string) :
  stored appointmentId w = Some A →
  validateSync A = true →
  statusAfter op A = Some s →
  statusOf appointmentId (run op appointmentId w).2 = Some s
  ∧ (terminal (status A) →
     (statusOf appointmentId (run op appointmentId w).2 = Some (status A)
      ↔ s = status A)).
Proof.
  intros Hst Hv Hs.
  assert (Hold : statusOf appointmentId w = Some (status A))
    by (unfold statusOf; by rewrite Hst).
  assert (Hnew : ∀ a, statusOf appointmentId (write appointmentId a w)
                      = Some (status a))
    by (intros a; unfold statusOf; by rewrite stored_write).
  assert (H0 : match statusAfter op A with
               | Some t =>
                   statusOf appointmentId (run op appointmentId w).2 = Some t
               | None => True
               end).
  { clear Hs.
    destruct op as [now U|now U o p x|U|v|now v|post now U];
      cbn [run statusAfter].
    - destruct (String.eqb_spec (user A) U) as [HU|HU].
      + rewrite (cancel_owner _ _ _ _ _ Hst HU). simpl.
        destruct (_ && _); simpl; [exact Hold|].
        rewrite (cancelled_valid A Hv). simpl. by rewrite Hnew.
      + by rewrite (cancel_stranger _ _ _ _ _ Hst HU).
    - rewrite (verify_found w now U (mkVerifyBody o p x appointmentId) A Hst).
      simpl. by rewrite Hnew.
    - rewrite (failed_found _ _ _ _ Hst). simpl. by rewrite Hnew.
    - destruct (includes statusEnum v) eqn:Hi.
      + apply includes_statusEnum in Hi as (t & -> & Ht).
        rewrite (updateStatus_found _ _ _ _ Ht Hst).
        rewrite (overridden_valid t A Ht Hv). simpl.
        rewrite bool_decide_eq_true_2 by done. rewrite Hnew.
        unfold overridden. by destruct (_ && _).
      + rewrite (updateStatus_invalid _ _ _ Hi). simpl.
        destruct v; try exact Hold. simpl in Hi. by rewrite Hi.
    - case_bool_decide as Hb; [exact I|].
      case_bool_decide as He.
      + subst v. rewrite (callStatus_ended _ _ _ _ Hst Hv). simpl.
        unfold statusOf, stored. simpl. by rewrite lookup_insert_eq.
      + by rewrite (callStatus_other _ _ _ _ _ Hb He Hst Hv).
    - rewrite (createRoom_found _ _ _ _ _ _ Hst Hv).
      destruct (negb _); simpl; [exact Hold|].
      destruct (post _) as [[name url]|]; simpl; [|exact Hold].
      by rewrite Hnew. }
  rewrite Hs in H0. rename H0 into H1.
  split; [exact H1|].
  intros _. rewrite H1. split; [by intros [= ->] | by intros ->].
Qed.

Lemma status_after_operation_witness :
  let done := Samples.booking "u1" (Samples.noon + Samples.hours 3)
                "completed" "completed" in
  statusOf "a1" (run (PaymentFailed "u2") "a1" (Samples.world done)).2
  = Some "cancelled".
Proof.
  intros done.
  exact (proj1 (status_after_operation (PaymentFailed "u2")
                  (Samples.world done) "a1" done "cancelled"
                  eq_refl eq_refl eq_refl)).
Defined.

(** ** Package resolution *)

Lemma toLowerCase_tier (s : string) :
  s ∈ packageEnum → toLowerCase s = s.
Proof.
  unfold packageEnum. rewrite !elem_of_cons, elem_of_nil.
  intros [->|[->|[->|[]]]]; reflexivity.
Qed.

(** The three ways a string is looked up in the table. *)
Tactic Notation "own_key" constr(s) constr(k) constr(t) :=
  destruct (String.eqb_spec k s) as [<-|?];
  [left; exists t; split; [in_enum|];
     split; [reflexivity|]; split; [in_enum|];
     split;
     [intros H; first [reflexivity | exfalso; revert H; in_enum]
     |intros t'; rewrite !elem_of_cons, elem_of_nil; intros H;
      repeat (destruct H as [H'|H]; [congruence|]); destruct H] |].

Lemma getPackageMapping_cases (s : string) :
  (∃ t, (s, t) ∈ packageMapping ∧ getPackageMapping (JStr s) = JStr t
        ∧ t ∈ packageEnum
        ∧ (toLowerCase s ∈ packageEnum → toLowerCase s = t)
        ∧ (∀ t', (s, t') ∈ packageMapping → t' = t))
  ∨ (getPackageMapping (JStr s) = JObject
     ∧ (toLowerCase s ∉ packageEnum)
     ∧ ∀ t, (s, t) ∉ packageMapping)
  ∨ (getPackageMapping (JStr s) = JUndefined
     ∧ ∀ t, (s, t) ∉ packageMapping).
Proof.
  assert (Hno : (∀ k t, (k, t) ∈ packageMapping → k ≠ s)
                → ∀ t, (s, t) ∉ packageMapping)
    by (intros H t Hin; by apply (H s t Hin)).
  unfold getPackageMapping, packageMapping, ownProperty.
  own_key s "Basic Consultation" "basic".
  own_key s "Premium Consultation" "premium".
  own_key s "Advanced Consultation" "advanced".
  own_key s "basic" "basic".
  own_key s "premium" "premium".
  own_key s "advanced" "advanced".
  assert (Hnot : ∀ t, (s, t) ∉ packageMapping).
  { apply Hno. intros k t. unfold packageMapping.
    rewrite !elem_of_cons, elem_of_nil. intros H.
    repeat (destruct H as [H'|H]; [congruence|]). destruct H. }
  right. case_bool_decide as Hp.
  - left. split; [reflexivity|]. split; [|exact Hnot].
    unfold objectPrototypeKeys in Hp. rewrite !elem_of_cons, elem_of_nil in Hp.
    clear -Hp.
    repeat (destruct Hp as [->|Hp]; [in_enum|]). destruct Hp.
  - right. split; [reflexivity|exact Hnot].
Qed.

Lemma truthy_tier (t : string) : t ∈ packageEnum → truthy (JStr t) = true.
Proof.
  unfold packageEnum. rewrite !elem_of_cons, elem_of_nil.
  intros [->|[->|[->|[]]]]; reflexivity.
Qed.

Lemma resolvePackage_tier (t : string) :
  t ∈ packageEnum →
  (if invalidPackage (JStr t) then None else castPackage (JStr t)) = Some t.
Proof.
  intros Ht. unfold invalidPackage. rewrite (truthy_tier t Ht). simpl.
  fold packageEnum. by rewrite bool_decide_eq_true_2.
Qed.

Lemma resolvePackage_string (s t : string) :
  resolvePackage (JStr s) = Some t
  ↔ (s, t) ∈ packageMapping ∨ (toLowerCase s = t ∧ t ∈ packageEnum).
Proof.
  unfold resolvePackage, mappedPackage.
  destruct (getPackageMapping_cases s)
    as [(t0 & Hin & -> & Ht0 & Hlow & Huniq)|[(-> & Hlow & Hnot)|(-> & Hnot)]].
  - rewrite (truthy_tier t0 Ht0), (resolvePackage_tier t0 Ht0). split.
    + intros [= <-]. by left.
    + intros [Hin'|[Hl Ht]].
      * by rewrite (Huniq t Hin').
      * f_equal. rewrite <- Hl in *. symmetry. by apply Hlow.
  - simpl. split; [discriminate|].
    intros [Hin|[Hl Ht]]; [by destruct (Hnot t)|].
    rewrite <- Hl in Ht. by destruct Hlow.
  - simpl. fold packageEnum. split.
    + unfold invalidPackage. fold packageEnum. simpl.
      destruct (negb _); [discriminate|]. simpl.
      case_bool_decide as Hl; simpl; [|discriminate].
      intros [= <-]. by right.
    + intros [Hin|[Hl Ht]]; [by destruct (Hnot t)|].
      rewrite Hl. by apply resolvePackage_tier.
Qed.

Lemma invalidPackage_false (mapped : JsVal) :
  invalidPackage mapped = false → ∃ t, mapped = JStr t.
Proof.
  unfold invalidPackage. rewrite orb_false_iff, !negb_false_iff.
  intros [_ H]. destruct mapped; try discriminate H. eauto.
Qed.

(** A name that is not a string resolves to nothing. *)
Lemma resolvePackage_not_string (name : JsVal) (t : string) :
  resolvePackage name = Some t → ∃ s, name = JStr s.
Proof. destruct name; try discriminate. eauto. Qed.

(** C5, as stated, fails: a table that is looked up without regard to
    case resolves "premium consultation" as it resolves "Premium
    Consultation"; the route looks the name up as spelled and answers
    "Invalid package type". *)
Lemma resolvePackage_case_sensitive :
  toLowerCase "premium consultation" = toLowerCase "Premium Consultation"
  ∧ resolveCaseInsensitive "premium consultation" = Some "premium"
  ∧ resolvePackage (JStr "Premium Consultation") = Some "premium"
  ∧ resolvePackage (JStr "premium consultation") = None
  ∧ ¬ (∀ s, resolvePackage (JStr s) = resolveCaseInsensitive s).
Proof.
  do 4 (split; [reflexivity|]).
  intros H. specialize (H "premium consultation"). discriminate H.
Qed.

(** ** Create *)

(** The only exception of the resolution is the TypeError of calling
    [toLowerCase] on a name that is not a string. *)
Lemma mappedPackage_throws (name : JsVal) (e : JsError) :
  mappedPackage name = Throw e → e = TypeError.
Proof.
  unfold mappedPackage.
  destruct (truthy (getPackageMapping name)); [discriminate|].
  destruct name; simpl; congruence.
Qed.

(** The create route, case by case: no case saves, and none answers 201. *)
Lemma create_outcome (newDate : string → option Z) (emailService : bool)
    (newId reqUser : string) (body : CreateBody) (w : World) :
  create newDate emailService newId reqUser body w =
    if negb (complete body) then (MissingField, w)
    else match bodyPackage body with
         | None => (CreateFailed, w)
         | Some packageInfo =>
             match mappedPackage (name packageInfo) with
             | Throw _ => (CreateFailed, w)
             | Ret mapped =>
                 if invalidPackage mapped then (InvalidPackage, w)
                 else (CreateFailed, w)
             end
         end.
Proof.
  unfold create, tryCatch, createBody, complete.
  destruct (given (bodyDate body)); [|reflexivity].
  destruct (given (bodyTime body)); [|reflexivity].
  destruct (given (bodyConsultationType body)); [|reflexivity].
  destruct (bodyPackage body) as [packageInfo|]; [|reflexivity].
  rewrite bool_decide_eq_true_2 by eauto. simpl.
  unfold bind at 1. unfold liftResult at 1.
  destruct (mappedPackage (name packageInfo)) as [mapped|e] eqn:Hm;
    [|by rewrite (mappedPackage_throws _ _ Hm)].
  destruct (invalidPackage mapped); [reflexivity|].
  unfold bind at 1. by destruct emailService.
Qed.

(** C4.  A Create call whose inputs pass validation answers 500 and
    persists nothing: after the package is resolved the handler reads
    [appointment] above its declaration (or fails to load the email
    service) and throws before any record is built.  No Create call
    changes the store or answers 201. *)
Theorem create_never_persists :
  (∀ newDate emailService newId reqUser body w,
     (create newDate emailService newId reqUser body w).2 = w
     ∧ httpStatus (create newDate emailService newId reqUser body w).1 ≠ 201)
  ∧ (∀ newDate emailService newId reqUser body packageInfo w,
       complete body = true →
       bodyPackage body = Some packageInfo →
       is_Some (resolvePackage (name packageInfo)) →
       create newDate emailService newId reqUser body w = (CreateFailed, w))
  ∧ (let w := Samples.world
                (Samples.booking "u1" Samples.noon "pending" "pending") in
     complete Samples.request = true
     ∧ resolvePackage (JStr "Premium Consultation") = Some "premium"
     ∧ create Samples.parseDate true "a2" "u2" Samples.request w
       = (CreateFailed, w)).
Proof.
  split; [|split].
  - intros. rewrite create_outcome.
    destruct (negb _); [by split|].
    destruct (bodyPackage body) as [p|]; [|by split].
    destruct (mappedPackage (name p)) as [m|]; [|by split].
    destruct (invalidPackage m); by split.
  - intros newDate emailService newId reqUser body p w Hc Hp [t Ht].
    rewrite create_outcome, Hc, Hp. simpl.
    unfold resolvePackage in Ht.
    destruct (mappedPackage (name p)) as [m|]; [|reflexivity].
    by destruct (invalidPackage m).
  - repeat split; vm_compute; reflexivity.
Qed.

(** C5, amended.  The name is looked up in the six-entry table exactly
    as it is spelled and, when it is not a key, lowercased; the result
    is accepted when it is basic, premium or advanced.  So a name
    resolves to a tier exactly when it is a key of the table or
    lowercases to that tier: the tier names are matched without regard
    to case, the long names only as spelled.  "Premium Consultation"
    resolves to premium, "advanced" and "ADVANCED" to advanced; "gold"
    does not resolve, and Create with an unresolvable string answers
    InvalidPackage and writes nothing. *)
Theorem resolvePackage_spec :
  (∀ name t, resolvePackage name = Some t → t ∈ packageEnum)
  ∧ (∀ s t, resolvePackage (JStr s) = Some t
            ↔ (s, t) ∈ packageMapping ∨ (toLowerCase s = t ∧ t ∈ packageEnum))
  ∧ resolvePackage (JStr "Premium Consultation") = Some "premium"
  ∧ resolvePackage (JStr "advanced") = Some "advanced"
  ∧ resolvePackage (JStr "ADVANCED") = Some "advanced"
  ∧ resolvePackage (JStr "gold") = None
  ∧ (∀ newDate emailService newId reqUser body packageInfo s w,
       complete body = true →
       bodyPackage body = Some packageInfo →
       name packageInfo = JStr s →
       resolvePackage (JStr s) = None →
       create newDate emailService newId reqUser body w = (InvalidPackage, w)).
Proof.
  split.
  { intros name t H.
    destruct (resolvePackage_not_string name t H) as [s ->].
    apply resolvePackage_string in H as [Hin|[_ Ht]]; [|exact Ht].
    revert Hin. unfold packageMapping.
    rewrite !elem_of_cons, elem_of_nil. intros H.
    repeat (destruct H as [[= _ ->]|H]; [in_enum|]). destruct H. }
  split; [exact resolvePackage_string|].
  do 4 (split; [reflexivity|]).
  intros newDate emailService newId reqUser body p s w Hc Hp Hn Hr.
  rewrite create_outcome, Hc, Hp, Hn. simpl.
  unfold resolvePackage in Hr.
  destruct (mappedPackage (JStr s)) as [m|e] eqn:Hm.
  - destruct (invalidPackage m) eqn:Hi; [reflexivity|].
    destruct (invalidPackage_false m Hi) as [t ->]. discriminate Hr.
  - unfold mappedPackage in Hm.
    destruct (truthy (getPackageMapping (JStr s))); discriminate Hm.
Qed.

(** ** Available slots *)

Lemma WeekDay_range (t : Z) : 0 ≤ WeekDay t ≤ 6.
Proof. unfold WeekDay. pose proof (Z.mod_pos_bound (Day t + 4) 7). lia. Qed.

(** Sunday is the days that are 3 modulo 7 after Thursday 1 January
    1970. *)
Lemma WeekDay_sunday (t : Z) : WeekDay t = 0 ↔ Day t mod 7 = 3.
Proof.
  unfold WeekDay.
  rewrite (Z.add_mod (Day t) 4 7) by lia.
  pose proof (Z.mod_pos_bound (Day t) 7 ltac:(lia)) as Hb.
  change (4 mod 7) with 4.
  split; intros H.
  - destruct (decide (Day t mod 7 < 3)) as [Hlt|Hge].
    + rewrite Z.mod_small in H by lia. lia.
    + replace (Day t mod 7 + 4) with ((Day t mod 7 - 3) + 1 * 7) in H by lia.
      rewrite Z.mod_add in H by lia. rewrite Z.mod_small in H by lia. lia.
  - rewrite H. reflexivity.
Qed.

(** The slots route by the answer of [getDay]: the empty sequence for 0
    and the same six slots, in the same order, for every other answer,
    NaN for an invalid date included; the slots start at 17:00, 17:30,
    18:00, 18:30, 19:00 and 19:30, thirty minutes apart. *)
Lemma availableSlots_getDay
    (newDate : string → option Z) (LocalTZA : Z → Z) (date : string) :
  let dayOfWeek := getDay LocalTZA (newDate date) in
  let r := availableSlots newDate LocalTZA date in
  r.1 = mkResponse 200 true ""
  ∧ (dayOfWeek = Some 0 → r.2 = [])
  ∧ (dayOfWeek ≠ Some 0 → r.2 = slots)
  ∧ (∀ t, newDate date = Some t →
       0 ≤ WeekDay (LocalTime LocalTZA t) ≤ 6
       ∧ (dayOfWeek = Some 0 ↔ Day (LocalTime LocalTZA t) mod 7 = 3))
  ∧ (newDate date = None → r.2 = slots)
  ∧ map time slots = [ "17:00"; "17:30"; "18:00"; "18:30"; "19:00"; "19:30" ]
  ∧ map (fun s => minuteOfDay (time s)) slots
    = map (fun i => Some (17 * 60 + 30 * i)) [ 0; 1; 2; 3; 4; 5 ].
Proof.
  intros dayOfWeek r. subst r. unfold availableSlots. fold dayOfWeek.
  split; [by case_bool_decide|].
  split; [intros H; by rewrite bool_decide_eq_true_2|].
  split; [intros H; by rewrite bool_decide_eq_false_2|].
  split.
  { intros t Ht. split; [apply WeekDay_range|].
    subst dayOfWeek. rewrite Ht. simpl.
    rewrite <- WeekDay_sunday. split; [by intros [= ->] | by intros ->]. }
  split.
  { intros Hn. subst dayOfWeek. rewrite Hn. reflexivity. }
  split; reflexivity.
Qed.

Lemma mod7_eq (a b : Z) : (a - b) mod 7 = 0 → a mod 7 = b mod 7.
Proof.
  intros H. replace a with (b + (a - b) / 7 * 7).
  - by rewrite Z.mod_add.
  - Z.div_mod_to_equations; lia.
Qed.

Lemma DayFromYear_alt (y : Z) :
  DayFromYear y
  = 365 * (y - 1970) + (y - 1) / 4 - (y - 1) / 100 + (y - 1) / 400 - 477.
Proof. unfold DayFromYear. Z.div_mod_to_equations; lia. Qed.

Lemma leap_days (y : Z) :
  y / 4 - y / 100 + y / 400
  = (y - 1) / 4 - (y - 1) / 100 + (y - 1) / 400
    + (if InLeapYear y then 1 else 0).
Proof.
  unfold InLeapYear.
  destruct (Z.eqb_spec (y mod 4) 0); destruct (Z.eqb_spec (y mod 100) 0);
    destruct (Z.eqb_spec (y mod 400) 0); simpl;
    Z.div_mod_to_equations; lia.
Qed.

(** The weekday the language gives the midnight of a date is the weekday
    of the calendar. *)
Lemma WeekDay_dateOnly (y m d : Z) :
  1 ≤ m ≤ 12 → WeekDay (dateOnly y m d) = weekdayOfDate y m d.
Proof.
  intros Hm. unfold WeekDay, Day, dateOnly.
  rewrite Z.div_mul by discriminate.
  unfold MakeDay, weekdayOfDate, monthStart. rewrite DayFromYear_alt.
  apply mod7_eq.
  assert (Hc : m = 1 ∨ m = 2 ∨ m = 3 ∨ m = 4 ∨ m = 5 ∨ m = 6 ∨ m = 7
               ∨ m = 8 ∨ m = 9 ∨ m = 10 ∨ m = 11 ∨ m = 12) by lia.
  pose proof (leap_days y) as Hl.
  destruct Hc as [->|[->|[->|[->|[->|[->|[->|[->|[->|[->|[->| ->]]]]]]]]]]];
    simpl; destruct (InLeapYear y); simpl; Z.div_mod_to_equations; lia.
Qed.

(** The local weekday of the midnight UTC of a date, on a host whose
    local time is UTC plus [tz]: the date's own weekday at and east of
    UTC, the weekday before it west of UTC. *)
Lemma WeekDay_local (tz y m d : Z) :
  1 ≤ m ≤ 12 →
  (0 ≤ tz < msPerDay →
   WeekDay (dateOnly y m d + tz) = weekdayOfDate y m d)
  ∧ (- msPerDay ≤ tz < 0 →
     WeekDay (dateOnly y m d + tz) = (weekdayOfDate y m d + 6) mod 7).
Proof.
  intros Hm. rewrite <- (WeekDay_dateOnly y m d Hm).
  unfold WeekDay, Day, dateOnly.
  rewrite Z.div_mul by discriminate.
  set (D := MakeDay y (m - 1) d). unfold msPerDay. split; intros Htz.
  - f_equal. Z.div_mod_to_equations; lia.
  - assert ((D * 86400000 + tz) / 86400000 = D - 1)
      by (Z.div_mod_to_equations; lia).
    Z.div_mod_to_equations; lia.
Qed.

(** C8.  The route reads the date-only string as midnight UTC and takes
    the weekday of that instant in the local time of the host.  On a
    host at or east of UTC (an offset below a day) it answers the empty
    sequence exactly for the dates that are Sundays, and the six slots
    for every other date.  On a host west of UTC the instant lies on the
    evening before: the route answers the six slots for a Sunday and the
    empty sequence exactly for the Mondays. *)
Theorem availableSlots_weekday_by_host
    (newDate : string → option Z) (tz : Z) (date : string) (y m d : Z) :
  1 ≤ m ≤ 12 →
  newDate date = Some (dateOnly y m d) →
  let r := availableSlots newDate (fun _ => tz) date in
  let Sunday := weekdayOfDate y m d = 0 in
  let Monday := weekdayOfDate y m d = 1 in
  r.1 = mkResponse 200 true ""
  ∧ (r.2 = [] ∨ r.2 = slots)
  ∧ (0 ≤ tz < msPerDay → (r.2 = [] ↔ Sunday) ∧ (¬ Sunday → r.2 = slots))
  ∧ (- msPerDay ≤ tz < 0 →
     (r.2 = [] ↔ Monday) ∧ (Sunday → r.2 = slots))
  ∧ map time slots = [ "17:00"; "17:30"; "18:00"; "18:30"; "19:00"; "19:30" ].
Proof.
  intros Hm Hdate r Sunday Monday. subst r Sunday Monday.
  destruct (WeekDay_local tz y m d Hm) as [Heast Hwest].
  pose proof (Z.mod_pos_bound (weekdayOfDate y m d + 6) 7 ltac:(lia)) as Hb.
  assert (Hwd : 0 ≤ weekdayOfDate y m d < 7)
    by (unfold weekdayOfDate; apply Z.mod_pos_bound; lia).
  unfold availableSlots, getDay, LocalTime. rewrite Hdate.
  split; [by case_bool_decide|].
  split; [case_bool_decide; [by left|by right]|].
  split; [|split; [|reflexivity]].
  - intros Htz. rewrite (Heast Htz).
    case_bool_decide as Hc; simpl.
    + injection Hc as Hc. split; [by split|]. by intros Hn.
    + assert (Hn : weekdayOfDate y m d ≠ 0) by congruence.
      split; [|done]. split; [discriminate|by intros H0].
  - intros Htz. rewrite (Hwest Htz).
    case_bool_decide as Hc; simpl.
    + injection Hc as Hc.
      assert (H1 : weekdayOfDate y m d = 1)
        by (revert Hc; Z.div_mod_to_equations; lia).
      split; [by split|]. intros H0. lia.
    + assert (Hn : (weekdayOfDate y m d + 6) mod 7 ≠ 0) by congruence.
      split; [|done]. split; [discriminate|].
      intros H1. rewrite H1 in Hn. by destruct Hn.
Qed.

Lemma availableSlots_weekday_by_host_witness :
  let west := fun _ : Z => -5 * msPerHour in
  weekdayOfDate 2024 1 7 = 0
  ∧ (availableSlots Samples.parseDate west "2024-01-07").2 = slots
  ∧ (availableSlots Samples.parseDate west "2024-01-08").2 = [].
Proof.
  intros west.
  assert (Htz : - msPerDay ≤ -5 * msPerHour < 0) by (vm_compute; split; congruence).
  destruct (availableSlots_weekday_by_host Samples.parseDate (-5 * msPerHour)
              "2024-01-07" 2024 1 7 ltac:(lia) eq_refl)
    as (_ & _ & _ & Hsun & _).
  destruct (availableSlots_weekday_by_host Samples.parseDate (-5 * msPerHour)
              "2024-01-08" 2024 1 8 ltac:(lia) eq_refl)
    as (_ & _ & _ & Hmon & _).
  split; [reflexivity|]. split.
  - by apply (Hsun Htz).
  - by apply (Hmon Htz).
Defined.

(** The route on sample dates: Sunday 7 January 2024 is closed for a
    host on UTC; Monday and an unparsable date get the six slots; for a
    host five hours west of UTC the time value of the same Sunday, UTC
    midnight, is still Saturday. *)
Example availableSlots_samples :
  (availableSlots Samples.parseDate Samples.utc "2024-01-07").2 = []
  ∧ (availableSlots Samples.parseDate Samples.utc "2024-01-08").2 = slots
  ∧ (availableSlots Samples.parseDate Samples.utc "someday").2 = slots
  ∧ (availableSlots Samples.parseDate (fun _ => -5 * msPerHour)
       "2024-01-07").2 = slots.
Proof. repeat split; vm_compute; reflexivity. Qed.

(** ** The store stays schema-valid *)

Lemma paid_valid (a : Appointment) :
  validateSync a = true → validateSync (paid a) = true.
Proof. apply validateSync_fields; reflexivity. Qed.

Lemma unpaid_valid (a : Appointment) :
  validateSync a = true → validateSync (unpaid a) = true.
Proof. apply validateSync_fields; reflexivity. Qed.

(** An operation against an id that matches no document writes nothing. *)
Lemma run_missing (op : Operation) (w : World) (appointmentId : string) :
  stored appointmentId w = None → (run op appointmentId w).2 = w.
Proof.
  intros Hst. pose proof Hst as Hst'. unfold stored in Hst'.
  destruct op as [now U|now U o p s|U|v|now v|post now U]; cbn [run].
  - unfold cancel, tryCatch, cancelBody, bind, Model.findById, Store.findById.
    by rewrite Hst'.
  - by rewrite (verify_missing w now U (mkVerifyBody o p s appointmentId) Hst).
  - unfold failed, tryCatch, failedBody, bind, ret, Model.findByIdAndUpdate,
      Store.findByIdAndUpdate.
    rewrite Hst'. by destruct w.
  - destruct (includes statusEnum v) eqn:Hi.
    + apply includes_statusEnum in Hi as (s & -> & Hs).
      by rewrite (updateStatus_missing _ _ _ Hs Hst).
    + by rewrite (updateStatus_invalid _ _ _ Hi).
  - unfold callStatus, tryCatch, callStatusBody, bind, Model.findById,
      Store.findById.
    by rewrite Hst'.
  - unfold createRoom, tryCatch, createRoomBody, bind, Model.findById,
      Store.findById.
    by rewrite Hst'.
Qed.

(** An operation against a stored, valid document leaves a valid document
    under the same id and touches no other document. *)
Lemma run_found (op : Operation) (w : World) (appointmentId : string)
    (A : Appointment) :
  stored appointmentId w = Some A →
  validateSync A = true →
  ∃ A', validateSync A' = true
        ∧ user A' = user A
        ∧ appointments (run op appointmentId w).2
          = <[appointmentId := A']> (appointments w).
Proof.
  intros Hst Hv.
  assert (Hsame : ∀ w', w' = w →
            ∃ A', validateSync A' = true ∧ user A' = user A
                  ∧ appointments w' = <[appointmentId := A']> (appointments w)).
  { intros w' ->. exists A. split; [exact Hv|]. split; [reflexivity|].
    symmetry. by apply insert_id. }
  assert (Hwrite : ∀ A', validateSync A' = true → user A' = user A →
            ∃ A'', validateSync A'' = true ∧ user A'' = user A
                   ∧ appointments (write appointmentId A' w)
                     = <[appointmentId := A'']> (appointments w))
    by (intros A' H1 H2; by exists A').
  destruct op as [now U|now U o p s|U|v|now v|post now U]; cbn [run].
  - destruct (String.eqb_spec (user A) U) as [HU|HU].
    + rewrite (cancel_owner _ _ _ _ _ Hst HU).
      destruct (_ && _); [by apply Hsame|].
      rewrite (cancelled_valid A Hv). simpl.
      apply Hwrite; [by apply cancelled_valid | reflexivity].
    + rewrite (cancel_stranger _ _ _ _ _ Hst HU). by apply Hsame.
  - rewrite (verify_found w now U (mkVerifyBody o p s appointmentId) A Hst).
    apply Hwrite; [by apply paid_valid | reflexivity].
  - rewrite (failed_found _ _ _ _ Hst).
    apply Hwrite; [by apply unpaid_valid | reflexivity].
  - destruct (includes statusEnum v) eqn:Hi.
    + apply includes_statusEnum in Hi as (s & -> & Hs).
      rewrite (updateStatus_found _ _ _ _ Hs Hst).
      rewrite (overridden_valid s A Hs Hv).
      apply Hwrite; [by apply overridden_valid|].
      unfold overridden. by destruct (_ && _).
    + rewrite (updateStatus_invalid _ _ _ Hi). by apply Hsame.
  - destruct (decide (v = JStr "ended")) as [->|He].
    + rewrite (callStatus_ended _ _ _ _ Hst Hv). simpl.
      exists (ended now A). split; [by apply ended_valid|]. by split.
    + destruct (decide (v = JStr "started")) as [->|Hs].
      * rewrite (callStatus_started _ _ _ _ Hst). by apply Hsame.
      * rewrite (callStatus_other _ _ _ _ _ Hs He Hst Hv). by apply Hsame.
  - rewrite (createRoom_found _ _ _ _ _ _ Hst Hv).
    destruct (negb _); [by apply Hsame|].
    destruct (post _) as [[name url]|]; [|by apply Hsame].
    apply Hwrite; [by apply withRoom_valid | reflexivity].
Qed.

(** The validity of the store, which the theorems above assume of the
    appointment they act on, is kept by every operation, and so by every
    history of operations. *)
Lemma run_validStore (op : Operation) (w : World) (appointmentId : string) :
  validStore w → validStore (run op appointmentId w).2.
Proof.
  intros Hw.
  destruct (stored appointmentId w) as [A|] eqn:Hst.
  - destruct (run_found op w appointmentId A Hst (Hw _ _ Hst))
      as (A' & HA' & _ & Hdb).
    intros i a. unfold stored. rewrite Hdb.
    destruct (decide (appointmentId = i)) as [->|Hne].
    + rewrite lookup_insert_eq. by intros [= <-].
    + rewrite lookup_insert_ne by done. apply Hw.
  - by rewrite (run_missing op w appointmentId Hst).
Qed.

Lemma runAll_validStore (history : list (Operation * string)) (w : World) :
  validStore w → validStore (runAll history w).
Proof.
  revert w. induction history as [|[op appointmentId] rest IH]; intros w Hw.
  - exact Hw.
  - simpl. apply IH. by apply run_validStore.
Qed.

(** No operation creates or removes a document, or changes its owner. *)
Lemma run_owner (op : Operation) (w : World) (appointmentId i : string) :
  validStore w →
  user <$> stored i (run op appointmentId w).2 = user <$> stored i w.
Proof.
  intros Hw.
  destruct (stored appointmentId w) as [A|] eqn:Hst.
  - destruct (run_found op w appointmentId A Hst (Hw _ _ Hst))
      as (A' & _ & HU & Hdb).
    unfold stored. rewrite Hdb.
    destruct (decide (appointmentId = i)) as [->|Hne].
    + rewrite lookup_insert_eq. unfold stored in Hst. rewrite Hst. simpl.
      by rewrite HU.
    + by rewrite lookup_insert_ne.
  - by rewrite (run_missing op w appointmentId Hst).
Qed.

(** ** The room name is set once *)







(** * Properties of the rest of the routes *)

(** ** Review *)

Lemma reviewed_valid (r : Z) (s : string) (a : Appointment) :
  1 ≤ r ≤ 5 →
  validateSync a = true →
  validateSync (ReviewRoute.set_review s (ReviewRoute.set_rating r a)) = true.
Proof.
  intros Hr. unfold validateSync. simpl.
  rewrite !andb_true_iff, !Z.leb_le. intros H. repeat split; try tauto; lia.
Qed.

Lemma invalidRating_false (rating : option Z) :
  ReviewRoute.invalidRating rating = false ↔ ∃ n, rating = Some n ∧ 1 ≤ n ≤ 5.
Proof.
  destruct rating as [n|]; simpl.
  - rewrite !orb_false_iff, Z.eqb_neq, !Z.ltb_ge. split.
    + intros [[H0 H1] H5]. exists n. split; [reflexivity|lia].
    + intros (m & Hm & Hr). injection Hm as <-. lia.
  - split; [discriminate|]. intros (n & Hn & _). discriminate Hn.
Qed.

(** The review route on a stored appointment, case by case. *)
Lemma review_found (w : World) (appointmentId U : string) (A : Appointment)
    (n : Z) (rev : option string) :
  stored appointmentId w = Some A →
  validateSync A = true →
  1 ≤ n ≤ 5 →
  ReviewRoute.review U appointmentId (Some n) rev w =
    if negb (String.eqb (user A) U)
    then (mkResponse 403 false "Not authorized to review this appointment", w)
    else if negb (String.eqb (status A) "completed")
    then (mkResponse 400 false "Can only review completed appointments", w)
    else (mkResponse 200 true "Review submitted successfully",
          write appointmentId
            (ReviewRoute.set_review (default "" rev)
               (ReviewRoute.set_rating n A)) w).
Proof.
  intros Hst Hv Hn. unfold stored in Hst.
  unfold ReviewRoute.review, tryCatch, ReviewRoute.reviewBody.
  rewrite (proj2 (invalidRating_false (Some n))) by eauto.
  unfold bind at 1. unfold Model.findById, Store.findById. rewrite Hst.
  destruct (negb (String.eqb (user A) U)); [reflexivity|].
  destruct (negb (String.eqb (status A) "completed")); [reflexivity|].
  unfold bind, ret.
  by rewrite (save_valid _ _ _ (reviewed_valid n (default "" rev) A Hn Hv)).
Qed.

Lemma review_invalid_rating (w : World) (appointmentId U : string)
    (rating : option Z) (rev : option string) :
  ReviewRoute.invalidRating rating = true →
  ReviewRoute.review U appointmentId rating rev w
  = (mkResponse 400 false "Rating must be between 1 and 5", w).
Proof.
  intros H. unfold ReviewRoute.review, tryCatch, ReviewRoute.reviewBody.
  destruct rating as [n|]; [|reflexivity]. by rewrite H.
Qed.

Lemma review_missing (w : World) (appointmentId U : string) (n : Z)
    (rev : option string) :
  1 ≤ n ≤ 5 →
  stored appointmentId w = None →
  ReviewRoute.review U appointmentId (Some n) rev w
  = (mkResponse 404 false "Appointment not found", w).
Proof.
  intros Hn Hst. unfold stored in Hst.
  unfold ReviewRoute.review, tryCatch, ReviewRoute.reviewBody.
  rewrite (proj2 (invalidRating_false (Some n))) by eauto.
  unfold bind, Model.findById, Store.findById. by rewrite Hst.
Qed.

(** X1.  For a body whose rating is absent or an integer number: on a
    stored, schema-valid appointment the review is accepted exactly when
    the rating is from 1 to 5, the caller owns the appointment and its
    status is completed.  An accepted review
    stores the rating and the review text (the empty string when the body
    has none) and changes no other field; a refused one writes nothing. *)
Theorem review_accepted_iff
    (w : World) (appointmentId U : string) (A : Appointment)
    (rating : option Z) (rev : option string) :
  stored appointmentId w = Some A →
  validateSync A = true →
  let r := ReviewRoute.review U appointmentId rating rev w in
  (success r.1 = true
   ↔ (∃ n, rating = Some n ∧ 1 ≤ n ≤ 5) ∧ user A = U ∧ status A = "completed")
  ∧ (success r.1 = true →
     ∃ A', stored appointmentId r.2 = Some A'
       ∧ AppointmentModel.rating A' = rating
       ∧ AppointmentModel.review A' = Some (default "" rev)
       ∧ A' = ReviewRoute.set_review (default "" rev)
                (ReviewRoute.set_rating (default 0 rating) A))
  ∧ (success r.1 = false → r.2 = w).
Proof.
  intros Hst Hv r. subst r.
  destruct (ReviewRoute.invalidRating rating) eqn:Hi.
  - rewrite (review_invalid_rating _ _ _ _ _ Hi). simpl.
    split; [|split; [discriminate|reflexivity]].
    split; [discriminate|]. intros [Hn _].
    apply invalidRating_false in Hn. congruence.
  - pose proof Hi as Hi'. apply invalidRating_false in Hi' as (n & -> & Hn).
    rewrite (review_found _ _ _ _ n rev Hst Hv Hn).
    destruct (String.eqb_spec (user A) U) as [HU|HU]; simpl.
    2:{ split; [|split; [discriminate|reflexivity]].
        split; [discriminate|]. intros (_ & ? & _). contradiction. }
    destruct (String.eqb_spec (status A) "completed") as [Hc|Hc]; simpl.
    2:{ split; [|split; [discriminate|reflexivity]].
        split; [discriminate|]. intros (_ & _ & ?). contradiction. }
    split; [|split; [|discriminate]].
    + split; [|reflexivity]. intros _. eauto.
    + intros _. eexists. split; [apply stored_write|]. by repeat split.
Qed.

Lemma review_accepted_iff_witness :
  let a := Samples.booking "u1" Samples.noon "completed" "completed" in
  let r := ReviewRoute.review "u1" "a1" (Some 3) None (Samples.world a) in
  success r.1 = true
  ∧ (rating <$> stored "a1" r.2) = Some (Some 3)
  ∧ (AppointmentModel.review <$> stored "a1" r.2) = Some (Some "").
Proof.
  intros a r.
  destruct (review_accepted_iff (Samples.world a) "a1" "u1" a (Some 3) None
              eq_refl eq_refl) as (Hiff & Hok & _).
  assert (Hs : success r.1 = true).
  { apply Hiff. split; [exists 3; split; [reflexivity|lia]|by split]. }
  destruct (Hok Hs) as (A' & HA' & Hr & Hrev & _).
  split; [exact Hs|]. fold r in HA'. rewrite HA'. simpl.
  by rewrite Hr, Hrev.
Defined.

(** X2.  The review route refuses in a fixed order, and writes nothing
    when it refuses: a rating that is absent, 0 or outside 1..5 is
    answered "Rating must be between 1 and 5" before the appointment is
    looked up (so also for an unknown id and for a stranger); with a
    rating in range an unknown id is answered 404, then a caller who is
    not the owner 403 (whatever the status), then a status other than
    completed 400. *)
Theorem review_refusals_in_order
    (w : World) (appointmentId U : string) (rating : option Z)
    (rev : option string) :
  let r := ReviewRoute.review U appointmentId rating rev w in
  (ReviewRoute.invalidRating rating = true →
     r = (mkResponse 400 false "Rating must be between 1 and 5", w))
  ∧ (ReviewRoute.invalidRating rating = false →
     stored appointmentId w = None →
     r = (mkResponse 404 false "Appointment not found", w))
  ∧ (∀ A, ReviewRoute.invalidRating rating = false →
     stored appointmentId w = Some A → validateSync A = true →
     (user A ≠ U →
      r = (mkResponse 403 false "Not authorized to review this appointment", w))
     ∧ (user A = U → status A ≠ "completed" →
        r = (mkResponse 400 false "Can only review completed appointments", w))).
Proof.
  intros r. subst r. split; [apply review_invalid_rating|]. split.
  - intros Hi Hst. apply invalidRating_false in Hi as (n & -> & Hn).
    by apply review_missing.
  - intros A Hi Hst Hv. apply invalidRating_false in Hi as (n & -> & Hn).
    rewrite (review_found _ _ _ _ n rev Hst Hv Hn). split.
    + intros HU. by rewrite (proj2 (String.eqb_neq _ _) HU).
    + intros HU Hc. rewrite (proj2 (String.eqb_eq _ _) HU). simpl.
      by rewrite (proj2 (String.eqb_neq _ _) Hc).
Qed.

(** X3.  Reviews overwrite: after two accepted reviews of the same
    appointment the stored rating and text are those of the second, and
    the record is the one a single review with the second body would
    have left.  A review never changes the status, the payment status,
    the owner or the video-call fields. *)
Theorem review_latest_wins
    (w : World) (appointmentId U : string) (A : Appointment)
    (n1 n2 : Z) (rev1 rev2 : option string) :
  stored appointmentId w = Some A →
  validateSync A = true →
  user A = U →
  status A = "completed" →
  1 ≤ n1 ≤ 5 →
  1 ≤ n2 ≤ 5 →
  let w1 := (ReviewRoute.review U appointmentId (Some n1) rev1 w).2 in
  let w2 := (ReviewRoute.review U appointmentId (Some n2) rev2 w1).2 in
  w2 = (ReviewRoute.review U appointmentId (Some n2) rev2 w).2
  ∧ ∃ A2, stored appointmentId w2 = Some A2
      ∧ rating A2 = Some n2
      ∧ AppointmentModel.review A2 = Some (default "" rev2)
      ∧ status A2 = status A ∧ paymentStatus A2 = paymentStatus A
      ∧ user A2 = user A ∧ videoCall A2 = videoCall A.
Proof.
  intros Hst Hv HU Hc Hn1 Hn2 w1 w2. subst w2 w1.
  rewrite (review_found _ _ _ _ n1 rev1 Hst Hv Hn1).
  rewrite (review_found w _ _ _ n2 rev2 Hst Hv Hn2).
  rewrite (proj2 (String.eqb_eq _ _) HU), (proj2 (String.eqb_eq _ _) Hc).
  simpl.
  set (A1 := ReviewRoute.set_review (default "" rev1)
               (ReviewRoute.set_rating n1 A)).
  rewrite (review_found (write appointmentId A1 w) appointmentId U A1 n2 rev2
             (stored_write _ _ _) (reviewed_valid n1 _ A Hn1 Hv) Hn2).
  simpl. rewrite (proj2 (String.eqb_eq _ _) HU), (proj2 (String.eqb_eq _ _) Hc).
  simpl. split.
  - unfold write. simpl. f_equal. apply insert_insert_eq.
  - eexists. split; [apply stored_write|]. by repeat split.
Qed.

Lemma review_latest_wins_witness :
  let a := Samples.booking "u1" Samples.noon "completed" "completed" in
  let w1 := (ReviewRoute.review "u1" "a1" (Some 3) (Some "fine")
               (Samples.world a)).2 in
  let w2 := (ReviewRoute.review "u1" "a1" (Some 5) None w1).2 in
  (rating <$> stored "a1" w2) = Some (Some 5)
  ∧ (AppointmentModel.review <$> stored "a1" w2) = Some (Some "")
  ∧ statusOf "a1" w2 = Some "completed".
Proof.
  intros a w1 w2.
  destruct (review_latest_wins (Samples.world a) "a1" "u1" a 3 5 (Some "fine")
              None eq_refl eq_refl eq_refl eq_refl
              ltac:(lia) ltac:(lia))
    as (_ & A2 & HA2 & Hr & Hrev & Hs & _).
  fold w1 in HA2. fold w2 in HA2. unfold statusOf. rewrite HA2. simpl.
  by rewrite Hr, Hrev, Hs.
Defined.

(** ** Meeting tokens *)

(** The request the token route sends for a caller and a room. *)
Lemma meetingToken_found (w : World) (appointmentId name : string)
    (A : Appointment) (post : MeetingToken.TokensEndpoint)
    (caller : MeetingToken.Caller) :
  stored appointmentId w = Some A →
  roomName (videoCall A) = Some name →
  name ≠ "" →
  let admin := String.eqb (role (MeetingToken.account caller)) "admin" in
  let config :=
    MeetingToken.mkTokenConfig name
      (MeetingToken.firstName caller ++ " " ++ MeetingToken.lastName caller)
      admin false false admin in
  MeetingToken.meetingToken post true caller appointmentId w =
    if negb (String.eqb (user A) (id (MeetingToken.account caller)) || admin)
    then ((mkResponse 403 false "Not authorized", None), w)
    else match post config with
         | Some t =>
             ((mkResponse 200 true "",
               Some (MeetingToken.mkTokenData t (roomUrl (videoCall A)) name
                       (if admin then "admin" else "participant"))), w)
         | None =>
             ((mkResponse 500 false "Failed to generate meeting token", None), w)
         end.
Proof.
  intros Hst Hn Hne admin config. unfold stored in Hst.
  unfold MeetingToken.meetingToken, tryCatch, MeetingToken.meetingTokenBody.
  unfold bind at 1. unfold Model.findById, Store.findById. rewrite Hst, Hn.
  rewrite (proj2 (String.eqb_neq _ _) Hne). simpl. fold admin.
  destruct (negb _); [reflexivity|].
  unfold bind, liftResult, MeetingToken.createMeetingToken.
  assert (Heq : String.eqb (if admin then "admin" else "participant") "admin"
                = admin) by (clearbody admin; by destruct admin).
  rewrite Heq. fold config. by destruct (post config).
Qed.

(** X4.  The token route never writes: for every provider answer,
    caller and id the world after the call is the world before it.
    Before a room was created (no appointment under the id, or no room
    name, or an empty one, on it) every caller is answered 404 "Video
    call room not found", a stranger included: the missing room is
    reported before the caller is authorized. *)
Theorem meetingToken_reads_only
    (w : World) (appointmentId : string)
    (post : MeetingToken.TokensEndpoint) (ownerFound : bool)
    (caller : MeetingToken.Caller) :
  let r := MeetingToken.meetingToken post ownerFound caller appointmentId w in
  r.2 = w
  ∧ (roomNameOf appointmentId w = None ∨ roomNameOf appointmentId w = Some "" →
     r.1 = (MeetingToken.RoomNotFound, None)).
Proof.
  intros r.
  assert (Hr : r = MeetingToken.meetingToken post ownerFound caller
                     appointmentId w) by reflexivity.
  clearbody r.
  unfold MeetingToken.meetingToken, tryCatch, MeetingToken.meetingTokenBody
    in Hr.
  unfold bind at 1 in Hr. unfold Model.findById, Store.findById in Hr.
  unfold roomNameOf, stored.
  destruct (appointments w !! appointmentId) as [A|]; simpl in *;
    [|subst r; split; [reflexivity|by intros _]].
  destruct (roomName (videoCall A)) as [name|]; simpl in *;
    [|subst r; split; [reflexivity|by intros _]].
  destruct (String.eqb name "") eqn:He; simpl in *;
    [subst r; split; [reflexivity|by intros _]|].
  split.
  - destruct ownerFound; simpl in Hr; [|by subst r].
    destruct (negb _); [by subst r|].
    unfold bind, liftResult, MeetingToken.createMeetingToken in Hr.
    destruct (post _); by subst r.
  - intros [H|H]; [discriminate H|]. injection H as H.
    rewrite H in He. discriminate He.
Qed.



(** X6.  Room creation and token issue compose.  After a room creation
    that succeeded against a provider that names rooms as asked, the
    owner's token request names the room [consultation-<id>], and the
    owner is answered the provider's token for that room together with
    the room URL the provider gave. *)
Theorem createRoom_then_meetingToken
    (w : World) (appointmentId : string) (A : Appointment)
    (rooms : DailyService.RoomsEndpoint) (tokens : MeetingToken.TokensEndpoint)
    (now : Z) (caller : MeetingToken.Caller) :
  stored appointmentId w = Some A →
  validateSync A = true →
  echoesName rooms →
  user A = id (MeetingToken.account caller) →
  let created :=
    createRoom rooms now (MeetingToken.account caller) appointmentId w in
  created.1 = RoomCreated →
  let room := "consultation-" ++ appointmentId in
  let admin := String.eqb (role (MeetingToken.account caller)) "admin" in
  let request :=
    MeetingToken.mkTokenConfig room
      (MeetingToken.firstName caller ++ " " ++ MeetingToken.lastName caller)
      admin false false admin in
  ∀ t, tokens request = Some t →
    ∃ url,
      rooms (roomConfigFor appointmentId A) = Some (room, url)
      ∧ MeetingToken.meetingToken tokens true caller appointmentId created.2
        = ((mkResponse 200 true "",
            Some (MeetingToken.mkTokenData t (Some url) room
                    (if admin then "admin" else "participant"))),
           created.2).
Proof.
  intros Hst Hv Hecho HU created Hok room admin request t Ht.
  pose proof (createRoom_found w appointmentId A rooms now
                (MeetingToken.account caller) Hst Hv) as Hc.
  fold created in Hc. clearbody created.
  unfold mayAccess in Hc. rewrite (proj2 (String.eqb_eq _ _) HU) in Hc.
  simpl in Hc.
  destruct (rooms (roomConfigFor appointmentId A)) as [[name url]|] eqn:Hp;
    [|subst created; discriminate Hok].
  apply Hecho in Hp as Hname. simpl in Hname. subst name.
  exists url. split; [reflexivity|]. subst created. simpl.
  assert (Hne : room ≠ "") by discriminate.
  rewrite (meetingToken_found _ appointmentId room
             (withRoom room url A) tokens caller (stored_write _ _ _)
             eq_refl Hne).
  simpl. rewrite (proj2 (String.eqb_eq _ _) HU). simpl.
  fold admin. fold request. by rewrite Ht.
Qed.

Lemma createRoom_then_meetingToken_witness :
  let a := Samples.booking "u1" Samples.noon "confirmed" "completed" in
  let rooms := Samples.echo "https://rooms.example/" in
  let tokens (c : MeetingToken.TokenConfig) := Some "guest-token" in
  let client := MeetingToken.mkCaller (mkReqUser "u1" "client") "Mira" "Das" in
  let created := createRoom rooms Samples.noon (mkReqUser "u1" "client") "a1"
                   (Samples.world a) in
  (MeetingToken.meetingToken tokens true client "a1" created.2).1
  = (mkResponse 200 true "",
     Some (MeetingToken.mkTokenData "guest-token"
             (Some "https://rooms.example/consultation-a1")
             "consultation-a1" "participant")).
Proof.
  intros a rooms tokens client created.
  assert (Hecho : echoesName rooms)
    by (intros config name url [= <- _]; reflexivity).
  destruct (createRoom_then_meetingToken (Samples.world a) "a1" a rooms tokens
              Samples.noon client eq_refl eq_refl Hecho eq_refl eq_refl
              "guest-token" eq_refl) as (url & Hurl & Htok).
  injection Hurl as <-. exact (f_equal fst Htok).
Defined.

(** ** Payment orders *)

(** A name outside the schema leaves the document as it is; the path
    [orderId] of the schema takes the value. *)
Lemma assign_razorpayOrderId (value : string) (a : Appointment) :
  PaymentOrder.assign "razorpayOrderId" value a = a.
Proof.
  unfold PaymentOrder.assign.
  assert (bool_decide ("razorpayOrderId" ∈ schemaPaths) = false) as ->
    by (vm_compute; reflexivity).
  reflexivity.
Qed.

Lemma assign_orderId (value : string) (a : Appointment) :
  PaymentOrder.assign "orderId" value a
  = mkAppointment (user a) (appointmentDate a) (appointmentTime a)
      (consultationType a) (package a) (amount a) (duration a)
      (clientQuestions a) (status a) (paymentStatus a) (videoCall a)
      (paymentId a) (Some value) (videoRoomUrl a) (videoRoomName a)
      (notes a) (rating a) (review a).
Proof.
  unfold PaymentOrder.assign.
  assert (bool_decide ("orderId" ∈ schemaPaths) = true) as ->
    by (vm_compute; reflexivity).
  reflexivity.
Qed.

(** X7.  The order route never writes: whatever the caller, the id and
    the stored record, the world after the call is the world before it.
    The order id it answers with is assigned to [razorpayOrderId], which
    is not a path of the schema, so the document that is saved is the
    one that was loaded: the stored record keeps its order id, and a
    payment verify that follows finds the store as it was.  The same
    assignment to the schema's own path [orderId] would have stored the
    order id. *)
Theorem createOrder_persists_nothing
    (w : World) (now : Z) (reqUser appointmentId : string) :
  let r := PaymentOrder.createOrder now reqUser appointmentId w in
  r.2 = w
  ∧ (orderId <$> stored appointmentId r.2) = (orderId <$> stored appointmentId w)
  ∧ (∀ now' caller body, verify now' caller body r.2 = verify now' caller body w)
  ∧ (∀ value a, PaymentOrder.assign "razorpayOrderId" value a = a
                ∧ orderId (PaymentOrder.assign "orderId" value a) = Some value).
Proof.
  intros r.
  assert (Hw : r.2 = w).
  { subst r.
    unfold PaymentOrder.createOrder, tryCatch, PaymentOrder.createOrderBody.
    unfold bind at 1. unfold Model.findById, Store.findById.
    destruct (appointments w !! appointmentId) as [A|] eqn:Hst; [|reflexivity].
    destruct (negb _); [reflexivity|].
    cbv zeta. rewrite assign_razorpayOrderId.
    unfold bind, ret.
    destruct (validateSync A) eqn:Hv.
    - rewrite (save_valid _ _ _ Hv). simpl. by apply write_same.
    - by rewrite (save_invalid _ _ _ Hv). }
  rewrite Hw. split; [reflexivity|]. split; [reflexivity|].
  split; [reflexivity|].
  intros value a. split; [apply assign_razorpayOrderId|].
  by rewrite assign_orderId.
Qed.

(** X8.  For the owner of a stored, schema-valid appointment the order
    route answers 200 with an order whose amount is the Number product
    of the appointment's amount and 100, currency INR, id [order_<now>]
    and receipt [appointment_<id>].  The model holds whole amounts only:
    for a whole amount whose hundredfold is below 2^53 the product is
    exact, the amount in paise; beyond, it is the nearest double (for
    2^53 - 1 that is 900719925474099072, not 900719925474099100).  A
    caller who is not the owner is answered 403 and an unknown id 404,
    both without an order. *)
Theorem createOrder_amount_in_paise
    (w : World) (now : Z) (reqUser appointmentId : string) (A : Appointment) :
  stored appointmentId w = Some A →
  validateSync A = true →
  let r := (PaymentOrder.createOrder now reqUser appointmentId w).1 in
  (user A = reqUser →
     ∃ rupees, amount A = Some rupees
       ∧ r = (mkResponse 200 true "",
              Some (PaymentOrder.mkOrder ("order_" ++ Double.toString now)
                      (Double.times rupees 100) "INR"
                      ("appointment_" ++ appointmentId)))
       ∧ (Z.abs (rupees * 100) < 2 ^ 53 →
          Double.times rupees 100 = Double.Finite (rupees * 100)))
  ∧ (user A ≠ reqUser → r = (mkResponse 403 false "Not authorized", None))
  ∧ (∀ unknown, stored unknown w = None →
      (PaymentOrder.createOrder now reqUser unknown w).1
      = (mkResponse 404 false "Appointment not found", None))
  ∧ Double.times (2 ^ 53 - 1) 100 = Double.Finite 900719925474099072.
Proof.
  intros Hst Hv r. subst r.
  assert (Hamt : ∃ rupees, amount A = Some rupees).
  { revert Hv. unfold validateSync. rewrite !andb_true_iff.
    intros H. destruct (amount A) as [x|]; [eauto|].
    simpl in H. intuition discriminate. }
  unfold stored in Hst.
  split; [|split; [|split]].
  - intros HU. destruct Hamt as [rupees Hr]. exists rupees.
    split; [exact Hr|]. split.
    + unfold PaymentOrder.createOrder, tryCatch, PaymentOrder.createOrderBody.
      unfold bind at 1. unfold Model.findById, Store.findById. rewrite Hst.
      rewrite (proj2 (String.eqb_eq _ _) HU). cbn [negb]. cbv zeta.
      rewrite assign_razorpayOrderId.
      unfold bind, ret. rewrite (save_valid _ _ _ Hv). by rewrite Hr.
    + intros Hb. unfold Double.times, Double.nearest.
      by rewrite (proj2 (Z.ltb_lt _ _) Hb).
  - intros HU.
    unfold PaymentOrder.createOrder, tryCatch, PaymentOrder.createOrderBody.
    unfold bind at 1. unfold Model.findById, Store.findById. rewrite Hst.
    by rewrite (proj2 (String.eqb_neq _ _) HU).
  - intros unknown Hu. unfold stored in Hu.
    unfold PaymentOrder.createOrder, tryCatch, PaymentOrder.createOrderBody.
    unfold bind at 1. unfold Model.findById, Store.findById. by rewrite Hu.
  - vm_compute. reflexivity.
Qed.

Lemma createOrder_amount_in_paise_witness :
  let a := Samples.booking "u1" Samples.noon "pending" "pending" in
  (PaymentOrder.createOrder 1704715200000 "u1" "a1" (Samples.world a)).1
  = (mkResponse 200 true "",
     Some (PaymentOrder.mkOrder "order_1704715200000" (Double.Finite 50000)
             "INR" "appointment_a1")).
Proof.
  intros a.
  destruct (createOrder_amount_in_paise (Samples.world a) 1704715200000 "u1"
              "a1" a eq_refl eq_refl) as (Hown & _).
  destruct (Hown eq_refl) as (rupees & Hr & Ho & _).
  injection Hr as <-. exact Ho.
Defined.

(** ** Tokens and middleware *)

Lemma dropPrefix_app (p t : string) :
  AuthMiddleware.dropPrefix p (p ++ t) = Some t.
Proof.
  induction p as [|c p IH]; simpl; [by destruct t|].
  by rewrite Ascii.eqb_refl.
Qed.

Lemma dropPrefix_Some (p s r : string) :
  AuthMiddleware.dropPrefix p s = Some r → s = p ++ r.
Proof.
  revert s. induction p as [|c p IH]; intros s; simpl.
  - intros [= ->]. reflexivity.
  - destruct s as [|d s]; [discriminate|].
    destruct (Ascii.eqb_spec c d) as [->|]; [|discriminate].
    intros H. by rewrite (IH s H).
Qed.

Lemma replaceFirst_app (p t : string) :
  AuthMiddleware.replaceFirst p (p ++ t) = t.
Proof.
  assert (Heq : ∀ s, AuthMiddleware.replaceFirst p s
                     = match AuthMiddleware.dropPrefix p s with
                       | Some rest => rest
                       | None =>
                           match s with
                           | EmptyString => EmptyString
                           | String c r =>
                               String c (AuthMiddleware.replaceFirst p r)
                           end
                       end) by (intros s; by destruct s).
  by rewrite Heq, dropPrefix_app.
Qed.

Lemma contains_app (c : ascii) (s t : string) :
  contains c (s ++ t) = contains c s || contains c t.
Proof.
  induction s as [|d s IH]; simpl; [reflexivity|].
  by rewrite IH, orb_assoc.
Qed.

(** A pattern with a space does not occur in a string without one. *)
Lemma replaceFirst_space_free (s : string) :
  contains " " s = false → AuthMiddleware.replaceFirst "Bearer " s = s.
Proof.
  induction s as [|d s IH]; intros Hs; [reflexivity|].
  cbn [AuthMiddleware.replaceFirst].
  destruct (AuthMiddleware.dropPrefix "Bearer " (String d s)) as [r|] eqn:Hd.
  - apply dropPrefix_Some in Hd. rewrite Hd, contains_app in Hs.
    discriminate Hs.
  - f_equal. apply IH. simpl in Hs. apply orb_false_iff in Hs. tauto.
Qed.

Lemma split_space_free (s : string) :
  contains " " s = false → AuthMiddleware.split " " s = [s].
Proof.
  induction s as [|d s IH]; intros Hs; [reflexivity|].
  simpl in Hs. apply orb_false_iff in Hs as [Hd Hs].
  cbn [AuthMiddleware.split]. rewrite Hd. by rewrite (IH Hs).
Qed.

Lemma bearerToken_scheme (t : string) :
  AuthMiddleware.bearerToken (Some ("Bearer " ++ t))
  = head (AuthMiddleware.split " " t).
Proof.
  unfold AuthMiddleware.bearerToken.
  assert (AuthMiddleware.split " " ("Bearer " ++ t)
          = "Bearer" :: AuthMiddleware.split " " t) as -> by reflexivity.
  change (negb (String.eqb ("Bearer " ++ t) "")
          && String.prefix "Bearer" ("Bearer " ++ t)) with true.
  cbv iota. by destruct (AuthMiddleware.split " " t).
Qed.

Lemma bearerToken_space_free (h : string) :
  contains " " h = false → AuthMiddleware.bearerToken (Some h) = None.
Proof.
  intros Hs. unfold AuthMiddleware.bearerToken.
  destruct (negb _ && _); [|reflexivity].
  by rewrite (split_space_free h Hs).
Qed.

(** X9.  Both token readers recover a token without a space that is
    sent as "Bearer <token>"; [auth] keeps what stands between the first
    and the second space, so it recovers the token also when more
    follows it.  With a non-empty token that verifies to the id of an
    existing, active user, [auth] passes with that user and
    [authenticate] with that id. *)
Theorem bearer_round_trip
    (jwtVerify : string → option string)
    (findUser : string → option AuthMiddleware.Account)
    (t uid : string) (u : AuthMiddleware.Account) :
  contains " " t = false →
  t ≠ "" →
  jwtVerify t = Some uid →
  findUser uid = Some u →
  AuthMiddleware.isActive u = true →
  let header := Some ("Bearer " ++ t) in
  AuthMiddleware.headerToken header = Some t
  ∧ AuthMiddleware.bearerToken header = Some t
  ∧ AuthMiddleware.auth jwtVerify findUser header = inr u
  ∧ AuthMiddleware.authenticate jwtVerify header = inr uid
  ∧ ∀ rest, AuthMiddleware.bearerToken (Some ("Bearer " ++ t ++ " " ++ rest))
            = Some t.
Proof.
  intros Hs Hne Hv Hu Ha header. subst header.
  assert (H1 : AuthMiddleware.headerToken (Some ("Bearer " ++ t)) = Some t).
  { unfold AuthMiddleware.headerToken. cbn [fmap option_fmap option_map].
    by rewrite replaceFirst_app. }
  assert (H2 : AuthMiddleware.bearerToken (Some ("Bearer " ++ t)) = Some t).
  { rewrite bearerToken_scheme. by rewrite (split_space_free t Hs). }
  split; [exact H1|]. split; [exact H2|].
  split; [|split].
  - unfold AuthMiddleware.auth. rewrite H2.
    rewrite (proj2 (String.eqb_neq _ _) Hne), Hv, Hu, Ha. reflexivity.
  - unfold AuthMiddleware.authenticate. rewrite H1.
    by rewrite (proj2 (String.eqb_neq _ _) Hne), Hv.
  - intros rest. rewrite bearerToken_scheme.
    clear -Hs. induction t as [|d t IH]; [reflexivity|].
    simpl in Hs. apply orb_false_iff in Hs as [Hd Hs].
    specialize (IH Hs). simpl. rewrite Hd.
    destruct (AuthMiddleware.split " " (t ++ " " ++ rest)) as [|h l];
      [discriminate IH|].
    simpl in *. by injection IH as ->.
Qed.

Lemma bearer_round_trip_witness :
  let jwtVerify (t : string) :=
    if String.eqb t "tok-1" then Some "u1" else None in
  let findUser (uid : string) :=
    if String.eqb uid "u1"
    then Some (AuthMiddleware.mkAccount (mkReqUser "u1" "client") true)
    else None in
  AuthMiddleware.auth jwtVerify findUser (Some "Bearer tok-1")
  = inr (AuthMiddleware.mkAccount (mkReqUser "u1" "client") true)
  ∧ AuthMiddleware.authenticate jwtVerify (Some "Bearer tok-1") = inr "u1".
Proof.
  intros jwtVerify findUser.
  assert (Hne : "tok-1" ≠ "") by discriminate.
  destruct (bearer_round_trip jwtVerify findUser "tok-1" "u1"
              (AuthMiddleware.mkAccount (mkReqUser "u1" "client") true)
              eq_refl Hne eq_refl eq_refl eq_refl) as (_ & _ & H3 & H4 & _).
  by split.
Defined.

(** X10.  The two token readers disagree on a header without the
    scheme.  A non-empty header without a space, the bare token, is
    refused by [auth] with "Access denied. No token provided." and is
    taken as the token by the inline [authenticate], which passes when
    it verifies.  So the cancel route, mounted behind [authenticate]
    only, runs for a bare token, and the payment verify route, mounted
    behind [auth] as well, answers 401 and writes nothing. *)
Theorem bare_token_accepted_inline
    (jwtVerify : string → option string)
    (findUser : string → option AuthMiddleware.Account)
    (h uid : string) (now : Z) (appointmentId : string) (body : VerifyBody)
    (w : World) :
  contains " " h = false →
  h ≠ "" →
  jwtVerify h = Some uid →
  AuthMiddleware.auth jwtVerify findUser (Some h) = inl AuthMiddleware.NoToken
  ∧ AuthMiddleware.authenticate jwtVerify (Some h) = inr uid
  ∧ AuthMiddleware.cancelRoute jwtVerify (Some h) now appointmentId w
    = cancel now uid appointmentId w
  ∧ AuthMiddleware.verifyRoute jwtVerify findUser (Some h) now body w
    = (AuthMiddleware.NoToken, w).
Proof.
  intros Hs Hne Hv.
  assert (H1 : AuthMiddleware.auth jwtVerify findUser (Some h)
               = inl AuthMiddleware.NoToken).
  { unfold AuthMiddleware.auth. by rewrite (bearerToken_space_free h Hs). }
  assert (H2 : AuthMiddleware.authenticate jwtVerify (Some h) = inr uid).
  { unfold AuthMiddleware.authenticate, AuthMiddleware.headerToken.
    cbn [fmap option_fmap option_map].
    rewrite (replaceFirst_space_free h Hs).
    by rewrite (proj2 (String.eqb_neq _ _) Hne), Hv. }
  split; [exact H1|]. split; [exact H2|]. split.
  - unfold AuthMiddleware.cancelRoute. by rewrite H2.
  - unfold AuthMiddleware.verifyRoute. by rewrite H1.
Qed.

Lemma bare_token_accepted_inline_witness :
  let jwtVerify (t : string) :=
    if String.eqb t "tok-1" then Some "u1" else None in
  let findUser (uid : string) := @None AuthMiddleware.Account in
  let a := Samples.booking "u1" (Samples.noon + Samples.hours 3)
             "confirmed" "completed" in
  statusOf "a1"
    (AuthMiddleware.cancelRoute jwtVerify (Some "tok-1") Samples.noon "a1"
       (Samples.world a)).2
  = Some "cancelled".
Proof.
  intros jwtVerify findUser a.
  assert (Hne : "tok-1" ≠ "") by discriminate.
  destruct (bare_token_accepted_inline jwtVerify findUser "tok-1" "u1"
              Samples.noon "a1" (mkVerifyBody JNull JNull JNull "a1")
              (Samples.world a) eq_refl Hne eq_refl) as (_ & _ & Hc & _).
  rewrite Hc. reflexivity.
Defined.

(** X11.  The inline [authenticate] does not load the user.  A token
    that verifies to the id of an account that is deactivated, or that no
    longer exists, is refused by [auth] with 401, and still passes
    [authenticate]: the cancel route runs for it as for an active owner,
    while the payment verify route writes nothing. *)
Theorem deactivated_account_still_cancels
    (jwtVerify : string → option string)
    (findUser : string → option AuthMiddleware.Account)
    (t uid : string) (now : Z) (appointmentId : string) (body : VerifyBody)
    (w : World) :
  contains " " t = false →
  t ≠ "" →
  jwtVerify t = Some uid →
  (∀ u, findUser uid = Some u → AuthMiddleware.isActive u = false) →
  let header := Some ("Bearer " ++ t) in
  (∃ r, AuthMiddleware.auth jwtVerify findUser header = inl r
        ∧ httpStatus r = 401)
  ∧ AuthMiddleware.cancelRoute jwtVerify header now appointmentId w
    = cancel now uid appointmentId w
  ∧ (AuthMiddleware.verifyRoute jwtVerify findUser header now body w).2 = w
  ∧ httpStatus
      (AuthMiddleware.verifyRoute jwtVerify findUser header now body w).1
    = 401.
Proof.
  intros Hs Hne Hv Hin header. subst header.
  assert (H2 : AuthMiddleware.bearerToken (Some ("Bearer " ++ t)) = Some t).
  { rewrite bearerToken_scheme. by rewrite (split_space_free t Hs). }
  assert (H1 : ∃ r, AuthMiddleware.auth jwtVerify findUser
                      (Some ("Bearer " ++ t)) = inl r ∧ httpStatus r = 401).
  { unfold AuthMiddleware.auth. rewrite H2.
    rewrite (proj2 (String.eqb_neq _ _) Hne), Hv.
    destruct (findUser uid) as [u|] eqn:Hu; [|eauto].
    rewrite (Hin u eq_refl). simpl. eauto. }
  split; [exact H1|].
  destruct H1 as (r & Hr & H401).
  split; [|split].
  - unfold AuthMiddleware.cancelRoute, AuthMiddleware.authenticate,
      AuthMiddleware.headerToken.
    cbn [fmap option_fmap option_map]. rewrite replaceFirst_app.
    by rewrite (proj2 (String.eqb_neq _ _) Hne), Hv.
  - unfold AuthMiddleware.verifyRoute. by rewrite Hr.
  - unfold AuthMiddleware.verifyRoute. by rewrite Hr.
Qed.

Lemma deactivated_account_still_cancels_witness :
  let jwtVerify (t : string) :=
    if String.eqb t "tok-1" then Some "u1" else None in
  let findUser (uid : string) :=
    Some (AuthMiddleware.mkAccount (mkReqUser uid "client") false) in
  let a := Samples.booking "u1" (Samples.noon + Samples.hours 3)
             "confirmed" "completed" in
  statusOf "a1"
    (AuthMiddleware.cancelRoute jwtVerify (Some "Bearer tok-1") Samples.noon
       "a1" (Samples.world a)).2
  = Some "cancelled".
Proof.
  intros jwtVerify findUser a.
  assert (Hne : "tok-1" ≠ "") by discriminate.
  assert (Hin : ∀ u, findUser "u1" = Some u → AuthMiddleware.isActive u = false)
    by (intros u [= <-]; reflexivity).
  destruct (deactivated_account_still_cancels jwtVerify findUser "tok-1" "u1"
              Samples.noon "a1" (mkVerifyBody JNull JNull JNull "a1")
              (Samples.world a) eq_refl Hne eq_refl Hin) as (_ & Hc & _).
  etrans; [exact (f_equal (fun r => statusOf "a1" r.2) Hc)|reflexivity].
Defined.

(** X12.  The admin status override, as it is mounted, is reached only
    by an active administrator.  For a header with which [auth] passes
    as an administrator the mounted route is the override itself; for
    every other header it answers 401 or 403 and writes nothing. *)
Theorem admin_route_guarded
    (jwtVerify : string → option string)
    (findUser : string → option AuthMiddleware.Account)
    (authorization : option string) (appointmentId : string) (status : JsVal)
    (w : World) :
  let r := AuthMiddleware.adminStatusRoute jwtVerify findUser authorization
             appointmentId status w in
  (∀ u, AuthMiddleware.auth jwtVerify findUser authorization = inr u →
        role (AuthMiddleware.reqUser u) = "admin" →
        r = updateStatus appointmentId status w)
  ∧ ((∀ u, AuthMiddleware.auth jwtVerify findUser authorization = inr u →
           role (AuthMiddleware.reqUser u) ≠ "admin") →
     r.2 = w ∧ (httpStatus r.1 = 401 ∨ r.1 = AuthMiddleware.AdminRequired)).
Proof.
  intros r. subst r. unfold AuthMiddleware.adminStatusRoute.
  split.
  - intros u Hu Hr. rewrite Hu. unfold AuthMiddleware.adminOnly.
    by rewrite (proj2 (String.eqb_eq _ _) Hr).
  - intros Hno.
    destruct (AuthMiddleware.auth jwtVerify findUser authorization)
      as [resp|u] eqn:Hu.
    + split; [reflexivity|]. left. simpl.
      revert Hu. unfold AuthMiddleware.auth.
      destruct (AuthMiddleware.bearerToken authorization) as [t|];
        [|by intros [= <-]].
      destruct (String.eqb t ""); [by intros [= <-]|].
      destruct (jwtVerify t) as [uid|]; [|by intros [= <-]].
      destruct (findUser uid) as [u|]; [|by intros [= <-]].
      destruct (negb _); [by intros [= <-]|discriminate].
    + unfold AuthMiddleware.adminOnly.
      rewrite (proj2 (String.eqb_neq _ _) (Hno u eq_refl)).
      split; [reflexivity|by right].
Qed.

(** ** The error handler *)

(** X13.  In the error handler the last matching rule wins.  For an
    error that carries what its rules read, the answer is the one of the
    first match in this order: a gateway error code, the file-size
    limit, an expired token, an invalid token, a validation error (its
    messages joined by ", "), a duplicate key (by its first key: email,
    phone, or any other), a cast error; each is answered 400, the two
    token errors 401.  An error that matches no rule is answered with its
    own status code, 500 when it has none or 0, and its own message,
    "Server Error" when it has none or an empty one.  A duplicate-key
    error without [keyValue], or a validation error without [errors],
    makes the handler itself throw. *)
Theorem errorHandler_last_rule_wins (err : ErrorHandler.Err) :
  (wellFormed err →
     ErrorHandler.errorHandler err
     = Ret (match ruleAnswer err with
            | Some (c, m) => mkResponse c false (messageOrDefault (Some m))
            | None =>
                mkResponse (statusOr500 (ErrorHandler.statusCode err)) false
                  (messageOrDefault (ErrorHandler.errMessage err))
            end))
  ∧ ((ErrorHandler.errCode err = JNum 11000
      ∧ ErrorHandler.keyValue err = None)
     ∨ (ErrorHandler.errName err = "ValidationError"
        ∧ ErrorHandler.errors err = None) →
     ErrorHandler.errorHandler err = Throw TypeError)
  ∧ (∀ c m, ruleAnswer err = Some (c, m) → c = 400 ∨ c = 401).
Proof.
  destruct err as [name code keys errs gateway sc msg].
  unfold wellFormed, ErrorHandler.errorHandler, ErrorHandler.duplicateKey,
    ErrorHandler.validationError, ErrorHandler.andThen, ruleAnswer.
  cbn [ErrorHandler.errName ErrorHandler.errCode ErrorHandler.keyValue
       ErrorHandler.errors ErrorHandler.gatewayCode ErrorHandler.statusCode
       ErrorHandler.errMessage].
  split; [|split].
  - intros [Hk He].
    destruct (bool_decide (code = JNum 11000)) eqn:H11.
    + apply bool_decide_eq_true in H11. destruct (Hk H11) as [ks ->].
      subst code.
      assert (bool_decide (JNum 11000 = JStr "LIMIT_FILE_SIZE") = false)
        as -> by reflexivity.
      destruct (String.eqb_spec name "ValidationError") as [Hn|Hn].
      * destruct (He Hn) as [ms ->]. subst name. simpl.
        by destruct (truthy gateway).
      * destruct (String.eqb_spec name "JsonWebTokenError");
          destruct (String.eqb_spec name "TokenExpiredError");
          destruct (truthy gateway); try reflexivity; congruence.
    + destruct (String.eqb_spec name "ValidationError") as [Hn|Hn].
      * destruct (He Hn) as [ms ->]. subst name. simpl.
        destruct (bool_decide (code = JStr "LIMIT_FILE_SIZE"));
          by destruct (truthy gateway).
      * destruct (String.eqb_spec name "CastError");
          destruct (String.eqb_spec name "JsonWebTokenError");
          destruct (String.eqb_spec name "TokenExpiredError");
          destruct (bool_decide (code = JStr "LIMIT_FILE_SIZE"));
          destruct (truthy gateway); try reflexivity; congruence.
  - intros [[-> ->]|[-> ->]].
    + by rewrite bool_decide_eq_true_2.
    + simpl. by destruct (bool_decide (code = JNum 11000)), keys.
  - intros c m.
    repeat match goal with
           | |- context [if ?b then _ else _] => destruct b
           end; intros [= <- _]; auto.
Qed.

(** The handler on sample errors of the routes. *)
Example errorHandler_samples :
  ErrorHandler.errorHandler
    (ErrorHandler.mkErr "MongoServerError" (JNum 11000) (Some ["phone"]) None
       JUndefined None (Some "E11000 duplicate key error"))
  = Ret (mkResponse 400 false "Phone number already registered")
  ∧ ErrorHandler.errorHandler
      (ErrorHandler.mkErr "ValidationError" JUndefined None
         (Some ["Please provide amount"; "Please provide duration"])
         JUndefined None (Some "Appointment validation failed"))
    = Ret (mkResponse 400 false "Please provide amount, Please provide duration")
  ∧ ErrorHandler.errorHandler
      (ErrorHandler.mkErr "TypeError" JUndefined None None JUndefined None
         (Some "Cannot read properties of null"))
    = Ret (mkResponse 500 false "Cannot read properties of null").
Proof. repeat split. Qed.

(** ** Listings *)

Lemma take_add_drop {A} (l : list A) (m n : nat) :
  take (m + n) l = (take m l ++ take n (drop m l))%list.
Proof.
  rewrite take_drop_commute.
  rewrite <- (take_drop m (take (m + n) l)) at 1.
  rewrite take_take. by replace (m `min` (m + n))%nat with m by lia.
Qed.

(** The pages of a list, one after the other, are the list. *)
Lemma pages_concat {A} (l : list A) (n k : nat) :
  concat (map (fun p => take n (drop ((p - 1) * n) l)) (seq 1 k))
  = take (k * n) l.
Proof.
  induction k as [|k IH]; [reflexivity|].
  rewrite seq_S, map_app, concat_app, IH. simpl.
  rewrite app_nil_r. replace (k - 0)%nat with k by lia.
  replace (n + k * n)%nat with (k * n + n)%nat by lia.
  by rewrite take_add_drop.
Qed.

Lemma ceilDiv_bounds (total limit : nat) :
  (1 ≤ limit)%nat →
  (total ≤ Listings.ceilDiv total limit * limit)%nat
  ∧ ((0 < total)%nat → ((Listings.ceilDiv total limit - 1) * limit < total)%nat)
  ∧ (total = 0%nat → Listings.ceilDiv total limit = 0%nat).
Proof.
  intros Hl. unfold Listings.ceilDiv.
  pose proof (Nat.div_mod_eq (total + limit - 1) limit) as Hd.
  pose proof (Nat.mod_upper_bound (total + limit - 1) limit ltac:(lia)) as Hm.
  set (q := ((total + limit - 1) / limit)%nat) in *.
  set (r := ((total + limit - 1) mod limit)%nat) in *.
  split; [nia|]. split; [intros; nia|].
  intros ->. destruct q; [reflexivity|]. nia.
Qed.

Lemma orDefault_pos (parsed : option nat) (d : nat) :
  (1 ≤ d)%nat → (1 ≤ Listings.orDefault parsed d)%nat.
Proof. intros Hd. destruct parsed as [[|n]|]; simpl; lia. Qed.

Lemma find_length (q : Listings.Query) (db : gmap string Appointment) :
  length (Listings.find q db) = Listings.countDocuments q db.
Proof.
  unfold Listings.find, Listings.countDocuments.
  apply Permutation_length, merge_sort_Permutation.
Qed.

Lemma listing_shape (owner : option string) (d : nat)
    (queryPage queryLimit : option nat) (status : option string)
    (db : gmap string Appointment) :
  (1 ≤ d)%nat →
  let L := Listings.listing owner d queryPage queryLimit status db in
  let all := Listings.find (Listings.buildQuery owner status) db in
  Listings.page L = Listings.orDefault queryPage 1
  ∧ Listings.limit L = Listings.orDefault queryLimit d
  ∧ (1 ≤ Listings.page L)%nat ∧ (1 ≤ Listings.limit L)%nat
  ∧ Listings.total L = length all
  ∧ Listings.docs L
    = take (Listings.limit L)
        (drop ((Listings.page L - 1) * Listings.limit L) all)
  ∧ Listings.count L = length (Listings.docs L)
  ∧ Listings.count L
    = (Listings.limit L
         `min` (Listings.total L - (Listings.page L - 1) * Listings.limit L))%nat
  ∧ (Listings.total L ≤ Listings.pages L * Listings.limit L)%nat
  ∧ ((0 < Listings.total L)%nat →
     ((Listings.pages L - 1) * Listings.limit L < Listings.total L)%nat)
  ∧ (Listings.total L = 0%nat → Listings.pages L = 0%nat)
  ∧ ((Listings.pages L < Listings.page L)%nat → Listings.docs L = []).
Proof.
  intros Hd L all. subst L. unfold Listings.listing. simpl. fold all.
  pose proof (orDefault_pos queryPage 1 ltac:(lia)) as Hp.
  pose proof (orDefault_pos queryLimit d Hd) as Hl.
  set (p := Listings.orDefault queryPage 1) in *.
  set (n := Listings.orDefault queryLimit d) in *.
  rewrite <- (find_length _ db). fold all.
  destruct (ceilDiv_bounds (length all) n Hl) as (Hc1 & Hc2 & Hc3).
  repeat split; try done.
  - by rewrite length_take, length_drop.
  - intros Hlt. rewrite drop_ge; [apply take_nil|]. nia.
Qed.

Lemma parameter_natural (parsed : option Z) (d : nat) :
  (∀ n, parsed = Some n → 0 ≤ n) →
  Z.of_nat (Listings.orDefault (Listings.natural parsed) d)
  = Listings.parameter parsed (Z.of_nat d).
Proof.
  intros Hn. destruct parsed as [n|]; [|reflexivity].
  specialize (Hn n eq_refl). simpl.
  destruct (Z.eqb_spec n 0) as [->|Hne]; [reflexivity|].
  destruct (Z.to_nat n) as [|k] eqn:Hk; lia.
Qed.

(** X14.  For a page and a limit parameter that are absent, not a
    number, or not negative, the two listings answer with a page of the
    matching appointments: [page] and [limit] are the parameters, with
    page 1 and 50 entries (admin) or 10 entries (user) for one that is
    absent, not a number or 0, and so are at least 1; [total] counts the
    matching appointments, [count] is the number of entries on the page
    and is the smaller of [limit] and of what is left from the page's
    start, [pages] is the least number of pages that holds them all, and
    a page beyond [pages] is empty.  The routes set no lower bound: a
    negative parameter is taken as it is. *)
Theorem listing_page_bounds
    (reqUser : string) (queryPage queryLimit : option Z)
    (status : option string) (w : World) :
  (∀ n, queryPage = Some n → 0 ≤ n) →
  (∀ n, queryLimit = Some n → 0 ≤ n) →
  let properPage (L : Listings.Listing) :=
    (1 ≤ Listings.page L)%nat ∧ (1 ≤ Listings.limit L)%nat
    ∧ Listings.count L = length (Listings.docs L)
    ∧ (Listings.count L ≤ Listings.limit L)%nat
    ∧ Listings.count L
      = (Listings.limit L
         `min` (Listings.total L
                - (Listings.page L - 1) * Listings.limit L))%nat
    ∧ (Listings.total L ≤ Listings.pages L * Listings.limit L)%nat
    ∧ ((0 < Listings.total L)%nat →
       ((Listings.pages L - 1) * Listings.limit L < Listings.total L)%nat)
    ∧ (Listings.total L = 0%nat → Listings.pages L = 0%nat)
    ∧ ((Listings.pages L < Listings.page L)%nat → Listings.docs L = []) in
  let admin :=
    (Listings.adminAppointments (Listings.natural queryPage)
       (Listings.natural queryLimit) status w).2 in
  let mine :=
    (Listings.userAppointments reqUser (Listings.natural queryPage)
       (Listings.natural queryLimit) status w).2 in
  properPage admin ∧ properPage mine
  ∧ Z.of_nat (Listings.page admin) = Listings.parameter queryPage 1
  ∧ Z.of_nat (Listings.page mine) = Listings.parameter queryPage 1
  ∧ Z.of_nat (Listings.limit admin) = Listings.parameter queryLimit 50
  ∧ Z.of_nat (Listings.limit mine) = Listings.parameter queryLimit 10
  ∧ Listings.total admin
    = Listings.countDocuments (Listings.buildQuery None status)
        (appointments w)
  ∧ Listings.total mine
    = Listings.countDocuments (Listings.buildQuery (Some reqUser) status)
        (appointments w)
  ∧ (∀ n d, n < 0 → Listings.parameter (Some n) d = n).
Proof.
  intros Hpage Hlimit properPage admin mine.
  assert (Hshape : ∀ owner d, (1 ≤ d)%nat →
            properPage (Listings.listing owner d (Listings.natural queryPage)
                          (Listings.natural queryLimit) status
                          (appointments w))).
  { intros owner d Hd.
    destruct (listing_shape owner d (Listings.natural queryPage)
                (Listings.natural queryLimit) status (appointments w) Hd)
      as (_ & _ & H1 & H2 & _ & _ & H3 & H4 & H5 & H6 & H7 & H8).
    unfold properPage.
    split; [exact H1|]. split; [exact H2|]. split; [exact H3|].
    split; [rewrite H4; lia|]. split; [exact H4|]. split; [exact H5|].
    split; [exact H6|]. split; [exact H7|exact H8]. }
  split; [apply Hshape; lia|]. split; [apply Hshape; lia|].
  split; [exact (parameter_natural queryPage 1 Hpage)|].
  split; [exact (parameter_natural queryPage 1 Hpage)|].
  split; [exact (parameter_natural queryLimit 50 Hlimit)|].
  split; [exact (parameter_natural queryLimit 10 Hlimit)|].
  split; [reflexivity|]. split; [reflexivity|].
  intros n d Hn. simpl. destruct (Z.eqb_spec n 0); [lia|reflexivity].
Qed.

Lemma listing_page_bounds_witness :
  let db : gmap string Appointment :=
    {[ "a1" := Samples.booking "u1" Samples.noon "pending" "pending";
       "a2" := Samples.booking "u1" (Samples.noon + 1) "confirmed" "completed";
       "a3" := Samples.booking "u2" (Samples.noon + 2) "pending" "pending" ]} in
  let mine :=
    (Listings.userAppointments "u1" (Some 2%nat) (Some 1%nat) None
       (mkWorld db [])).2 in
  Listings.count mine = 1%nat ∧ Listings.total mine = 2%nat
  ∧ Listings.pages mine = 2%nat ∧ (Listings.docs mine).*1 = ["a1"].
Proof.
  intros db mine.
  assert (Hp : ∀ n, Some 2 = Some n → 0 ≤ n) by (intros n [= <-]; lia).
  assert (Hl : ∀ n, Some 1 = Some n → 0 ≤ n) by (intros n [= <-]; lia).
  destruct (listing_page_bounds "u1" (Some 2) (Some 1) None (mkWorld db [])
              Hp Hl) as (_ & Hmine & _).
  destruct Hmine as (_ & _ & Hcount & _).
  split; [etrans; [exact Hcount|vm_compute; reflexivity]|].
  repeat split; vm_compute; reflexivity.
Defined.

(** *** The order of the sort *)

Lemma newerFirst_total (a b : Listings.Doc) :
  Listings.newerFirst a b ∨ Listings.newerFirst b a.
Proof.
  unfold Listings.newerFirst, Listings.keyLe.
  destruct (decide (appointmentDate a.2 = appointmentDate b.2)) as [He|Hn].
  - rewrite (bool_decide_eq_true_2 _ He).
    rewrite (bool_decide_eq_true_2 _ (eq_sym He)).
    destruct (appointmentTime a.2) as [x|], (appointmentTime b.2) as [y|];
      simpl; auto.
    destruct (String.leb_total x y); auto.
  - rewrite (bool_decide_eq_false_2 _ Hn).
    rewrite (bool_decide_eq_false_2 (_ = _) (fun H => Hn (eq_sym H))).
    destruct (appointmentDate a.2) as [x|], (appointmentDate b.2) as [y|];
      simpl; auto.
    destruct (Z.leb_spec x y), (Z.leb_spec y x); auto; lia.
Qed.

#[local] Instance newerFirst_Total : Total Listings.newerFirst.
Proof. intros a b. apply newerFirst_total. Qed.

Lemma String_leb_trans (s1 s2 s3 : string) :
  String.leb s1 s2 = true → String.leb s2 s3 = true →
  String.leb s1 s3 = true.
Proof.
  unfold String.leb.
  destruct (String.compare s1 s2) eqn:H12; [|intros _|discriminate].
  - apply String.compare_eq_iff in H12 as ->. auto.
  - destruct (String.compare s2 s3) eqn:H23; [|intros _|discriminate].
    + apply String.compare_eq_iff in H23 as <-. by rewrite H12.
    + apply OrderedTypeEx.String_as_OT.cmp_lt in H12, H23.
      pose proof (OrderedTypeEx.String_as_OT.lt_trans _ _ _ H12 H23) as H13.
      apply OrderedTypeEx.String_as_OT.cmp_lt in H13.
      unfold OrderedTypeEx.String_as_OT.cmp in H13. by rewrite H13.
Qed.

Lemma timeLe_trans (x y z : option string) :
  Listings.timeLe x y = true → Listings.timeLe y z = true →
  Listings.timeLe x z = true.
Proof.
  destruct x as [a|], y as [b|], z as [c|]; simpl; try done.
  apply String_leb_trans.
Qed.

Lemma dateLe_trans (x y z : option Z) :
  Listings.dateLe x y = true → Listings.dateLe y z = true →
  Listings.dateLe x z = true.
Proof.
  destruct x as [a|], y as [b|], z as [c|]; simpl; try done.
  rewrite !Z.leb_le. lia.
Qed.

Lemma dateLe_antisym (x y : option Z) :
  Listings.dateLe x y = true → Listings.dateLe y x = true → x = y.
Proof.
  destruct x as [a|], y as [b|]; simpl; try done.
  rewrite !Z.leb_le. intros. f_equal. lia.
Qed.

Lemma timeLe_antisym (x y : option string) :
  Listings.timeLe x y = true → Listings.timeLe y x = true → x = y.
Proof.
  destruct x as [a|], y as [b|]; simpl; try done.
  intros H1 H2. f_equal. by apply String.leb_antisym.
Qed.

Lemma keyLe_cases (a b : Listings.Doc) :
  Listings.keyLe a b = true
  ↔ (appointmentDate a.2 = appointmentDate b.2
     ∧ Listings.timeLe (appointmentTime a.2) (appointmentTime b.2) = true)
    ∨ (appointmentDate a.2 ≠ appointmentDate b.2
       ∧ Listings.dateLe (appointmentDate a.2) (appointmentDate b.2) = true).
Proof.
  unfold Listings.keyLe. case_bool_decide; intuition.
Qed.

Lemma dateLe_refl (x : option Z) : Listings.dateLe x x = true.
Proof. destruct x; simpl; [apply Z.leb_refl|done]. Qed.

Lemma keyLe_trans (a b c : Listings.Doc) :
  Listings.keyLe a b = true → Listings.keyLe b c = true →
  Listings.keyLe a c = true.
Proof.
  rewrite !keyLe_cases.
  intros [[Hd1 Ht1]|[Hn1 Hd1]] [[Hd2 Ht2]|[Hn2 Hd2]].
  - left. split; [congruence|]. by apply (timeLe_trans _ _ _ Ht1).
  - right. rewrite Hd1. by split.
  - right. rewrite <- Hd2. by split.
  - right. split; [|by apply (dateLe_trans _ _ _ Hd1)].
    intros He. rewrite <- He in Hd2. apply Hn1.
    by apply dateLe_antisym.
Qed.

#[local] Instance newerFirst_Transitive : Transitive Listings.newerFirst.
Proof.
  intros a b c Hab Hbc. unfold Listings.newerFirst in *.
  by apply (keyLe_trans c b a).
Qed.

(** Two documents that may each stand before the other have the same
    date and the same time. *)
Lemma newerFirst_tie (a b : Listings.Doc) :
  Listings.newerFirst a b → Listings.newerFirst b a →
  appointmentDate a.2 = appointmentDate b.2
  ∧ appointmentTime a.2 = appointmentTime b.2.
Proof.
  unfold Listings.newerFirst. rewrite !keyLe_cases.
  intros [[Hd1 Ht1]|[Hn1 Hd1]] [[Hd2 Ht2]|[Hn2 Hd2]].
  - split; [done|]. by apply timeLe_antisym.
  - by destruct Hn2.
  - by destruct Hn1.
  - destruct Hn1. by apply dateLe_antisym.
Qed.

Lemma find_mayReturn (q : Listings.Query) (db : gmap string Appointment) :
  Listings.mayReturn q db (Listings.find q db).
Proof.
  split.
  - apply Sorted_merge_sort. apply _.
  - apply merge_sort_Permutation.
Qed.

(** With distinct keys the order of the sort is one order: every answer
    of the database is the same list. *)
Lemma mayReturn_unique (q : Listings.Query) (db : gmap string Appointment)
    (l1 l2 : list Listings.Doc) :
  Listings.distinctKeys q db →
  Listings.mayReturn q db l1 → Listings.mayReturn q db l2 → l1 = l2.
Proof.
  intros Hd [Hs1 Hp1] [Hs2 Hp2].
  apply (Sorted_unique_strong Listings.newerFirst); [|done|done|].
  - intros x1 x2 Hx1 Hx2 H12 H21.
    destruct (newerFirst_tie x1 x2 H12 H21) as [Hdate Htime].
    apply Hd; [by rewrite <- Hp1|by rewrite <- Hp2|done|done].
  - by rewrite Hp1, Hp2.
Qed.

(** X15.  For a limit parameter that is absent, not a number, or not
    negative, and a store in which no two matching appointments have
    the same date and time: paging through a listing loses and repeats
    nothing, whatever order the database picks for each page's query.
    The pages 1 to [pages], each cut from its own answer, are one after
    the other exactly the matching appointments in the order of the
    sort. *)
Theorem listing_pages_cover
    (owner : option string) (d : nat) (queryLimit : option Z)
    (status : option string) (db : gmap string Appointment)
    (answer : nat → list Listings.Doc) :
  (1 ≤ d)%nat →
  (∀ n, queryLimit = Some n → 0 ≤ n) →
  let q := Listings.buildQuery owner status in
  let limit := Listings.orDefault (Listings.natural queryLimit) d in
  Listings.distinctKeys q db →
  (∀ p, Listings.mayReturn q db (answer p)) →
  let pages := Listings.ceilDiv (Listings.countDocuments q db) limit in
  concat (map (fun p => Listings.pageOf limit p (answer p)) (seq 1 pages))
  = Listings.find q db
  ∧ Listings.mayReturn q db (Listings.find q db)
  ∧ (∀ p, (1 ≤ p)%nat →
       Listings.docs (Listings.listing owner d (Some p)
                        (Listings.natural queryLimit) status db)
       = Listings.pageOf limit p (Listings.find q db))
  ∧ Listings.pages (Listings.listing owner d None
                      (Listings.natural queryLimit) status db)
    = pages.
Proof.
  intros Hd _ q limit Hkeys Hanswer pages.
  set (all := Listings.find q db).
  assert (Hall : ∀ p, answer p = all).
  { intros p. apply (mayReturn_unique q db); [done|done|].
    apply find_mayReturn. }
  split; [|split; [apply find_mayReturn|split]].
  - rewrite (map_ext _ (fun p => take limit (drop ((p - 1) * limit) all))).
    + rewrite pages_concat. apply take_ge.
      pose proof (orDefault_pos (Listings.natural queryLimit) d Hd) as Hl.
      fold limit in Hl.
      destruct (ceilDiv_bounds (Listings.countDocuments q db) limit Hl)
        as (Hc & _).
      fold pages in Hc. unfold all. by rewrite find_length.
    + intros p. unfold Listings.pageOf. by rewrite Hall.
  - intros p Hp. unfold Listings.listing, Listings.pageOf. simpl.
    destruct p; [lia|reflexivity].
  - reflexivity.
Qed.

Lemma listing_pages_cover_witness :
  let db : gmap string Appointment :=
    {[ "a1" := Samples.booking "u1" Samples.noon "pending" "pending";
       "a2" := Samples.booking "u1" (Samples.noon + 1) "confirmed" "completed";
       "a3" := Samples.booking "u2" (Samples.noon + 2) "pending" "pending" ]} in
  let all := Listings.find (Listings.buildQuery None None) db in
  (Listings.pageOf 2 1 all ++ Listings.pageOf 2 2 all)%list = all
  ∧ all.*1 = ["a3"; "a2"; "a1"].
Proof.
  intros db all.
  assert (Hl : ∀ n, Some 2 = Some n → 0 ≤ n) by (intros n [= <-]; lia).
  assert (Hkeys : Listings.distinctKeys (Listings.buildQuery None None) db).
  { assert (Hlist : filter (fun d : Listings.Doc =>
                              Listings.matches (Listings.buildQuery None None) d
                              = true) (map_to_list db)
                    ≡ₚ all) by (symmetry; apply merge_sort_Permutation).
    intros a b Ha Hb. rewrite Hlist in Ha, Hb. revert Ha Hb.
    assert (Hall : all = [ ("a3", Samples.booking "u2" (Samples.noon + 2)
                                    "pending" "pending");
                           ("a2", Samples.booking "u1" (Samples.noon + 1)
                                    "confirmed" "completed");
                           ("a1", Samples.booking "u1" Samples.noon
                                    "pending" "pending") ])
      by (vm_compute; reflexivity).
    rewrite Hall. rewrite !elem_of_cons, !elem_of_nil.
    intros [->|[->|[->|[]]]] [->|[->|[->|[]]]]; simpl;
      first [reflexivity | intros [=]]. }
  destruct (listing_pages_cover None 50 (Some 2) None db (fun _ => all)
              ltac:(lia) Hl Hkeys (fun _ => find_mayReturn _ db))
    as (Hcover & _).
  split; [|vm_compute; reflexivity].
  etrans; [|exact Hcover]. vm_compute. reflexivity.
Defined.

(** With two appointments at the same date and time the database may
    order them differently for the two page queries, and then a page
    repeats one appointment and the other is on no page. *)
Example paging_with_ties :
  let a := Samples.booking "u1" Samples.noon "pending" "pending" in
  let db : gmap string Appointment := {[ "a1" := a; "a2" := a ]} in
  let q := Listings.buildQuery None None in
  let first := [ ("a1", a); ("a2", a) ] in
  let second := [ ("a2", a); ("a1", a) ] in
  Listings.mayReturn q db first ∧ Listings.mayReturn q db second
  ∧ (Listings.pageOf 1 1 first ++ Listings.pageOf 1 2 second)%list
    = [ ("a1", a); ("a1", a) ].
Proof.
  intros a db q first second.
  assert (Hsorted : ∀ x y : string,
            Sorted Listings.newerFirst [ (x, a); (y, a) ]).
  { intros x y. repeat constructor. }
  assert (Hperm : filter (fun d : Listings.Doc => Listings.matches q d = true)
                    (map_to_list db) ≡ₚ first).
  { rewrite <- (merge_sort_Permutation Listings.newerFirst).
    assert (merge_sort Listings.newerFirst
              (filter (fun d : Listings.Doc => Listings.matches q d = true)
                 (map_to_list db)) = first ∨
            merge_sort Listings.newerFirst
              (filter (fun d : Listings.Doc => Listings.matches q d = true)
                 (map_to_list db)) = second) as [->| ->]
      by (vm_compute; auto).
    - reflexivity.
    - apply perm_swap. }
  split; [split; [apply Hsorted|by symmetry]|].
  split; [split; [apply Hsorted|]|reflexivity].
  rewrite Hperm. apply perm_swap.
Qed.


Lemma Sorted_drop_seg {A} (R : relation A) (n : nat) (l : list A) :
  Sorted R l → Sorted R (drop n l).
Proof.
  revert l. induction n as [|n IH]; intros [|x l] H; simpl; try done.
  apply IH. by apply Sorted_inv in H as [H _].
Qed.

Lemma Sorted_take_seg {A} (R : relation A) (n : nat) (l : list A) :
  Sorted R l → Sorted R (take n l).
Proof.
  revert n. induction l as [|x l IH]; intros [|n] H; simpl; try constructor.
  - apply IH. by apply Sorted_inv in H as [H _].
  - apply Sorted_inv in H as [_ H].
    destruct l as [|y l], n as [|n]; simpl; constructor.
    by apply HdRel_inv in H.
Qed.

Lemma find_elem (q : Listings.Query) (db : gmap string Appointment)
    (d : Listings.Doc) :
  d ∈ Listings.find q db ↔ Listings.matches q d = true ∧ db !! d.1 = Some d.2.
Proof.
  unfold Listings.find. rewrite merge_sort_Permutation.
  rewrite list_elem_of_filter.
  destruct d as [i a]. simpl.
  by rewrite (elem_of_map_to_list db i a).
Qed.

Lemma find_NoDup (q : Listings.Query) (db : gmap string Appointment) :
  NoDup (Listings.find q db).*1.
Proof.
  unfold Listings.find. rewrite merge_sort_Permutation.
  eapply sublist_NoDup; [apply (NoDup_fst_map_to_list db)|].
  apply fmap_sublist, sublist_filter.
Qed.

(** X16.  A listing shows stored appointments only, each at most once,
    newest first by date and then by time; every entry of a user's
    listing belongs to that user, and with a status filter other than
    the empty string and [all] every entry has that status. *)
Theorem listing_entries
    (owner : option string) (d : nat) (queryPage queryLimit : option nat)
    (status : option string) (db : gmap string Appointment) :
  let entries :=
    Listings.docs (Listings.listing owner d queryPage queryLimit status db) in
  Sorted Listings.newerFirst entries
  ∧ NoDup entries.*1
  ∧ ∀ appointmentId a, (appointmentId, a) ∈ entries →
      db !! appointmentId = Some a
      ∧ (∀ u, owner = Some u → user a = u)
      ∧ (∀ s, status = Some s → s ≠ "" → s ≠ "all" →
         AppointmentModel.status a = s).
Proof.
  intros entries. subst entries. unfold Listings.listing. simpl.
  set (q := Listings.buildQuery owner status).
  set (n := Listings.orDefault queryLimit d).
  set (k := ((Listings.orDefault queryPage 1 - 1) * n)%nat).
  split; [|split].
  - apply Sorted_take_seg, Sorted_drop_seg, Sorted_merge_sort. apply _.
  - eapply sublist_NoDup; [apply (find_NoDup q db)|].
    apply fmap_sublist. etrans; [apply sublist_take|apply sublist_drop].
  - intros i a Hin.
    assert (Hall : (i, a) ∈ Listings.find q db).
    { apply (subseteq_drop k), (subseteq_take n), Hin. }
    apply find_elem in Hall as [Hm Hdb]. simpl in Hdb. split; [exact Hdb|].
    unfold Listings.matches, q, Listings.buildQuery in Hm. simpl in Hm.
    apply andb_true_iff in Hm as [Hu Hs]. split.
    + intros u ->. by apply String.eqb_eq.
    + intros s -> Hne Hna.
      apply String.eqb_neq in Hne, Hna. rewrite Hne, Hna in Hs.
      by apply String.eqb_eq.
Qed.

(** ** Account deletion *)

Lemma countDocuments_pos (p : Appointment → bool)
    (db : gmap string Appointment) :
  (0 < AccountDeletion.countDocuments p db)%nat
  ↔ ∃ i a, db !! i = Some a ∧ p a = true.
Proof.
  unfold AccountDeletion.countDocuments.
  set (l := filter (fun d : string * Appointment => p d.2 = true)
              (map_to_list db)).
  assert (Hl : ∀ d, d ∈ l ↔ p d.2 = true ∧ db !! d.1 = Some d.2).
  { intros [i a]. unfold l. rewrite list_elem_of_filter. simpl.
    by rewrite (elem_of_map_to_list db i a). }
  split.
  - destruct l as [|[i a] l'] eqn:El; simpl; [lia|]. intros _.
    destruct (proj1 (Hl (i, a)) ltac:(left)) as [Hp Hdb].
    by exists i, a.
  - intros (i & a & Hdb & Hp).
    assert (Hin : (i, a) ∈ l) by (by apply Hl).
    destruct l; [by apply elem_of_nil in Hin|simpl; lia].
Qed.

Lemma upcomingConfirmed_true (now : Z) (userId : string) (a : Appointment) :
  AccountDeletion.upcomingConfirmed now userId a = true
  ↔ user a = userId ∧ status a = "confirmed"
    ∧ ∃ t, appointmentDate a = Some t ∧ now ≤ t.
Proof.
  unfold AccountDeletion.upcomingConfirmed.
  rewrite !andb_true_iff, !String.eqb_eq.
  destruct (appointmentDate a) as [t|].
  - rewrite Z.leb_le. split.
    + intros [[H1 H2] H3]. eauto.
    + intros (H1 & H2 & t' & [= <-] & H3). done.
  - split; [intros [[_ [=]] _]|intros (_ & _ & t & [=] & _)].
Qed.

Lemma pendingOf_true (userId : string) (a : Appointment) :
  AccountDeletion.pendingOf userId a = true
  ↔ user a = userId ∧ status a = "pending".
Proof.
  unfold AccountDeletion.pendingOf.
  by rewrite andb_true_iff, !String.eqb_eq.
Qed.

Lemma cancelForDeletion_valid (a : Appointment) :
  validateSync a = true →
  validateSync (AccountDeletion.cancelForDeletion a) = true.
Proof.
  intros Ha. apply (validateSync_fields a); try reflexivity; try exact Ha.
  simpl. by apply validateSync_paymentStatus.
Qed.

Lemma deleteAccount_checked (password : option string) (userSaved : bool)
    (now : Z) (reqUser : string) (w : World) :
  given password = true →
  AccountDeletion.deleteAccount password true true userSaved now reqUser w
  = let n := AccountDeletion.countDocuments
               (AccountDeletion.upcomingConfirmed now reqUser)
               (appointments w) in
    if (0 <? n)%nat
    then (AccountDeletion.Sent
            (mkResponse 400 false (AccountDeletion.blockedMessage n)), w)
    else (if userSaved
          then AccountDeletion.Sent
                 (mkResponse 200 true "Account deleted successfully")
          else AccountDeletion.Next,
          mkWorld (AccountDeletion.updateMany
                     (AccountDeletion.pendingOf reqUser)
                     AccountDeletion.cancelForDeletion (appointments w))
            (timers w)).
Proof.
  intros Hp. unfold AccountDeletion.deleteAccount. rewrite Hp. simpl.
  destruct (0 <? _)%nat; [reflexivity|]. by destruct userSaved.
Qed.

(** X17.  Once the password is verified, the account deletion is refused
    with status 400 exactly when the caller has a confirmed appointment
    that lies at or after the time of the request; the refusal changes
    nothing.  Appointments of any other status, also paid ones, do not
    block the deletion. *)
Theorem deleteAccount_blocked_iff (password : option string)
    (userSaved : bool) (now : Z) (reqUser : string) (w : World) :
  given password = true →
  let r :=
    AccountDeletion.deleteAccount password true true userSaved now reqUser w in
  let upcoming :=
    ∃ i a t, stored i w = Some a ∧ user a = reqUser
             ∧ status a = "confirmed"
             ∧ appointmentDate a = Some t ∧ now ≤ t in
  (upcoming
   ↔ ∃ n, (1 ≤ n)%nat
          ∧ r.1 = AccountDeletion.Sent
                    (mkResponse 400 false (AccountDeletion.blockedMessage n)))
  ∧ (upcoming → r.2 = w)
  ∧ (¬ upcoming →
     r.1 = if userSaved
           then AccountDeletion.Sent
                  (mkResponse 200 true "Account deleted successfully")
           else AccountDeletion.Next).
Proof.
  intros Hp r upcoming. subst r.
  rewrite (deleteAccount_checked _ userSaved now reqUser w Hp). cbv zeta.
  set (n := AccountDeletion.countDocuments _ _).
  assert (Hn : (0 < n)%nat ↔ upcoming).
  { unfold n. rewrite countDocuments_pos. unfold upcoming, stored. split.
    - intros (i & a & Hdb & Hu).
      apply upcomingConfirmed_true in Hu as (H1 & H2 & t & H3 & H4).
      by exists i, a, t.
    - intros (i & a & t & Hdb & H1 & H2 & H3 & H4). exists i, a.
      split; [exact Hdb|]. apply upcomingConfirmed_true. eauto. }
  destruct (Nat.ltb_spec 0 n) as [Hlt|Hge]; simpl.
  - split; [|split].
    + split; [|intros _; by apply Hn]. intros _. exists n. split; [lia|done].
    + done.
    + intros Hno. destruct Hno. by apply Hn.
  - assert (Hno : ¬ upcoming) by (rewrite <- Hn; lia).
    split; [|split]; [|done|done].
    split; [done|]. intros (m & _ & Hm). by destruct userSaved.
Qed.

Lemma deleteAccount_blocked_iff_witness :
  let w := Samples.world
             (Samples.booking "u1" (Samples.noon + 1) "confirmed" "completed") in
  (AccountDeletion.deleteAccount (Some "secret") true true true Samples.noon
     "u1" w)
  = (AccountDeletion.Sent
       (mkResponse 400 false
          "Cannot delete account with 1 upcoming confirmed appointment. Please cancel them first."),
     w).
Proof.
  intros w.
  destruct (deleteAccount_blocked_iff (Some "secret") true Samples.noon "u1" w
              eq_refl) as (_ & H & _).
  apply injective_projections; [vm_compute; reflexivity|].
  apply H.
  exists "a1",
    (Samples.booking "u1" (Samples.noon + 1) "confirmed" "completed"),
    (Samples.noon + 1).
  repeat split. lia.
Defined.

(** X18.  A deletion that is not blocked cancels every pending
    appointment of the caller, with the note [Cancelled due to account
    deletion], and touches nothing else: no other appointment, no
    payment status (a paid pending appointment stays paid, no refund is
    recorded), no owner, no timer.  No pending appointment of the caller
    is left, and a valid store stays valid.  The appointments are
    cancelled before the account itself is saved: when that save fails
    the error goes to the error handler and the cancellations stay. *)
Theorem deleteAccount_cancels_pending (password : option string)
    (userSaved : bool) (now : Z) (reqUser : string) (w : World) :
  given password = true →
  (∀ i a, stored i w = Some a →
     AccountDeletion.upcomingConfirmed now reqUser a = false) →
  let r :=
    AccountDeletion.deleteAccount password true true userSaved now reqUser w in
  (userSaved = false → r.1 = AccountDeletion.Next)
  ∧ timers r.2 = timers w
  ∧ (∀ i, stored i w = None → stored i r.2 = None)
  ∧ (∀ i a, stored i w = Some a →
       ∃ a', stored i r.2 = Some a'
             ∧ user a' = user a ∧ paymentStatus a' = paymentStatus a
             ∧ (user a = reqUser → status a = "pending" →
                status a' = "cancelled"
                ∧ notes a' = Some "Cancelled due to account deletion")
             ∧ (user a ≠ reqUser ∨ status a ≠ "pending" → a' = a))
  ∧ (∀ i a', stored i r.2 = Some a' →
       ¬ (user a' = reqUser ∧ status a' = "pending"))
  ∧ (validStore w → validStore r.2).
Proof.
  intros Hp Hno r. subst r.
  rewrite (deleteAccount_checked _ userSaved now reqUser w Hp). cbv zeta.
  set (n := AccountDeletion.countDocuments _ _).
  destruct (Nat.ltb_spec 0 n) as [Hlt|_].
  { apply countDocuments_pos in Hlt as (i & a & Hdb & Hu).
    by rewrite (Hno i a Hdb) in Hu. }
  simpl. unfold stored, AccountDeletion.updateMany. simpl.
  assert (Hcase : ∀ a, (AccountDeletion.pendingOf reqUser a = true
                        ∧ user a = reqUser ∧ status a = "pending")
                       ∨ (AccountDeletion.pendingOf reqUser a = false
                          ∧ ¬ (user a = reqUser ∧ status a = "pending"))).
  { intros a. destruct (AccountDeletion.pendingOf reqUser a) eqn:E.
    - left. apply pendingOf_true in E. tauto.
    - right. split; [done|]. rewrite <- pendingOf_true. congruence. }
  split; [by intros ->|]. split; [done|]. split; [|split; [|split]].
  - intros i Hi. by rewrite lookup_fmap, Hi.
  - intros i a Hi. rewrite lookup_fmap, Hi. simpl.
    destruct (Hcase a) as [(-> & Hu & Hs)|(-> & Hn)].
    + eexists. split; [reflexivity|].
      split; [reflexivity|]. split; [reflexivity|].
      split; [by intros _ _|]. intros [H|H]; by destruct H.
    + exists a. split; [reflexivity|].
      split; [reflexivity|]. split; [reflexivity|].
      split; [|done]. intros Hu Hs. destruct Hn. by split.
  - intros i a'. rewrite lookup_fmap.
    destruct (appointments w !! i) as [a|]; [|done]. simpl. intros [= <-].
    destruct (Hcase a) as [(-> & Hu & Hs)|(-> & Hn)]; [|done].
    by intros [_ [=]].
  - intros Hv i a'. unfold stored. simpl. rewrite lookup_fmap.
    destruct (appointments w !! i) as [a|] eqn:Hi; [|done]. simpl.
    intros [= <-]. specialize (Hv i a Hi).
    destruct (AccountDeletion.pendingOf reqUser a); [|done].
    by apply cancelForDeletion_valid.
Qed.

Lemma deleteAccount_cancels_pending_witness :
  let paidPending := Samples.booking "u1" Samples.noon "pending" "completed" in
  let r := AccountDeletion.deleteAccount (Some "secret") true true false
             Samples.noon "u1" (Samples.world paidPending) in
  r.1 = AccountDeletion.Next
  ∧ ∃ a', stored "a1" r.2 = Some a'
          ∧ status a' = "cancelled" ∧ paymentStatus a' = "completed".
Proof.
  intros paidPending r.
  assert (Hno : ∀ i a, stored i (Samples.world paidPending) = Some a →
            AccountDeletion.upcomingConfirmed Samples.noon "u1" a = false).
  { intros i a. unfold stored. simpl. rewrite lookup_singleton_Some.
    by intros [_ <-]. }
  destruct (deleteAccount_cancels_pending (Some "secret") false Samples.noon
              "u1" (Samples.world paidPending) eq_refl Hno)
    as (Hnext & _ & _ & Hall & _).
  split; [by apply Hnext|].
  destruct (Hall "a1" paidPending eq_refl) as (a' & Hst & _ & Hpay & Hc & _).
  exists a'. split; [exact Hst|].
  split; [by apply Hc|exact Hpay].
Defined.

(** X19.  The deletion writes only after all its checks: when it changes
    the store the password was given, the account was found, the
    password was correct, the caller had a pending appointment and no
    upcoming confirmed one.  A request without a password is answered
    400 before the account is looked up, an unknown account 404 before
    the password is compared. *)
Theorem deleteAccount_writes_only_when_verified (password : option string)
    (userFound passwordCorrect userSaved : bool) (now : Z) (reqUser : string)
    (w : World) :
  let r :=
    AccountDeletion.deleteAccount password userFound passwordCorrect userSaved
      now reqUser w in
  (r.2 ≠ w →
   given password = true ∧ userFound = true ∧ passwordCorrect = true
   ∧ (∃ i a, stored i w = Some a ∧ user a = reqUser ∧ status a = "pending")
   ∧ ¬ (∃ i a, stored i w = Some a
               ∧ AccountDeletion.upcomingConfirmed now reqUser a = true))
  ∧ (given password = false →
     r.1 = AccountDeletion.Sent
             (mkResponse 400 false "Password is required to delete account"))
  ∧ (given password = true → userFound = false →
     r.1 = AccountDeletion.Sent (mkResponse 404 false "User not found"))
  ∧ (given password = true → userFound = true → passwordCorrect = false →
     r.1 = AccountDeletion.Sent (mkResponse 401 false "Incorrect password")).
Proof.
  intros r. subst r. split; [|split; [|split]].
  - destruct (given password) eqn:Hp;
      [|unfold AccountDeletion.deleteAccount; rewrite Hp; done].
    destruct userFound;
      [|unfold AccountDeletion.deleteAccount; rewrite Hp; done].
    destruct passwordCorrect;
      [|unfold AccountDeletion.deleteAccount; rewrite Hp; done].
    rewrite (deleteAccount_checked _ userSaved now reqUser w Hp). cbv zeta.
    set (n := AccountDeletion.countDocuments _ _).
    destruct (Nat.ltb_spec 0 n) as [Hlt|Hge]; [done|]. simpl. intros Hw.
    do 3 (split; [reflexivity|]). split.
    + destruct (decide (∃ i a, appointments w !! i = Some a
                         ∧ AccountDeletion.pendingOf reqUser a = true))
        as [(i & a & Hi & Hpd)|Hnone].
      * apply pendingOf_true in Hpd as [Hu Hs]. by exists i, a.
      * destruct Hw. destruct w as [db ts]. simpl in *. f_equal.
        apply map_eq. intros i. unfold AccountDeletion.updateMany.
        rewrite lookup_fmap. destruct (db !! i) as [a|] eqn:Hi; [|done].
        simpl. destruct (AccountDeletion.pendingOf reqUser a) eqn:Hpd;
          [|done].
        destruct Hnone. by exists i, a.
    + intros Hex. apply countDocuments_pos in Hex. fold n in Hex. lia.
  - intros Hp. unfold AccountDeletion.deleteAccount. by rewrite Hp.
  - intros Hp ->. unfold AccountDeletion.deleteAccount. by rewrite Hp.
  - intros Hp -> ->. unfold AccountDeletion.deleteAccount. by rewrite Hp.
Qed.

(** ** Histories of requests *)

(** What an operation does to the world when it acts on a stored, valid
    appointment: nothing, one write under the appointment's id, or, for
    the end of a call, that write and one timer. *)
Lemma run_effect (op : Operation) (w : World) (appointmentId : string)
    (A : Appointment) :
  stored appointmentId w = Some A →
  validateSync A = true →
  (run op appointmentId w).2 = w
  ∨ (∃ A', (run op appointmentId w).2 = write appointmentId A' w)
  ∨ (∃ now, op = SetCallStatus now (JStr "ended")
            ∧ (run op appointmentId w).2
              = mkWorld (<[appointmentId := ended now A]> (appointments w))
                  (timers w ++ [teardown A])).
Proof.
  intros Hst Hv.
  destruct op as [now U|now U o p s|U|v|now v|post now U]; cbn [run].
  - destruct (String.eqb_spec (user A) U) as [HU|HU].
    + rewrite (cancel_owner _ _ _ _ _ Hst HU).
      destruct (_ && _); [by left|].
      rewrite (cancelled_valid A Hv). right. left. by eexists.
    + rewrite (cancel_stranger _ _ _ _ _ Hst HU). by left.
  - rewrite (verify_found w now U (mkVerifyBody o p s appointmentId) A Hst).
    right. left. by eexists.
  - rewrite (failed_found _ _ _ _ Hst). right. left. by eexists.
  - destruct (includes statusEnum v) eqn:Hi.
    + apply includes_statusEnum in Hi as (s & -> & Hs).
      rewrite (updateStatus_found _ _ _ _ Hs Hst).
      rewrite (overridden_valid s A Hs Hv). right. left. by eexists.
    + rewrite (updateStatus_invalid _ _ _ Hi). by left.
  - destruct (decide (v = JStr "ended")) as [->|He].
    + rewrite (callStatus_ended _ _ _ _ Hst Hv). right. right. by exists now.
    + destruct (decide (v = JStr "started")) as [->|Hs].
      * rewrite (callStatus_started _ _ _ _ Hst). by left.
      * rewrite (callStatus_other _ _ _ _ _ Hs He Hst Hv). by left.
  - rewrite (createRoom_found _ _ _ _ _ _ Hst Hv).
    destruct (negb _); [by left|].
    destruct (post _) as [[name url]|]; [|by left].
    right. left. by eexists.
Qed.

(** X20.  A request touches the appointment it names and no other: the
    documents under every other id are as before.  The only request that
    leaves anything outside the store is the end of a call, which
    schedules the deletion of the room; after every other request the
    pending timers are as before. *)
Theorem run_touches_one_appointment (op : Operation) (w : World)
    (appointmentId : string) :
  validStore w →
  (∀ i, i ≠ appointmentId →
     stored i (run op appointmentId w).2 = stored i w)
  ∧ ((∀ now, op ≠ SetCallStatus now (JStr "ended")) →
     timers (run op appointmentId w).2 = timers w).
Proof.
  intros Hw.
  destruct (stored appointmentId w) as [A|] eqn:Hst.
  - destruct (run_effect op w appointmentId A Hst (Hw _ _ Hst))
      as [->|[[A' ->]|(now & -> & ->)]].
    + done.
    + split; [|done]. intros i Hi. unfold stored, write. simpl.
      by rewrite lookup_insert_ne.
    + split; [|intros H; by destruct (H now)].
      intros i Hi. unfold stored. simpl. by rewrite lookup_insert_ne.
  - by rewrite (run_missing op w appointmentId Hst).
Qed.

Lemma run_touches_one_appointment_witness :
  let db : gmap string Appointment :=
    {[ "a1" := Samples.booking "u1" Samples.noon "confirmed" "completed";
       "a2" := Samples.booking "u2" Samples.noon "pending" "pending" ]} in
  let w' := (run (PaymentFailed "u2") "a1" (mkWorld db [])).2 in
  statusOf "a1" w' = Some "cancelled"
  ∧ stored "a2" w' = db !! "a2" ∧ timers w' = [].
Proof.
  intros db w'.
  assert (Hv : validStore (mkWorld db [])).
  { intros i a. unfold stored. simpl. unfold db.
    rewrite lookup_insert_Some, lookup_singleton_Some.
    by intros [[_ <-]|[_ [_ <-]]]. }
  destruct (run_touches_one_appointment (PaymentFailed "u2")
              (mkWorld db []) "a1" Hv) as [Hothers Htimers].
  split; [vm_compute; reflexivity|]. split.
  - by apply Hothers.
  - by apply Htimers.
Defined.

(** X21.  Along every history of requests the set of stored appointments
    and the owner of each stay what they were, and every stored status
    is one of pending, confirmed, completed and cancelled: no history
    leaves an appointment in-progress. *)
Theorem history_keeps_owners_and_statuses
    (history : list (Operation * string)) (w : World) :
  validStore w →
  ∀ i, user <$> stored i (runAll history w) = user <$> stored i w
       ∧ ∀ a, stored i (runAll history w) = Some a →
              status a ∈ statusEnum ∧ status a ≠ "in-progress".
Proof.
  intros Hw i. split.
  - revert w Hw.
    induction history as [|[op appointmentId] rest IH]; intros w Hw;
      [reflexivity|].
    simpl. rewrite (IH _ (run_validStore op w appointmentId Hw)).
    by apply run_owner.
  - intros a Hst.
    pose proof (runAll_validStore history w Hw i a Hst) as Hv.
    apply validateSync_status in Hv. unfold inEnum in Hv.
    apply bool_decide_eq_true_1 in Hv. split; [exact Hv|].
    intros He. rewrite He in Hv. revert Hv. in_enum.
Qed.

Lemma history_keeps_owners_and_statuses_witness :
  let w := Samples.world
             (Samples.booking "u1" Samples.noon "confirmed" "completed") in
  let w' := runAll [ (SetCallStatus Samples.noon (JStr "started"), "a1");
                     (PaymentFailed "u2", "a1") ] w in
  user <$> stored "a1" w' = Some "u1"
  ∧ statusOf "a1" w' = Some "cancelled".
Proof.
  intros w w'.
  assert (Hv : validStore w).
  { intros i a. unfold stored. simpl. rewrite lookup_singleton_Some.
    by intros [_ <-]. }
  destruct (history_keeps_owners_and_statuses
              [ (SetCallStatus Samples.noon (JStr "started"), "a1");
                (PaymentFailed "u2", "a1") ] w Hv "a1") as [Hu _].
  split; [exact Hu|vm_compute; reflexivity].
Defined.

Lemma ended_ended (now now' : Z) (a : Appointment) :
  ended now' (ended now a) = ended now' a.
Proof. reflexivity. Qed.

(** X22.  Ending a call is not guarded against a call that has ended:
    every such request on a stored, valid appointment answers success,
    schedules one more deletion of the same room and overwrites the end
    time, so after [n] requests [n] deletions are pending and the
    document is the one the last request wrote. *)
Theorem callStatus_ended_repeats (nows : list Z) (w : World)
    (appointmentId : string) (A : Appointment) :
  stored appointmentId w = Some A →
  validateSync A = true →
  let w' :=
    runAll (map (fun now => (SetCallStatus now (JStr "ended"), appointmentId))
              nows) w in
  timers w' = (timers w ++ replicate (length nows) (teardown A))%list
  ∧ ∀ now, last nows = Some now →
           stored appointmentId w' = Some (ended now A).
Proof.
  revert w A. induction nows as [|now rest IH]; intros w A Hst Hv; simpl.
  - split; [by rewrite app_nil_r|done].
  - rewrite (callStatus_ended _ _ _ _ Hst Hv). cbn [snd].
    set (w1 := mkWorld (<[appointmentId := ended now A]> (appointments w))
                 (timers w ++ [teardown A])).
    assert (Hst1 : stored appointmentId w1 = Some (ended now A))
      by (unfold stored; simpl; by rewrite lookup_insert_eq).
    destruct (IH w1 (ended now A) Hst1 (ended_valid now A Hv)) as [Ht Hl].
    split.
    + rewrite Ht. simpl. by rewrite <- app_assoc.
    + intros now' Hlast. destruct rest as [|now2 rest'].
      * simpl in Hlast. injection Hlast as <-. exact Hst1.
      * rewrite (Hl now' Hlast). by rewrite ended_ended.
Qed.

Lemma callStatus_ended_repeats_witness :
  let A := Samples.booking "u1" Samples.noon "confirmed" "completed" in
  let w' :=
    runAll [ (SetCallStatus Samples.noon (JStr "ended"), "a1");
             (SetCallStatus (Samples.noon + 5) (JStr "ended"), "a1") ]
      (Samples.world A) in
  length (timers w') = 2%nat
  ∧ stored "a1" w' = Some (ended (Samples.noon + 5) A).
Proof.
  intros A w'.
  destruct (callStatus_ended_repeats [Samples.noon; Samples.noon + 5]
              (Samples.world A) "a1" A eq_refl eq_refl) as [Ht Hl].
  split.
  - change (length (timers w') = 2%nat).
    etrans; [exact (f_equal length Ht)|reflexivity].
  - by apply Hl.
Defined.

(** ** Who may write *)

Lemma cancel_missing (w : World) (appointmentId U : string) (now : Z) :
  stored appointmentId w = None →
  cancel now U appointmentId w
  = (mkResponse 404 false "Appointment not found", w).
Proof.
  intros Hst. unfold stored in Hst.
  unfold cancel, tryCatch, cancelBody, bind, Model.findById, Store.findById.
  by rewrite Hst.
Qed.

(** X23.  Only its owner cancels an appointment: a cancel request that
    changes the store, or that is answered with success, comes from the
    user the appointment belongs to (an admin who is not the owner is
    refused like anyone else), and it leaves the appointment cancelled
    with payment status refunded, whatever the payment status was, also
    for an appointment that was never paid. *)
Theorem cancel_only_by_owner (now : Z) (U appointmentId : string)
    (w : World) :
  let r := cancel now U appointmentId w in
  r.2 ≠ w ∨ r.1 = Cancelled →
  ∃ A, stored appointmentId w = Some A
       ∧ user A = U
       ∧ r = (Cancelled, write appointmentId (cancelled A) w)
       ∧ statusOf appointmentId r.2 = Some "cancelled"
       ∧ paymentStatus <$> stored appointmentId r.2 = Some "refunded".
Proof.
  intros r. subst r.
  destruct (stored appointmentId w) as [A|] eqn:Hst.
  - destruct (String.eqb_spec (user A) U) as [HU|HU].
    + rewrite (cancel_owner _ _ _ _ _ Hst HU).
      destruct (_ && _); [by intros [H|H]|].
      destruct (validateSync (cancelled A)); [|by intros [H|H]].
      intros _. exists A. split; [done|]. split; [done|]. split; [done|].
      unfold statusOf, stored, write. simpl. by rewrite lookup_insert_eq.
    + rewrite (cancel_stranger _ _ _ _ _ Hst HU). by intros [H|H].
  - rewrite (cancel_missing _ _ _ _ Hst). by intros [H|H].
Qed.

Lemma cancel_only_by_owner_witness :
  let A := Samples.booking "u1" (Samples.noon + Samples.hours 5) "pending"
             "pending" in
  paymentStatus
    <$> stored "a1" (cancel Samples.noon "u1" "a1" (Samples.world A)).2
  = Some "refunded".
Proof.
  intros A.
  destruct (cancel_only_by_owner Samples.noon "u1" "a1" (Samples.world A))
    as (A' & _ & _ & _ & _ & H).
  - right. vm_compute. reflexivity.
  - exact H.
Defined.

Lemma createRoom_cases (post : DailyService.RoomsEndpoint) (now : Z)
    (reqUser : ReqUser) (appointmentId : string) (w : World) :
  createRoom post now reqUser appointmentId w
  = match stored appointmentId w with
    | None => (mkResponse 404 false "Appointment not found", w)
    | Some A =>
        if negb (mayAccess reqUser A)
        then (mkResponse 403 false "Not authorized to access this appointment",
              w)
        else match post (roomConfigFor appointmentId A) with
             | Some (name, url) =>
                 if validateSync (withRoom name url A)
                 then (RoomCreated,
                       write appointmentId (withRoom name url A) w)
                 else (RoomFailed, w)
             | None => (RoomFailed, w)
             end
    end.
Proof.
  unfold createRoom, tryCatch, createRoomBody.
  unfold bind at 1. unfold Model.findById, Store.findById, stored.
  destruct (appointments w !! appointmentId) as [A|]; [|reflexivity].
  fold (mayAccess reqUser A).
  destruct (negb (mayAccess reqUser A)); [reflexivity|].
  unfold bind at 1. unfold liftResult, DailyService.createRoom. simpl.
  fold (roomConfigFor appointmentId A).
  destruct (post (roomConfigFor appointmentId A)) as [[name url]|];
    [|reflexivity].
  simpl. fold (withRoom name url A). unfold bind, ret.
  destruct (validateSync (withRoom name url A)) eqn:Hv.
  - by rewrite (save_valid _ _ _ Hv).
  - by rewrite (save_invalid _ _ _ Hv).
Qed.

(** X24.  A room is stored only for the owner of the appointment or an
    admin, and only when the provider answers: a room request that
    changes the world comes from such a caller, the provider returned a
    room for the request [consultation-<id>], and the change is that
    room written to the appointment.  No timer is scheduled. *)
Theorem createRoom_only_when_authorized (post : DailyService.RoomsEndpoint)
    (now : Z) (reqUser : ReqUser) (appointmentId : string) (w : World) :
  let r := createRoom post now reqUser appointmentId w in
  r.2 ≠ w →
  ∃ A name url,
    stored appointmentId w = Some A
    ∧ (user A = id reqUser ∨ role reqUser = "admin")
    ∧ post (roomConfigFor appointmentId A) = Some (name, url)
    ∧ DailyService.configName (roomConfigFor appointmentId A)
      = "consultation-" ++ appointmentId
    ∧ r = (RoomCreated, write appointmentId (withRoom name url A) w).
Proof.
  intros r. subst r. rewrite createRoom_cases.
  destruct (stored appointmentId w) as [A|]; [|done].
  destruct (mayAccess reqUser A) eqn:Hm; [|done]. cbn [negb].
  destruct (post (roomConfigFor appointmentId A)) as [[name url]|] eqn:Hp;
    [|done].
  destruct (validateSync (withRoom name url A)); [|done].
  intros _. exists A, name, url.
  split; [reflexivity|]. split.
  - unfold mayAccess in Hm. apply orb_true_iff in Hm.
    by rewrite !String.eqb_eq in Hm.
  - split; [exact Hp|]. split; reflexivity.
Qed.

Lemma createRoom_only_when_authorized_witness :
  let A := Samples.booking "u1" Samples.noon "confirmed" "completed" in
  let admin := mkReqUser "staff" "admin" in
  roomNameOf "a1"
    (createRoom (Samples.echo "https://rooms.example/") Samples.noon admin
       "a1" (Samples.world A)).2
  = Some "consultation-a1".
Proof.
  intros A admin.
  destruct (createRoom_only_when_authorized
              (Samples.echo "https://rooms.example/") Samples.noon admin "a1"
              (Samples.world A))
    as (A' & name & url & _ & _ & _ & _ & H).
  - vm_compute. discriminate.
  - vm_compute. reflexivity.
Defined.

(** X25.  The payment-failure route checks neither that the appointment
    exists nor whose it is nor what state it is in: it answers success
    to every caller; for an id that matches no appointment nothing is
    written, and a stored appointment, whoever owns it and whatever its
    status and payment status were (completed and paid included), is
    left cancelled with payment status failed and otherwise unchanged. *)
Theorem failed_unguarded (reqUser appointmentId : string) (w : World) :
  let r := failed reqUser appointmentId w in
  r.1 = FailureRecorded
  ∧ (stored appointmentId w = None → r.2 = w)
  ∧ ∀ A, stored appointmentId w = Some A →
      ∃ A', stored appointmentId r.2 = Some A'
            ∧ status A' = "cancelled" ∧ paymentStatus A' = "failed"
            ∧ set_status (status A) (set_paymentStatus (paymentStatus A) A')
              = A.
Proof.
  intros r. subst r.
  destruct (stored appointmentId w) as [A|] eqn:Hst.
  - rewrite (failed_found _ _ _ _ Hst).
    split; [reflexivity|]. split; [done|]. intros A0 [= <-].
    exists (unpaid A). unfold stored, write. simpl.
    rewrite lookup_insert_eq. split; [reflexivity|].
    split; [reflexivity|]. split; [reflexivity|]. by destruct A.
  - pose proof (run_missing (PaymentFailed reqUser) w appointmentId Hst)
      as Hw.
    cbn [run] in Hw. split; [|split; [by intros _|done]].
    unfold failed, tryCatch, failedBody, bind, ret, Model.findByIdAndUpdate.
    reflexivity.
Qed.
